(** * Gabriel Family Clinic: slot booking and queue progression

    A shallow embedding of the PostgreSQL objects that implement the
    booking core of the clinic platform:

    - the tables [doctors], [time_slots], [appointments], [queue_status]
      with the constraints that the booking path can hit;
    - the PL/pgSQL functions [generate_queue_number], [book_appointment],
      [advance_queue], [lock_time_slot];
    - the triggers [set_queue_number] and [manage_slot_availability];
    - the two Next.js API handlers of the execution plan
      ([api/appointments/book], [api/queue/next]).

    Tables are lists of rows in physical order.  A UUID is an integer, a
    DATE is a day number, a TIMESTAMPTZ is a number of seconds (session
    time zone UTC), an INTEGER is a [Z] whose range is checked where the
    code does arithmetic on it.  A PL/pgSQL function runs inside the
    transaction of its caller: it returns [Ok] with the new database, or
    [Err] and none of its writes survive. *)

From Stdlib Require Import ZArith List String Ascii Bool Lia.
Import ListNotations.

Open Scope string_scope.
Open Scope Z_scope.

(* ------------------------------------------------------------------ *)
(** ** Errors and the transaction monad                                 *)
(* ------------------------------------------------------------------ *)

(** The error conditions the booking path can raise. *)
Inductive pg_error : Type :=
| raise_exception (message : string)        (* RAISE EXCEPTION '...' *)
| lock_not_available                        (* FOR UPDATE NOWAIT on a locked row *)
| unique_violation (constraint : string)
| check_violation (constraint : string)
| not_null_violation (column : string)
| foreign_key_violation (column : string)
| numeric_value_out_of_range.

Inductive result (A : Type) : Type :=
| Ok (a : A)
| Err (e : pg_error).

Arguments Ok {A} a.
Arguments Err {A} e.

Definition bind {A B : Type} (r : result A) (k : A -> result B) : result B :=
  match r with
  | Ok a => k a
  | Err e => Err e
  end.

Notation "x <- r ;; k" := (bind r (fun x => k))
  (at level 61, r at next level, right associativity).

Definition guard (b : bool) (e : pg_error) : result unit :=
  if b then Ok tt else Err e.

(* ------------------------------------------------------------------ *)
(** ** Scalar types                                                     *)
(* ------------------------------------------------------------------ *)

Definition uuid := Z.
Definition date := Z.
Definition timestamptz := Z.

(** [DATE(ts)]: the day a timestamp falls on. *)
Definition DATE (ts : timestamptz) : date := ts / 86400.

(** [d + t] for a DATE and a TIME (seconds since midnight). *)
Definition date_plus_time (d : date) (t : Z) : timestamptz := d * 86400 + t.

Definition int4_max : Z := 2147483647.
Definition int4_min : Z := -2147483648.

(** INTEGER arithmetic raises on overflow, it does not wrap. *)
Definition int4 (z : Z) : result Z :=
  if (int4_min <=? z) && (z <=? int4_max) then Ok z
  else Err numeric_value_out_of_range.

Inductive appointment_status : Type :=
| pending | confirmed | reminder_sent | arrived | in_consultation
| completed | no_show | cancelled | rescheduled.

Inductive appointment_type : Type :=
| consultation | follow_up | vaccination | health_screening
| chronic_care | pediatric | geriatric | urgent.

Definition status_eqb (a b : appointment_status) : bool :=
  match a, b with
  | pending, pending | confirmed, confirmed | reminder_sent, reminder_sent
  | arrived, arrived | in_consultation, in_consultation
  | completed, completed | no_show, no_show | cancelled, cancelled
  | rescheduled, rescheduled => true
  | _, _ => false
  end.

(** [status IN ('cancelled', 'no_show')]. *)
Definition in_cancelled_no_show (s : appointment_status) : bool :=
  match s with
  | cancelled | no_show => true
  | _ => false
  end.

(* ------------------------------------------------------------------ *)
(** ** Text functions                                                   *)
(* ------------------------------------------------------------------ *)

(** [CHR(n)] for an ASCII code. *)
Definition CHR (n : Z) : string :=
  String (ascii_of_nat (Z.to_nat n)) EmptyString.

Definition digit_char (d : Z) : ascii := ascii_of_nat (48 + Z.to_nat d).

Fixpoint digits_of (fuel : nat) (n : Z) (acc : string) : string :=
  match fuel with
  | O => acc
  | S fuel' =>
      let acc' := String (digit_char (n mod 10)) acc in
      if n / 10 =? 0 then acc' else digits_of fuel' (n / 10) acc'
  end.

(** [n::TEXT] for an INTEGER (at most ten digits). *)
Definition int4_to_text (n : Z) : string :=
  if n <? 0 then String "-"%char (digits_of 10 (- n) EmptyString)
  else digits_of 10 n EmptyString.

Fixpoint repeat_char (n : nat) (c : ascii) : string :=
  match n with
  | O => EmptyString
  | S n' => String c (repeat_char n' c)
  end.

(** [LPAD(s, n, fill)] with a one-character fill: pads on the left up to
    [n] characters, and truncates on the right when [s] is longer. *)
Definition LPAD (s : string) (n : nat) (fill : ascii) : string :=
  if Nat.leb n (String.length s) then substring 0 n s
  else String.append (repeat_char (n - String.length s) fill) s.

Definition is_digit (c : ascii) : bool :=
  let n := nat_of_ascii c in Nat.leb 48 n && Nat.leb n 57.

(** The characters of [s] from the last non-digit on: what the POSIX
    pattern [\d+$] matches, or the empty string when [s] does not end in
    a digit. *)
Fixpoint trailing_digits (s : string) : string :=
  match s with
  | EmptyString => EmptyString
  | String c rest =>
      let t := trailing_digits rest in
      if is_digit c && Nat.eqb (String.length t) (String.length rest)
      then String c t else t
  end.

(** [SUBSTRING(s FROM '\d+$')]: NULL when nothing matches. *)
Definition substring_trailing_digits (s : string) : option string :=
  match trailing_digits s with
  | EmptyString => None
  | t => Some t
  end.

Fixpoint digits_value (s : string) (acc : Z) : Z :=
  match s with
  | EmptyString => acc
  | String c rest => digits_value rest (10 * acc + (Z.of_nat (nat_of_ascii c) - 48))
  end.

(** [CAST(t AS INTEGER)] of a string of digits. *)
Definition cast_text_integer (t : string) : result Z :=
  int4 (digits_value t 0).

(* ------------------------------------------------------------------ *)
(** ** Rows and tables                                                  *)
(* ------------------------------------------------------------------ *)

Module Doctor.
Record row : Type := mk {
  id : uuid;
  created_at : timestamptz
}.
End Doctor.

Module TimeSlot.
Record row : Type := mk {
  id : uuid;
  doctor_id : uuid;
  slot_date : date;
  slot_time : Z;
  slot_end_time : Z;
  is_available : bool;
  is_blocked : bool;
  max_patients : Z;
  booked_count : Z
}.

Definition set_availability (avail : bool) (count : Z) (s : row) : row :=
  mk (id s) (doctor_id s) (slot_date s) (slot_time s) (slot_end_time s)
     avail (is_blocked s) (max_patients s) count.
End TimeSlot.

Module Appointment.
Record row : Type := mk {
  id : uuid;
  patient_id : uuid;
  doctor_id : uuid;
  time_slot_id : uuid;
  queue_number : string;
  queue_sequence : Z;
  queue_date : date;
  appointment_type_ : appointment_type;
  status : appointment_status;
  scheduled_time : timestamptz;
  booking_notes : option string;
  actual_start_time : option timestamptz;
  created_at : timestamptz
}.

Definition set_status (st : appointment_status) (a : row) : row :=
  mk (id a) (patient_id a) (doctor_id a) (time_slot_id a) (queue_number a)
     (queue_sequence a) (queue_date a) (appointment_type_ a) st
     (scheduled_time a) (booking_notes a) (actual_start_time a)
     (created_at a).

Definition set_actual_start_time (t : option timestamptz) (a : row) : row :=
  mk (id a) (patient_id a) (doctor_id a) (time_slot_id a) (queue_number a)
     (queue_sequence a) (queue_date a) (appointment_type_ a) (status a)
     (scheduled_time a) (booking_notes a) t (created_at a).
End Appointment.

Module QueueStatus.
Record row : Type := mk {
  id : uuid;
  doctor_id : uuid;
  queue_date : date;
  current_queue_number : option string;
  current_queue_sequence : Z;
  current_patient_id : option uuid;
  current_appointment_id : option uuid;
  total_queued_today : Z;
  total_seen_today : Z;
  total_no_shows_today : Z;
  last_called_at : option timestamptz;
  last_updated_at : timestamptz
}.
End QueueStatus.

(** The database: one list of rows per table.  [patients] keeps the
    primary keys only; no function below reads another column of it. *)
Record database : Type := mk_database {
  doctors : list Doctor.row;
  patients : list uuid;
  time_slots : list TimeSlot.row;
  appointments : list Appointment.row;
  queue_status : list QueueStatus.row
}.

Definition with_time_slots (ts : list TimeSlot.row) (db : database) : database :=
  mk_database (doctors db) (patients db) ts (appointments db) (queue_status db).

Definition with_appointments (aps : list Appointment.row) (db : database) : database :=
  mk_database (doctors db) (patients db) (time_slots db) aps (queue_status db).

Definition with_queue_status (qs : list QueueStatus.row) (db : database) : database :=
  mk_database (doctors db) (patients db) (time_slots db) (appointments db) qs.

(** [ORDER BY key] (ascending, stable). *)
Fixpoint insert_by {A : Type} (key : A -> Z) (x : A) (l : list A) : list A :=
  match l with
  | [] => [x]
  | y :: l' => if key x <=? key y then x :: l else y :: insert_by key x l'
  end.

Definition order_by {A : Type} (key : A -> Z) (l : list A) : list A :=
  fold_right (insert_by key) [] l.

(** [MAX(...)] over a column: NULL on no rows. *)
Definition sql_max (l : list Z) : option Z :=
  match l with
  | [] => None
  | x :: l' => Some (fold_left Z.max l' x)
  end.

(** [COALESCE(x, d)]. *)
Definition COALESCE {A : Type} (x : option A) (d : A) : A :=
  match x with
  | Some v => v
  | None => d
  end.

(** [ROW_NUMBER() OVER (...)]: numbers the rows it is given from 1. *)
Fixpoint row_number_from {A : Type} (n : Z) (rows : list A) : list (Z * A) :=
  match rows with
  | [] => []
  | r :: rows' => (n, r) :: row_number_from (n + 1) rows'
  end.

Definition ROW_NUMBER {A : Type} (rows : list A) : list (Z * A) :=
  row_number_from 1 rows.

(* ------------------------------------------------------------------ *)
(** ** Queue numbers                                                    *)
(* ------------------------------------------------------------------ *)

(** The prefix query of [generate_queue_number]: the [WHERE] clause
    selects the rows, the window function numbers the rows that are
    left, [SELECT ... INTO] keeps the first result row (NULL on none). *)
Definition queue_prefix (db : database) (p_doctor_id : uuid) : option string :=
  hd_error
    (map (fun nr => CHR (65 + (fst nr - 1)))
       (ROW_NUMBER
          (order_by Doctor.created_at
             (filter (fun d => Doctor.id d =? p_doctor_id) (doctors db))))).

(** The sequence query of [generate_queue_number]. *)
Definition next_queue_sequence (db : database) (p_doctor_id : uuid)
  (p_date : date) : result Z :=
  int4 (COALESCE
          (sql_max
             (map Appointment.queue_sequence
                (filter
                   (fun a => (Appointment.doctor_id a =? p_doctor_id)
                             && (DATE (Appointment.created_at a) =? p_date))
                   (appointments db))))
          0 + 1).

(** [generate_queue_number(p_doctor_id, p_date)]; [None] is NULL (the
    concatenation with a NULL prefix). *)
Definition generate_queue_number (db : database) (p_doctor_id : uuid)
  (p_date : date) : result (option string) :=
  let v_prefix := queue_prefix db p_doctor_id in
  v_sequence <- next_queue_sequence db p_doctor_id p_date ;;
  Ok (match v_prefix with
      | Some prefix =>
          Some (String.append prefix (LPAD (int4_to_text v_sequence) 3 "0"%char))
      | None => None
      end).

(* ------------------------------------------------------------------ *)
(** ** INSERT INTO appointments and its triggers                        *)
(* ------------------------------------------------------------------ *)

(** The VALUES list of an INSERT: the two queue columns may be NULL
    until the constraints are checked. *)
Module NewAppointment.
Record values : Type := mk {
  id : uuid;
  patient_id : uuid;
  doctor_id : uuid;
  time_slot_id : uuid;
  queue_number : option string;
  queue_sequence : option Z;
  queue_date : date;
  appointment_type_ : appointment_type;
  status : appointment_status;
  scheduled_time : timestamptz;
  booking_notes : option string
}.

Definition set_queue_number (q : option string) (v : values) : values :=
  mk (id v) (patient_id v) (doctor_id v) (time_slot_id v) q (queue_sequence v)
     (queue_date v) (appointment_type_ v) (status v) (scheduled_time v)
     (booking_notes v).
End NewAppointment.

(** Trigger [set_queue_number] (BEFORE INSERT, WHEN queue_number IS NULL). *)
Definition generate_queue_number_trigger (db : database)
  (NEW : NewAppointment.values) : result NewAppointment.values :=
  match NewAppointment.queue_number NEW with
  | None =>
      q <- generate_queue_number db (NewAppointment.doctor_id NEW)
             (NewAppointment.queue_date NEW) ;;
      Ok (NewAppointment.set_queue_number q NEW)
  | Some _ => Ok NEW
  end.

Definition not_null {A : Type} (column : string) (x : option A) : result A :=
  match x with
  | Some v => Ok v
  | None => Err (not_null_violation column)
  end.

(** CHECK, PRIMARY KEY, UNIQUE and FOREIGN KEY constraints of
    [appointments], for a row about to be stored. *)
Definition appointments_constraints (db : database) (a : Appointment.row)
  : result unit :=
  _ <- guard (0 <? Appointment.queue_sequence a)
         (check_violation "valid_queue_sequence") ;;
  _ <- guard (negb (existsb (fun b => Appointment.id b =? Appointment.id a)
                      (appointments db)))
         (unique_violation "appointments_pkey") ;;
  _ <- guard (negb (existsb
                      (fun b => (Appointment.patient_id b =? Appointment.patient_id a)
                                && (Appointment.time_slot_id b =? Appointment.time_slot_id a))
                      (appointments db)))
         (unique_violation "unique_patient_slot") ;;
  _ <- guard (negb (existsb
                      (fun b => (Appointment.doctor_id b =? Appointment.doctor_id a)
                                && (Appointment.queue_date b =? Appointment.queue_date a)
                                && String.eqb (Appointment.queue_number b)
                                     (Appointment.queue_number a))
                      (appointments db)))
         (unique_violation "unique_queue_number") ;;
  _ <- guard (existsb (fun p => p =? Appointment.patient_id a) (patients db))
         (foreign_key_violation "patient_id") ;;
  _ <- guard (existsb (fun d => Doctor.id d =? Appointment.doctor_id a) (doctors db))
         (foreign_key_violation "doctor_id") ;;
  guard (existsb (fun s => TimeSlot.id s =? Appointment.time_slot_id a) (time_slots db))
    (foreign_key_violation "time_slot_id").

(** CHECK constraints of [time_slots] that an UPDATE of the availability
    columns can violate: [valid_capacity] reads the updated column and
    [future_slots_only] reads CURRENT_DATE.  ([valid_time_range] reads
    columns no statement here writes, so it holds of the stored row.) *)
Definition time_slots_checks (today : date) (s : TimeSlot.row) : result unit :=
  _ <- guard (today <=? TimeSlot.slot_date s)
         (check_violation "future_slots_only") ;;
  guard (TimeSlot.booked_count s <=? TimeSlot.max_patients s)
    (check_violation "valid_capacity").

(** [UPDATE time_slots SET ... WHERE ...]: every row the condition
    selects is rewritten and re-checked; one failure fails the statement. *)
Fixpoint update_time_slots (today : date) (where_ : TimeSlot.row -> bool)
  (set : TimeSlot.row -> result TimeSlot.row) (rows : list TimeSlot.row)
  : result (list TimeSlot.row) :=
  match rows with
  | [] => Ok []
  | s :: rows' =>
      s' <- (if where_ s
             then (n <- set s ;; _ <- time_slots_checks today n ;; Ok n)
             else Ok s) ;;
      rest <- update_time_slots today where_ set rows' ;;
      Ok (s' :: rest)
  end.

(** What fired the row trigger: [TG_OP] with OLD and NEW. *)
Inductive trigger_event : Type :=
| TG_INSERT (NEW : Appointment.row)
| TG_UPDATE (OLD NEW : Appointment.row).

(** Trigger [manage_slot_availability] (AFTER INSERT OR UPDATE ON
    appointments, FOR EACH ROW). *)
Definition update_slot_availability (today : date) (ev : trigger_event)
  (db : database) : result database :=
  match ev with
  | TG_INSERT NEW =>
      ts <- update_time_slots today
              (fun s => TimeSlot.id s =? Appointment.time_slot_id NEW)
              (fun s => c <- int4 (TimeSlot.booked_count s + 1) ;;
                        Ok (TimeSlot.set_availability false c s))
              (time_slots db) ;;
      Ok (with_time_slots ts db)
  | TG_UPDATE OLD NEW =>
      if negb (in_cancelled_no_show (Appointment.status OLD))
         && in_cancelled_no_show (Appointment.status NEW)
      then
        ts <- update_time_slots today
                (fun s => TimeSlot.id s =? Appointment.time_slot_id NEW)
                (fun s => c <- int4 (TimeSlot.booked_count s - 1) ;;
                          Ok (TimeSlot.set_availability true (Z.max c 0) s))
                (time_slots db) ;;
        Ok (with_time_slots ts db)
      else Ok db
  end.

(** [INSERT INTO appointments (...) VALUES (...) RETURNING *]:
    the BEFORE trigger, the NOT NULL columns, the table constraints, the
    new row, then the AFTER trigger on it.  [created_at] takes its
    default CURRENT_TIMESTAMP. *)
Definition insert_appointment (now : timestamptz) (db : database)
  (NEW : NewAppointment.values) : result (Appointment.row * database) :=
  NEW <- generate_queue_number_trigger db NEW ;;
  q <- not_null "queue_number" (NewAppointment.queue_number NEW) ;;
  n <- not_null "queue_sequence" (NewAppointment.queue_sequence NEW) ;;
  let a :=
    Appointment.mk (NewAppointment.id NEW) (NewAppointment.patient_id NEW)
      (NewAppointment.doctor_id NEW) (NewAppointment.time_slot_id NEW)
      q n (NewAppointment.queue_date NEW) (NewAppointment.appointment_type_ NEW)
      (NewAppointment.status NEW) (NewAppointment.scheduled_time NEW)
      (NewAppointment.booking_notes NEW) None now in
  _ <- appointments_constraints db a ;;
  db' <- update_slot_availability (DATE now) (TG_INSERT a)
           (with_appointments (appointments db ++ [a])%list db) ;;
  Ok (a, db').

(* ------------------------------------------------------------------ *)
(** ** book_appointment                                                 *)
(* ------------------------------------------------------------------ *)

Definition slot_not_available : pg_error :=
  raise_exception "Slot is not available".

(** [SELECT * INTO v_slot FROM time_slots WHERE id = p_slot_id FOR UPDATE
    NOWAIT].  [locked] tells which rows other transactions hold. *)
Definition select_slot_for_update_nowait (locked : uuid -> bool)
  (db : database) (p_slot_id : uuid) : result (option TimeSlot.row) :=
  match find (fun s => TimeSlot.id s =? p_slot_id) (time_slots db) with
  | None => Ok None
  | Some s => if locked (TimeSlot.id s) then Err lock_not_available else Ok (Some s)
  end.

(** [CAST(SUBSTRING(v_queue_number FROM '\d+$') AS INTEGER)]. *)
Definition queue_sequence_of (v_queue_number : option string) : result (option Z) :=
  match v_queue_number with
  | None => Ok None
  | Some q =>
      match substring_trailing_digits q with
      | None => Ok None
      | Some t => z <- cast_text_integer t ;; Ok (Some z)
      end
  end.

(** The body of [book_appointment] once the row lock is held: [found] is
    what the locking SELECT returned. *)
Definition book_appointment_locked (now : timestamptz) (new_id : uuid)
  (db : database) (found : option TimeSlot.row)
  (p_patient_id p_doctor_id p_slot_id : uuid)
  (p_appointment_type : appointment_type) (p_notes : option string)
  : result (Appointment.row * database) :=
  match found with
  | None => Err slot_not_available
  | Some v_slot =>
      if negb (TimeSlot.is_available v_slot) || TimeSlot.is_blocked v_slot
      then Err slot_not_available
      else
        v_queue_number <- generate_queue_number db p_doctor_id
                            (TimeSlot.slot_date v_slot) ;;
        v_queue_sequence <- queue_sequence_of v_queue_number ;;
        insert_appointment now db
          (NewAppointment.mk new_id p_patient_id p_doctor_id p_slot_id
             v_queue_number v_queue_sequence (TimeSlot.slot_date v_slot)
             p_appointment_type confirmed
             (date_plus_time (TimeSlot.slot_date v_slot) (TimeSlot.slot_time v_slot))
             p_notes)
  end.

(** [book_appointment(p_patient_id, p_doctor_id, p_slot_id,
    p_appointment_type, p_notes)].  [now] is CURRENT_TIMESTAMP and
    [new_id] the value [uuid_generate_v4()] gives the new row. *)
Definition book_appointment (now : timestamptz) (new_id : uuid)
  (locked : uuid -> bool) (db : database)
  (p_patient_id p_doctor_id p_slot_id : uuid)
  (p_appointment_type : appointment_type) (p_notes : option string)
  : result (Appointment.row * database) :=
  found <- select_slot_for_update_nowait locked db p_slot_id ;;
  book_appointment_locked now new_id db found p_patient_id p_doctor_id
    p_slot_id p_appointment_type p_notes.

(** No other transaction holds a row lock. *)
Definition no_locks : uuid -> bool := fun _ => false.

(* ------------------------------------------------------------------ *)
(** ** UPDATE appointments and advance_queue                            *)
(* ------------------------------------------------------------------ *)

(** The AFTER ROW triggers queued by one statement, fired in row order. *)
Fixpoint fire_triggers (today : date) (events : list trigger_event)
  (db : database) : result database :=
  match events with
  | [] => Ok db
  | ev :: events' =>
      db' <- update_slot_availability today ev db ;;
      fire_triggers today events' db'
  end.

(** [UPDATE appointments SET ... WHERE ...]: the selected rows are
    rewritten, then the row triggers fire with each OLD and NEW. *)
Definition update_appointments (today : date) (where_ : Appointment.row -> bool)
  (set : Appointment.row -> Appointment.row) (db : database) : result database :=
  fire_triggers today
    (map (fun a => TG_UPDATE a (set a)) (filter where_ (appointments db)))
    (with_appointments
       (map (fun a => if where_ a then set a else a) (appointments db)) db).

(** [UPDATE appointments SET status = st WHERE id = appointment_id]: the
    statement behind cancel, check-in, complete and no-show. *)
Definition update_appointment_status (today : date) (appointment_id : uuid)
  (st : appointment_status) (db : database) : result database :=
  update_appointments today (fun a => Appointment.id a =? appointment_id)
    (Appointment.set_status st) db.

(** The SELECT of [advance_queue]: [ORDER BY queue_sequence LIMIT 1]. *)
Definition select_next_appointment (today : date) (db : database)
  (p_doctor_id : uuid) : option Appointment.row :=
  hd_error
    (order_by Appointment.queue_sequence
       (filter
          (fun a => (Appointment.doctor_id a =? p_doctor_id)
                    && (Appointment.queue_date a =? today)
                    && status_eqb (Appointment.status a) arrived)
          (appointments db))).

(** The first UPDATE of [advance_queue]. *)
Definition start_consultation (now : timestamptz) (v_next : Appointment.row)
  (db : database) : result database :=
  update_appointments (DATE now)
    (fun a => Appointment.id a =? Appointment.id v_next)
    (fun a => Appointment.set_actual_start_time (Some now)
                (Appointment.set_status in_consultation a))
    db.

Definition call_patient (now : timestamptz) (v_next : Appointment.row)
  (q : QueueStatus.row) : QueueStatus.row :=
  QueueStatus.mk (QueueStatus.id q) (QueueStatus.doctor_id q)
    (QueueStatus.queue_date q)
    (Some (Appointment.queue_number v_next))
    (Appointment.queue_sequence v_next)
    (Some (Appointment.patient_id v_next))
    (Some (Appointment.id v_next))
    (QueueStatus.total_queued_today q) (QueueStatus.total_seen_today q)
    (QueueStatus.total_no_shows_today q)
    (Some now) now.

(** The second UPDATE of [advance_queue], [RETURNING * INTO
    v_queue_status]: the first updated row, NULL when there is none. *)
Definition update_queue_status (now : timestamptz) (p_doctor_id : uuid)
  (v_next : Appointment.row) (db : database)
  : option QueueStatus.row * database :=
  (hd_error
     (map (call_patient now v_next)
        (filter (fun q => QueueStatus.doctor_id q =? p_doctor_id) (queue_status db))),
   with_queue_status
     (map (fun q => if QueueStatus.doctor_id q =? p_doctor_id
                    then call_patient now v_next q else q)
        (queue_status db))
     db).

(** [advance_queue(p_doctor_id)]: [Ok (None, db)] is the NOTICE
    'No patients in queue' with RETURN NULL. *)
Definition advance_queue (now : timestamptz) (db : database)
  (p_doctor_id : uuid) : result (option QueueStatus.row * database) :=
  match select_next_appointment (DATE now) db p_doctor_id with
  | None => Ok (None, db)
  | Some v_next_appointment =>
      db1 <- start_consultation now v_next_appointment db ;;
      Ok (update_queue_status now p_doctor_id v_next_appointment db1)
  end.

(** A transaction: the database after the call is the one the function
    built, or the one before when it raised. *)
Definition commit {A : Type} (db : database) (r : result (A * database))
  : result A * database :=
  match r with
  | Ok (a, db') => (Ok a, db')
  | Err e => (Err e, db)
  end.

(* ------------------------------------------------------------------ *)
(** ** A sample clinic                                                  *)
(* ------------------------------------------------------------------ *)

(** Day 20000, 08:00. *)
Definition sample_now : timestamptz := 20000 * 86400 + 8 * 3600.

(** Two doctors (1 created before 2), three patients, and for doctor 1
    the slots 101 (09:00) and 102 (09:30) today, 103 and 104 tomorrow;
    slot 201 belongs to doctor 2. *)
Definition sample_slot (i d : uuid) (day : date) (t : Z) : TimeSlot.row :=
  TimeSlot.mk i d day t (t + 1800) true false 1 0.

Definition sample_db : database :=
  mk_database
    [Doctor.mk 1 1000; Doctor.mk 2 2000]
    [11; 12; 13]
    [sample_slot 101 1 20000 32400; sample_slot 102 1 20000 34200;
     sample_slot 103 1 20001 32400; sample_slot 104 1 20001 34200;
     sample_slot 201 2 20000 32400]
    []
    [QueueStatus.mk 1 1 20000 None 0 None None 0 0 0 None 0;
     QueueStatus.mk 2 2 20000 None 0 None None 0 0 0 None 0].


(** The sample clinic after patient 11 has reserved, today, slot 103 of
    tomorrow with doctor 1. *)
Definition sample_db_booked_ahead : database :=
  snd (commit sample_db
         (book_appointment sample_now 1001 no_locks sample_db 11 1 103
            consultation None)).

(* ------------------------------------------------------------------ *)
(** ** Predicates on database states                                    *)
(* ------------------------------------------------------------------ *)

(** [0 <= booked_count <= max_patients]. *)
Definition slot_within_capacity (s : TimeSlot.row) : Prop :=
  0 <= TimeSlot.booked_count s <= TimeSlot.max_patients s.

Definition slots_within_capacity (db : database) : Prop :=
  Forall slot_within_capacity (time_slots db).

(** The database after a statement on [appointments] whose row trigger
    ran on [ev]: a trigger that raises aborts the statement. *)
Definition after_trigger (today : date) (ev : trigger_event) (db : database)
  : database :=
  match update_slot_availability today ev db with
  | Ok db' => db'
  | Err _ => db
  end.

(** A sequence of inserts and status updates, each on its own day. *)
Fixpoint after_triggers (events : list (date * trigger_event)) (db : database)
  : database :=
  match events with
  | [] => db
  | (today, ev) :: events' => after_triggers events' (after_trigger today ev db)
  end.


(** The rows [advance_queue] chooses from. *)
Definition waiting (today : date) (db : database) (p_doctor_id : uuid)
  : list Appointment.row :=
  filter
    (fun a => (Appointment.doctor_id a =? p_doctor_id)
              && (Appointment.queue_date a =? today)
              && status_eqb (Appointment.status a) arrived)
    (appointments db).

(** An appointment that keeps its slot: it references the slot and the
    trigger has not released it ([status NOT IN ('cancelled','no_show')]). *)
Definition holds_slot (slot : uuid) (a : Appointment.row) : bool :=
  (Appointment.time_slot_id a =? slot)
  && negb (in_cancelled_no_show (Appointment.status a)).

Definition holders (db : database) (slot : uuid) : list Appointment.row :=
  filter (holds_slot slot) (appointments db).

(** An appointment on the slot that is not cancelled. *)
Definition non_cancelled_on (slot : uuid) (a : Appointment.row) : bool :=
  (Appointment.time_slot_id a =? slot)
  && negb (status_eqb (Appointment.status a) cancelled).

(** The state invariant of the booking core: appointment ids are a key,
    no slot has two holders, and a slot shown as available has none. *)
Definition slot_invariant (db : database) : Prop :=
  NoDup (map Appointment.id (appointments db)) /\
  forall slot : uuid,
    (List.length (holders db slot) <= 1)%nat /\
    (forall s, In s (time_slots db) -> TimeSlot.id s = slot ->
               TimeSlot.is_available s = true -> holders db slot = []).

(** The transactions that write the booking tables. *)
Inductive operation : Type :=
| op_reserve (now : timestamptz) (new_id : uuid)
    (p_patient_id p_doctor_id p_slot_id : uuid)
    (p_appointment_type : appointment_type) (p_notes : option string)
| op_update_status (today : date) (appointment_id : uuid)
    (st : appointment_status)
| op_advance (now : timestamptz) (p_doctor_id : uuid).

Definition run_operation (op : operation) (db : database) : database :=
  match op with
  | op_reserve now new_id p d s t n =>
      snd (commit db (book_appointment now new_id no_locks db p d s t n))
  | op_update_status today appointment_id st =>
      match update_appointment_status today appointment_id st db with
      | Ok db' => db'
      | Err _ => db
      end
  | op_advance now p_doctor_id =>
      snd (commit db (advance_queue now db p_doctor_id))
  end.

(** A status update that leaves cancelled and no-show appointments as
    they are (both are final). *)
Definition leaves_released (op : operation) (db : database) : Prop :=
  match op with
  | op_update_status _ appointment_id _ =>
      forall a, In a (appointments db) -> Appointment.id a = appointment_id ->
                in_cancelled_no_show (Appointment.status a) = false
  | _ => True
  end.

(** States reached from [db0] by a sequence of transactions in which a
    cancelled or no-show appointment is never given another status. *)
Inductive reachable_final (db0 : database) : database -> Prop :=
| reachable_final_start : reachable_final db0 db0
| reachable_final_step (db : database) (op : operation) :
    reachable_final db0 db -> leaves_released op db ->
    reachable_final db0 (run_operation op db).

(* ------------------------------------------------------------------ *)
(** ** Concurrent calls of book_appointment                             *)
(* ------------------------------------------------------------------ *)

(** [SELECT ... FOR UPDATE NOWAIT] takes the row lock or fails at once,
    and the lock is kept until the transaction ends.  A call therefore
    runs in two steps: its locking SELECT, and everything after it up to
    commit or rollback.  Calls for the same slot cannot both be past their
    SELECT, so running the second step at once loses no interleaving of
    such calls. *)

(** One call, with the clock and the fresh id it will see. *)
Record reserve_call : Type := mk_call {
  call_now : timestamptz;
  call_new_id : uuid;
  call_patient_id : uuid;
  call_doctor_id : uuid;
  call_slot_id : uuid;
  call_type : appointment_type;
  call_notes : option string
}.

(** Where a call stands.  Between [SELECT ... FOR UPDATE NOWAIT] and the
    end of its transaction a call that found the row holds its lock. *)
Inductive call_state : Type :=
| call_waiting
| call_locked (found : option TimeSlot.row)
| call_returned (r : result Appointment.row).

(** The committed database, the calls, and what has been returned so far
    (latest first). *)
Record system : Type := mk_system {
  sys_db : database;
  sys_calls : list (reserve_call * call_state);
  sys_returned : list (result Appointment.row)
}.

Definition holds_lock (slot : uuid) (c : reserve_call * call_state) : bool :=
  match snd c with
  | call_locked (Some s) => TimeSlot.id s =? slot
  | _ => false
  end.

Definition locked_rows (calls : list (reserve_call * call_state)) : uuid -> bool :=
  fun slot => existsb (holds_lock slot) calls.

Fixpoint set_nth {A : Type} (i : nat) (x : A) (l : list A) : list A :=
  match l, i with
  | [], _ => []
  | _ :: l', O => x :: l'
  | y :: l', S i' => y :: set_nth i' x l'
  end.

Inductive event : Type :=
| ev_select (i : nat)      (* call i runs its locking SELECT *)
| ev_complete (i : nat).   (* call i runs the rest and its transaction ends *)

Definition step (e : event) (sys : system) : system :=
  match e with
  | ev_select i =>
      match nth_error (sys_calls sys) i with
      | Some (c, call_waiting) =>
          match select_slot_for_update_nowait (locked_rows (sys_calls sys))
                  (sys_db sys) (call_slot_id c) with
          | Ok found =>
              mk_system (sys_db sys)
                (set_nth i (c, call_locked found) (sys_calls sys))
                (sys_returned sys)
          | Err e =>
              mk_system (sys_db sys)
                (set_nth i (c, call_returned (Err e)) (sys_calls sys))
                (Err e :: sys_returned sys)
          end
      | _ => sys
      end
  | ev_complete i =>
      match nth_error (sys_calls sys) i with
      | Some (c, call_locked found) =>
          let out :=
            commit (sys_db sys)
              (book_appointment_locked (call_now c) (call_new_id c) (sys_db sys)
                 found (call_patient_id c) (call_doctor_id c) (call_slot_id c)
                 (call_type c) (call_notes c)) in
          mk_system (snd out)
            (set_nth i (c, call_returned (fst out)) (sys_calls sys))
            (fst out :: sys_returned sys)
      | _ => sys
      end
  end.

Definition run (schedule : list event) (sys : system) : system :=
  fold_left (fun s e => step e s) schedule sys.

Definition start (db : database) (calls : list reserve_call) : system :=
  mk_system db (map (fun c => (c, call_waiting)) calls) [].

Definition failed {A : Type} (r : result A) : Prop := exists e, r = Err e.

Definition slot_taken {A : Type} (r : result A) : Prop :=
  r = Err slot_not_available \/ r = Err lock_not_available.

(** What a sequence of returns (latest first) looks like when at most one
    call wins: failures only, or one success, with only 'Slot is not
    available' and lock-not-available after it. *)
Definition one_winner (returned : list (result Appointment.row)) : Prop :=
  Forall failed returned \/
  exists later a earlier,
    returned = (later ++ Ok a :: earlier)%list /\
    Forall slot_taken later /\ Forall failed earlier.

(* ------------------------------------------------------------------ *)
(** ** advance_queue, statement by statement                            *)
(* ------------------------------------------------------------------ *)

(** [advance_queue] is VOLATILE and takes no lock: each of its three
    statements reads what is committed when it starts.  The schedules
    below let a call run its SELECT before, and its UPDATEs after, the
    other call has returned, so that all it reads is committed. *)

Inductive advance_state : Type :=
| adv_start
| adv_selected (v_next_appointment : Appointment.row)
| adv_started (v_next_appointment : Appointment.row)
| adv_returned (r : result (option QueueStatus.row)).

(** The next statement of a call of [advance_queue]. *)
Definition advance_statement (now : timestamptz) (p_doctor_id : uuid)
  (st : advance_state) (db : database) : advance_state * database :=
  match st with
  | adv_start =>
      match select_next_appointment (DATE now) db p_doctor_id with
      | None => (adv_returned (Ok None), db)
      | Some v => (adv_selected v, db)
      end
  | adv_selected v =>
      match start_consultation now v db with
      | Ok db' => (adv_started v, db')
      | Err e => (adv_returned (Err e), db)
      end
  | adv_started v =>
      let out := update_queue_status now p_doctor_id v db in
      (adv_returned (Ok (fst out)), snd out)
  | adv_returned r => (st, db)
  end.

(** Two calls for the same doctor; a schedule says whose statement runs. *)
Inductive turn : Type := first_call | second_call.

Record two_advances : Type := mk_two {
  adv_db : database;
  adv_first : advance_state;
  adv_second : advance_state
}.

Definition advance_turn (now1 now2 : timestamptz) (p_doctor_id : uuid)
  (t : turn) (s : two_advances) : two_advances :=
  match t with
  | first_call =>
      let out := advance_statement now1 p_doctor_id (adv_first s) (adv_db s) in
      mk_two (snd out) (fst out) (adv_second s)
  | second_call =>
      let out := advance_statement now2 p_doctor_id (adv_second s) (adv_db s) in
      mk_two (snd out) (adv_first s) (fst out)
  end.

Definition run_advances (now1 now2 : timestamptz) (p_doctor_id : uuid)
  (schedule : list turn) (db : database) : two_advances :=
  fold_left (fun s t => advance_turn now1 now2 p_doctor_id t s) schedule
    (mk_two db adv_start adv_start).

(** The sample clinic with patients 11 and 12 booked on slots 101 and
    102 and both checked in ("A001" and "A002" are waiting). *)
Definition sample_db_two_arrived : database :=
  fold_left (fun db op => run_operation op db)
    [op_reserve sample_now 1001 11 1 101 consultation None;
     op_reserve sample_now 1002 12 1 102 consultation None;
     op_update_status 20000 1001 arrived;
     op_update_status 20000 1002 arrived]
    sample_db.

(* ------------------------------------------------------------------ *)
(** ** The booking handler of the execution plan                        *)
(* ------------------------------------------------------------------ *)

(** [api/appointments/book] and [lock_time_slot] work on the plan's own
    tables: [time_slots] has the columns read here in common with the
    table above, [appointments] has no [queue_date], and no trigger
    touches [time_slots].  Each [supabase] call of the handler is a
    request of its own, committed when it returns. *)
Module Plan.

Record appointment : Type := mk_appointment {
  id : uuid;
  patient_id : uuid;
  doctor_id : uuid;
  time_slot_id : uuid;
  queue_number : string;
  queue_sequence : Z;
  status : appointment_status;
  notes : option string
}.

Record database : Type := mk {
  doctors : list uuid;
  patients : list uuid;
  time_slots : list TimeSlot.row;
  appointments : list appointment
}.

(** [UPDATE time_slots SET is_available = false WHERE id = slot_id]; the
    table's check [future_slots_only] is evaluated on the new row. *)
Fixpoint mark_unavailable (today : date) (slot_id : uuid)
  (rows : list TimeSlot.row) : result (list TimeSlot.row) :=
  match rows with
  | [] => Ok []
  | s :: rows' =>
      s' <- (if TimeSlot.id s =? slot_id
             then (_ <- guard (today <=? TimeSlot.slot_date s)
                          (check_violation "future_slots_only") ;;
                   Ok (TimeSlot.set_availability false (TimeSlot.booked_count s) s))
             else Ok s) ;;
      rest <- mark_unavailable today slot_id rows' ;;
      Ok (s' :: rest)
  end.

(** [lock_time_slot(slot_id)]: returns the row as it was read, or NULL. *)
Definition lock_time_slot (today : date) (locked : uuid -> bool)
  (slot_id : uuid) (db : database) : result (option TimeSlot.row * database) :=
  match find (fun s => (TimeSlot.id s =? slot_id) && TimeSlot.is_available s)
          (time_slots db) with
  | Some slot =>
      if locked (TimeSlot.id slot) then Err lock_not_available
      else
        ts <- mark_unavailable today slot_id (time_slots db) ;;
        Ok (Some slot, mk (doctors db) (patients db) ts (appointments db))
  | None => Ok (None, db)
  end.

(** [s.split(sep)]. *)
Fixpoint js_split (sep : ascii) (s : string) : list string :=
  match s with
  | EmptyString => [EmptyString]
  | String c rest =>
      let parts := js_split sep rest in
      if Ascii.eqb c sep then EmptyString :: parts
      else match parts with
           | [] => [String c EmptyString]
           | p :: ps => String c p :: ps
           end
  end.

Definition is_js_space (c : ascii) : bool :=
  let n := nat_of_ascii c in
  Nat.eqb n 32 || (Nat.leb 9 n && Nat.leb n 13).

Fixpoint skip_spaces (s : string) : string :=
  match s with
  | String c rest => if is_js_space c then skip_spaces rest else s
  | EmptyString => s
  end.

(** The value of a character as a digit in base 10 or 16. *)
Definition digit_in (radix : Z) (c : ascii) : option Z :=
  let n := Z.of_nat (nat_of_ascii c) in
  let v := if (48 <=? n) && (n <=? 57) then n - 48
           else if (97 <=? n) && (n <=? 102) then n - 87
           else if (65 <=? n) && (n <=? 70) then n - 55
           else 16 in
  if v <? radix then Some v else None.

(** The longest prefix of digits, read in the radix; [None] when the
    string does not start with a digit. *)
Fixpoint leading_number (radix : Z) (s : string) (acc : option Z) : option Z :=
  match s with
  | EmptyString => acc
  | String c rest =>
      match digit_in radix c with
      | Some v => leading_number radix rest (Some (radix * COALESCE acc 0 + v))
      | None => acc
      end
  end.

(** [parseInt(x)] without a radix; [None] is NaN, and an absent argument
    is [undefined]. *)
Definition parseInt (x : option string) : option Z :=
  match x with
  | None => None
  | Some s =>
      let s1 := skip_spaces s in
      let signed :=
        match s1 with
        | String "-"%char r => (-1, r)
        | String "+"%char r => (1, r)
        | _ => (1, s1)
        end in
      let body := snd signed in
      let magnitude :=
        match body with
        | String "0"%char (String "x"%char r) => leading_number 16 r None
        | String "0"%char (String "X"%char r) => leading_number 16 r None
        | _ => leading_number 10 body None
        end in
      option_map (Z.mul (fst signed)) magnitude
  end.

(** The body of a booking request. *)
Record request : Type := mk_request {
  patientId : uuid;
  doctorId : uuid;
  slotId : uuid;
  req_notes : option string
}.

(** [supabase.from('appointments').insert({...}).select().single()]:
    NaN is sent as null into the NOT NULL column; then the keys. *)
Definition insert_appointment (new_id : uuid) (req : request)
  (queueNumber : string) (db : database) : result (appointment * database) :=
  n <- not_null "queue_sequence"
         (parseInt (nth_error (js_split "-"%char queueNumber) 1)) ;;
  n <- int4 n ;;
  let a := mk_appointment new_id (patientId req) (doctorId req) (slotId req)
             queueNumber n confirmed (req_notes req) in
  _ <- guard (negb (existsb (fun b => id b =? new_id) (appointments db)))
         (unique_violation "appointments_pkey") ;;
  _ <- guard (negb (existsb
                      (fun b => (patient_id b =? patientId req)
                                && (time_slot_id b =? slotId req))
                      (appointments db)))
         (unique_violation "unique_patient_slot") ;;
  _ <- guard (existsb (fun p => p =? patientId req) (patients db))
         (foreign_key_violation "patient_id") ;;
  _ <- guard (existsb (fun d => d =? doctorId req) (doctors db))
         (foreign_key_violation "doctor_id") ;;
  _ <- guard (existsb (fun s => TimeSlot.id s =? slotId req) (time_slots db))
         (foreign_key_violation "time_slot_id") ;;
  Ok (a, mk (doctors db) (patients db) (time_slots db) (appointments db ++ [a])).

(** [api/appointments/availability]: what a patient is offered. *)
Definition availability (doctor : uuid) (day : date) (db : database)
  : list TimeSlot.row :=
  order_by TimeSlot.slot_time
    (filter
       (fun s => (TimeSlot.doctor_id s =? doctor)
                 && (TimeSlot.slot_date s =? day)
                 && Bool.eqb (TimeSlot.is_available s) true
                 && Bool.eqb (TimeSlot.is_blocked s) false)
       (time_slots db)).

Section BookHandler.

(** [generateQueueNumber] and the procedure [unlock_time_slot] are
    called by the handler and defined nowhere in the plan. *)
Variable generateQueueNumber : database -> uuid -> date -> string.
Variable unlock_time_slot : uuid -> database -> database.

(** Where the handler stands between two requests to the database. *)
Inductive handler_state : Type :=
| h_received
| h_locked (slot : TimeSlot.row)
| h_numbered (slot : TimeSlot.row) (queueNumber : string)
| h_insert_failed
| h_inserted (a : appointment)
| h_responded (status_code : Z) (body : option appointment).

(** The next request of [handler] in [api/appointments/book]. *)
Definition handler_step (today : date) (new_id : uuid) (req : request)
  (st : handler_state) (db : database) : handler_state * database :=
  match st with
  | h_received =>
      match lock_time_slot today no_locks (slotId req) db with
      | Ok (Some slot, db') => (h_locked slot, db')
      | Ok (None, _) | Err _ => (h_responded 409 None, db)
      end
  | h_locked slot =>
      (h_numbered slot
         (generateQueueNumber db (doctorId req) (TimeSlot.slot_date slot)), db)
  | h_numbered slot queueNumber =>
      match insert_appointment new_id req queueNumber db with
      | Ok (a, db') => (h_inserted a, db')
      | Err _ => (h_insert_failed, db)
      end
  | h_insert_failed =>
      (h_responded 500 None, unlock_time_slot (slotId req) db)
  | h_inserted a => (h_responded 200 (Some a), db)
  | h_responded _ _ => (st, db)
  end.

End BookHandler.

(** Doctor 1 with one free slot, 501, today at 09:00. *)
Definition sample : database :=
  mk [1] [11; 12] [TimeSlot.mk 501 1 20000 32400 34200 true false 1 0] [].

End Plan.

(** A slot for a group session: [max_patients] is 2. *)
Definition group_db : database :=
  mk_database [Doctor.mk 1 1000] [11; 12]
    [TimeSlot.mk 301 1 20000 32400 36000 true false 2 0] [] [].

Definition group_db_booked : database :=
  snd (commit group_db
         (book_appointment sample_now 1001 no_locks group_db 11 1 301
            consultation None)).

(** Errors that come from a constraint or from INTEGER arithmetic, as
    opposed to the function's own RAISE EXCEPTION and the row lock. *)
Definition from_constraint (e : pg_error) : Prop :=
  match e with
  | raise_exception _ | lock_not_available => False
  | _ => True
  end.

(** What holds of a system whose calls are all for the slot [slot]:
    a call that passed its locking SELECT holds what the SELECT of a new
    call would read; two calls never hold the row together; and after a
    success the committed row is unavailable. *)
Definition lock_discipline (slot : uuid) (sys : system) : Prop :=
  (forall i c st, nth_error (sys_calls sys) i = Some (c, st) ->
                  call_slot_id c = slot) /\
  (forall i c found,
      nth_error (sys_calls sys) i = Some (c, call_locked found) ->
      find (fun s => TimeSlot.id s =? slot) (time_slots (sys_db sys)) = found) /\
  (forall i j c c' s s',
      nth_error (sys_calls sys) i = Some (c, call_locked (Some s)) ->
      nth_error (sys_calls sys) j = Some (c', call_locked (Some s')) ->
      i = j) /\
  one_winner (sys_returned sys) /\
  ((exists a, In (Ok a) (sys_returned sys)) ->
   exists s,
     find (fun s => TimeSlot.id s =? slot) (time_slots (sys_db sys)) = Some s /\
     TimeSlot.is_available s = false).

(** Patient 11 reserves slot 101 and does not show up; patient 12 then
    reserves the slot the trigger has freed. *)
Definition sample_db_reserved : database :=
  run_operation (op_reserve sample_now 1001 11 1 101 consultation None) sample_db.

Definition sample_db_no_show : database :=
  run_operation (op_update_status 20000 1001 no_show) sample_db_reserved.

Definition sample_db_rebooked : database :=
  run_operation (op_reserve (sample_now + 7200) 1002 12 1 101 consultation None)
    sample_db_no_show.

(** The appointment a call of [advance_queue] has selected, and the one
    it reports as called. *)
Definition selected (st : advance_state) : option uuid :=
  match st with
  | adv_selected v | adv_started v => Some (Appointment.id v)
  | _ => None
  end.

Definition called (st : advance_state) : option uuid :=
  match st with
  | adv_returned (Ok (Some q)) => QueueStatus.current_appointment_id q
  | _ => None
  end.

(** Two doctor-side "call next" requests, at 09:00:00 and 09:00:01. *)
Definition first_now : timestamptz := sample_now + 3600.
Definition second_now : timestamptz := sample_now + 3601.

(** One call after the other, and the two calls interleaved: both run
    their SELECT before either runs its UPDATE. *)
Definition serial_schedule : list turn :=
  [first_call; first_call; first_call; second_call; second_call; second_call].

Definition racing_schedule : list turn :=
  [first_call; second_call; first_call; first_call; second_call; second_call].

Definition show_queue (db : database)
  : list (uuid * appointment_status * option timestamptz) :=
  map (fun a => (Appointment.id a, Appointment.status a,
                 Appointment.actual_start_time a))
      (appointments db).

(** The row that patient 11's reservation of slot 101 stores. *)
Definition sample_appointment : Appointment.row :=
  Appointment.mk 1001 11 1 101 "A001" 1 20000 consultation confirmed
    (date_plus_time 20000 32400) None None sample_now.

(** An insert, a cancellation, and a release fired once more on the slot
    whose count is back to zero. *)
Definition sample_events : list (date * trigger_event) :=
  [(20000, TG_INSERT sample_appointment);
   (20000, TG_UPDATE sample_appointment
             (Appointment.set_status cancelled sample_appointment));
   (20000, TG_UPDATE sample_appointment
             (Appointment.set_status no_show sample_appointment))].

(** Patients 11, 12 and 13 all ask for slot 101. *)
Definition sample_calls : list reserve_call :=
  [mk_call sample_now 1001 11 1 101 consultation None;
   mk_call sample_now 1002 12 1 101 consultation None;
   mk_call sample_now 1003 13 1 101 consultation None].

(** Call 0 takes the lock; call 1 finds the row locked; call 0 commits;
    call 2 takes the lock and finds the slot gone. *)
Definition sample_schedule : list event :=
  [ev_select 0; ev_select 1; ev_complete 0; ev_select 2; ev_complete 2].

Definition outcome (r : result Appointment.row) : result string :=
  match r with
  | Ok a => Ok (Appointment.queue_number a)
  | Err e => Err e
  end.

(** One success, and 'Slot is not available' or lock-not-available for
    every other return. *)
Definition exactly_one_winner (returned : list (result Appointment.row)) : Prop :=
  exists later a earlier,
    returned = (later ++ Ok a :: earlier)%list /\
    Forall slot_taken later /\ Forall slot_taken earlier.

Definition is_returned (cs : reserve_call * call_state) : bool :=
  match snd cs with
  | call_returned _ => true
  | _ => false
  end.

Definition is_locked (cs : reserve_call * call_state) : bool :=
  match snd cs with
  | call_locked (Some _) => true
  | _ => false
  end.

(** Every call has returned. *)
Definition all_returned (sys : system) : Prop :=
  forallb is_returned (sys_calls sys) = true.

(** The call, run alone on [db], books its appointment. *)
Definition would_succeed (db : database) (c : reserve_call) : Prop :=
  exists a db',
    book_appointment (call_now c) (call_new_id c) no_locks db
      (call_patient_id c) (call_doctor_id c) (call_slot_id c)
      (call_type c) (call_notes c) = Ok (a, db').

(** The race before its first success: nothing is committed, a call has
    not started, holds the row, or was turned away by the lock, and if a
    call was turned away then another call holds the row. *)
Definition before_first_success (db0 : database) (sys : system) : Prop :=
  sys_db sys = db0 /\
  Forall (fun r => r = Err lock_not_available) (sys_returned sys) /\
  Forall (fun cs => snd cs = call_waiting \/
                    (exists v, snd cs = call_locked (Some v)) \/
                    snd cs = call_returned (Err lock_not_available))
    (sys_calls sys) /\
  (existsb is_returned (sys_calls sys) = true ->
   existsb is_locked (sys_calls sys) = true).

(* ------------------------------------------------------------------ *)
(** ** The queue handler of the execution plan                          *)
(* ------------------------------------------------------------------ *)

(** [api/queue/next] works on the plan's own tables.  [appointments]
    has no [queue_date] there: the day of an appointment is the
    [slot_date] of the time slot it references.  [queue_status] has one
    row per doctor ([doctor_id] is UNIQUE); of its columns only those the
    handler writes are kept.  Each [supabase] call of the handler is a
    request of its own, committed when it returns, and the handler reads
    no error of its two updates.  The plan's triggers on [appointments]
    write [updated_at] and the audit log, which nothing here reads.  The
    session time zone is UTC, and the policies of row-level security,
    which depend on the role of the client, are left out. *)
Module QueueNext.

Record appointment : Type := mk_appointment {
  id : uuid;
  patient_id : uuid;
  doctor_id : uuid;
  time_slot_id : uuid;
  queue_number : string;
  queue_sequence : Z;
  status : appointment_status;
  actual_start_time : option timestamptz;
  created_at : timestamptz
}.

Record queue_status_row : Type := mk_queue_status {
  qs_doctor_id : uuid;
  current_queue_number : option string;
  current_patient_id : option uuid;
  current_sequence : option Z;
  last_updated : option timestamptz
}.

Record database : Type := mk {
  time_slots : list TimeSlot.row;
  appointments : list appointment;
  queue_status : list queue_status_row
}.

(** What the handler answers: [res.json({ queueNumber, patient })], or
    [res.status(code).json({ error })]. *)
Inductive response : Type :=
| json_called (queueNumber : string) (patient : uuid)
| json_error (status_code : Z) (error : string).

(** [new Date().toISOString().split('T')[0]] read as a TIMESTAMPTZ:
    midnight of the day of the request. *)
Definition today_iso (now : timestamptz) : timestamptz :=
  date_plus_time (DATE now) 0.

(** The rows the first request of the handler chooses from:
    [.eq('doctor_id', doctorId).eq('status', 'arrived')
     .gte('created_at', today)]. *)
Definition created_today (now : timestamptz) (doctorId : uuid) (db : database)
  : list appointment :=
  filter
    (fun a => (doctor_id a =? doctorId)
              && status_eqb (status a) arrived
              && (today_iso now <=? created_at a))
    (appointments db).

(** [.order('queue_sequence').limit(1).single()]: the first row, or no
    data when there is none. *)
Definition select_next (now : timestamptz) (doctorId : uuid) (db : database)
  : option appointment :=
  hd_error (order_by queue_sequence (created_today now doctorId db)).

(** [supabase.from('queue_status').update({...}).eq('doctor_id', doctorId)]. *)
Definition update_queue_status (now : timestamptz) (doctorId : uuid)
  (nextAppointment : appointment) (db : database) : database :=
  mk (time_slots db) (appointments db)
    (map (fun q =>
            if qs_doctor_id q =? doctorId
            then mk_queue_status (qs_doctor_id q)
                   (Some (queue_number nextAppointment))
                   (Some (patient_id nextAppointment))
                   (Some (queue_sequence nextAppointment))
                   (Some now)
            else q)
       (queue_status db)).

(** [supabase.from('appointments').update({ status: 'in_consultation',
    actual_start_time }).eq('id', nextAppointment.id)]. *)
Definition update_appointment (now : timestamptz) (nextAppointment : appointment)
  (db : database) : database :=
  mk (time_slots db)
    (map (fun a =>
            if id a =? id nextAppointment
            then mk_appointment (id a) (patient_id a) (doctor_id a)
                   (time_slot_id a) (queue_number a) (queue_sequence a)
                   in_consultation (Some now) (created_at a)
            else a)
       (appointments db))
    (queue_status db).

(** [handler] of [api/queue/next]; [now1], [now2] and [now3] are the
    three readings of the clock ([new Date()]), and
    [sendQueueNotification] is taken to return. *)
Definition handler (now1 now2 now3 : timestamptz) (doctorId : uuid)
  (db : database) : response * database :=
  match select_next now1 doctorId db with
  | None => (json_error 404 "No patients in queue", db)
  | Some nextAppointment =>
      let db1 := update_queue_status now2 doctorId nextAppointment db in
      let db2 := update_appointment now3 nextAppointment db1 in
      (json_called (queue_number nextAppointment) (patient_id nextAppointment),
       db2)
  end.

(** The day of an appointment: the date of its slot. *)
Definition slot_date_of (db : database) (a : appointment) : option date :=
  option_map TimeSlot.slot_date
    (find (fun s => TimeSlot.id s =? time_slot_id a) (time_slots db)).

(** The doctor's appointments in status arrived for the day [today]. *)
Definition arrived_today (today : date) (doctorId : uuid) (db : database)
  : list appointment :=
  filter
    (fun a => (doctor_id a =? doctorId)
              && status_eqb (status a) arrived
              && match slot_date_of db a with
                 | Some d => d =? today
                 | None => false
                 end)
    (appointments db).

(** Doctor 1 on day 20000: patient 11 booked slot 501 (today, 09:00) the
    day before at 10:00 and has checked in. *)
Definition sample : database :=
  mk [TimeSlot.mk 501 1 20000 32400 34200 false false 1 0]
     [mk_appointment 1001 11 1 501 "A001" 1 arrived None (19999 * 86400 + 36000)]
     [mk_queue_status 1 None None (Some 0) None].

(** The same day with a second patient, 12, who booked slot 502 this
    morning at 08:00 and has checked in as well. *)
Definition sample_walk_in : database :=
  mk [TimeSlot.mk 501 1 20000 32400 34200 false false 1 0;
      TimeSlot.mk 502 1 20000 34200 36000 false false 1 0]
     [mk_appointment 1001 11 1 501 "A001" 1 arrived None (19999 * 86400 + 36000);
      mk_appointment 1002 12 1 502 "A002" 2 arrived None (20000 * 86400 + 28800)]
     [mk_queue_status 1 None None (Some 0) None].

End QueueNext.

(** The clinic of the database functions in the same situation: patient
    11 reserved slot 101 of day 20000 the day before, and has checked in
    on the day. *)
Definition sample_db_booked_yesterday : database :=
  fold_left (fun db op => run_operation op db)
    [op_reserve (sample_now - 86400) 1001 11 1 101 consultation None;
     op_update_status 20000 1001 arrived]
    sample_db.


(* ------------------------------------------------------------------ *)
(** ** Rows before and after a statement, column by column              *)
(* ------------------------------------------------------------------ *)


(** [a'] is the appointment [a] in consultation since [now], every other
    column as it was. *)
Definition consultation_started (now : timestamptz) (a a' : Appointment.row)
  : Prop :=
  Appointment.status a' = in_consultation /\
  Appointment.actual_start_time a' = Some now /\
  Appointment.id a' = Appointment.id a /\
  Appointment.patient_id a' = Appointment.patient_id a /\
  Appointment.doctor_id a' = Appointment.doctor_id a /\
  Appointment.time_slot_id a' = Appointment.time_slot_id a /\
  Appointment.queue_number a' = Appointment.queue_number a /\
  Appointment.queue_sequence a' = Appointment.queue_sequence a /\
  Appointment.queue_date a' = Appointment.queue_date a /\
  Appointment.appointment_type_ a' = Appointment.appointment_type_ a /\
  Appointment.scheduled_time a' = Appointment.scheduled_time a /\
  Appointment.booking_notes a' = Appointment.booking_notes a /\
  Appointment.created_at a' = Appointment.created_at a.


(** [q'] is the queue status [q] pointing at the appointment [v], called
    at [now]; the counters of the day are as they were. *)
Definition points_at (now : timestamptz) (v : Appointment.row)
  (q q' : QueueStatus.row) : Prop :=
  QueueStatus.current_queue_number q' = Some (Appointment.queue_number v) /\
  QueueStatus.current_queue_sequence q' = Appointment.queue_sequence v /\
  QueueStatus.current_patient_id q' = Some (Appointment.patient_id v) /\
  QueueStatus.current_appointment_id q' = Some (Appointment.id v) /\
  QueueStatus.last_called_at q' = Some now /\
  QueueStatus.last_updated_at q' = now /\
  QueueStatus.id q' = QueueStatus.id q /\
  QueueStatus.doctor_id q' = QueueStatus.doctor_id q /\
  QueueStatus.queue_date q' = QueueStatus.queue_date q /\
  QueueStatus.total_queued_today q' = QueueStatus.total_queued_today q /\
  QueueStatus.total_seen_today q' = QueueStatus.total_seen_today q /\
  QueueStatus.total_no_shows_today q' = QueueStatus.total_no_shows_today q.

(** The same for the rows of the plan's tables. *)
Definition plan_consultation_started (now : timestamptz)
  (a a' : QueueNext.appointment) : Prop :=
  QueueNext.status a' = in_consultation /\
  QueueNext.actual_start_time a' = Some now /\
  QueueNext.id a' = QueueNext.id a /\
  QueueNext.patient_id a' = QueueNext.patient_id a /\
  QueueNext.doctor_id a' = QueueNext.doctor_id a /\
  QueueNext.time_slot_id a' = QueueNext.time_slot_id a /\
  QueueNext.queue_number a' = QueueNext.queue_number a /\
  QueueNext.queue_sequence a' = QueueNext.queue_sequence a /\
  QueueNext.created_at a' = QueueNext.created_at a.

Definition plan_points_at (now : timestamptz) (v : QueueNext.appointment)
  (q q' : QueueNext.queue_status_row) : Prop :=
  QueueNext.current_queue_number q' = Some (QueueNext.queue_number v) /\
  QueueNext.current_patient_id q' = Some (QueueNext.patient_id v) /\
  QueueNext.current_sequence q' = Some (QueueNext.queue_sequence v) /\
  QueueNext.last_updated q' = Some now /\
  QueueNext.qs_doctor_id q' = QueueNext.qs_doctor_id q.
From Stdlib Require Import QArith Qround.
Close Scope Q_scope.
Open Scope Z_scope.


(* ------------------------------------------------------------------ *)
(** ** NRIC functions                                                   *)
(* ------------------------------------------------------------------ *)

(** [SUBSTRING(s, from, count)], positions counted from 1. *)
Definition SUBSTRING (s : string) (from count : nat) : string :=
  substring (from - 1) count s.

Definition is_upper (c : ascii) : bool :=
  let n := nat_of_ascii c in Nat.leb 65 n && Nat.leb n 90.

Definition is_lower (c : ascii) : bool :=
  let n := nat_of_ascii c in Nat.leb 97 n && Nat.leb n 122.

Definition is_STFG (c : ascii) : bool :=
  Ascii.eqb c "S" || Ascii.eqb c "T" || Ascii.eqb c "F" || Ascii.eqb c "G".

(** [s ~ '^[STFG]\d{7}[A-Z]$']. *)
Definition matches_nric_pattern (s : string) : bool :=
  match list_ascii_of_string s with
  | [c0; d1; d2; d3; d4; d5; d6; d7; c8] =>
      is_STFG c0 && forallb is_digit [d1; d2; d3; d4; d5; d6; d7] && is_upper c8
  | _ => false
  end.

Definition v_weights : list Z := [2; 7; 6; 5; 4; 3; 2].
Definition v_letters_st : string := "ABCDEFGHIZJ".
Definition v_letters_fg : string := "KLMNPQRTUWX".

(** [x IN (...)] on text. *)
Definition text_in (x : string) (l : list string) : bool :=
  existsb (String.eqb x) l.

(** The loop [FOR i IN 1..7] of [validate_nric]; the cast to INTEGER is of
    one character that the pattern has shown to be a digit. *)
Definition nric_weighted_sum (p_nric : string) : Z :=
  fold_left
    (fun v_sum i =>
       v_sum + digits_value (SUBSTRING p_nric (i + 1) 1) 0 * nth (i - 1) v_weights 0)
    (seq 1 7) 0.

(** [validate_nric(p_nric)]. *)
Definition validate_nric (p_nric : string) : bool :=
  if negb (matches_nric_pattern p_nric) then false
  else
    let v_sum := nric_weighted_sum p_nric in
    let v_offset := if text_in (SUBSTRING p_nric 1 1) ["T"; "G"] then 4 else 0 in
    let v_sum := v_sum + v_offset in
    let v_checksum_pos := Z.to_nat (Z.rem v_sum 11 + 1) in
    let v_expected_checksum :=
      if text_in (SUBSTRING p_nric 1 1) ["S"; "T"]
      then SUBSTRING v_letters_st v_checksum_pos 1
      else SUBSTRING v_letters_fg v_checksum_pos 1 in
    String.eqb (SUBSTRING p_nric 9 1) v_expected_checksum.

(** [mask_nric(p_nric)]. *)
Definition mask_nric (p_nric : string) : string :=
  if negb (Nat.eqb (String.length p_nric) 9) then "****"
  else String.append (SUBSTRING p_nric 1 1)
         (String.append "****" (SUBSTRING p_nric 6 4)).

(** [c.toUpperCase()] on one ASCII character. *)
Definition toUpperCase (c : ascii) : ascii :=
  if is_lower c then ascii_of_nat (nat_of_ascii c - 32) else c.

(** [/^[STFG]\d{7}[A-Z]$/i.test(s)]. *)
Definition test_nric_pattern (s : string) : bool :=
  match list_ascii_of_string s with
  | [c0; d1; d2; d3; d4; d5; d6; d7; c8] =>
      is_STFG (toUpperCase c0)
      && forallb is_digit [d1; d2; d3; d4; d5; d6; d7]
      && (is_upper c8 || is_lower c8)
  | _ => false
  end.

(** [s.slice(from, to)] for indices within the string, as a list of
    characters ([.split('')]). *)
Definition slice_chars (s : string) (from to : nat) : list ascii :=
  list_ascii_of_string (substring from (to - from) s).

(** [Number(c)] of a one-digit string. *)
Definition Number (c : ascii) : Z := Z.of_nat (nat_of_ascii c) - 48.

(** The refinement of [nricSchema] in [lib/validators.ts]. *)
Definition nricSchema (nric : string) : bool :=
  if negb (test_nric_pattern nric) then false
  else
    let weights := [2; 7; 6; 5; 4; 3; 2] in
    let firstChar := option_map toUpperCase (String.get 0 nric) in
    let digits := map Number (slice_chars nric 1 8) in
    let sum :=
      fold_left (fun sum i => sum + nth i digits 0 * nth i weights 0) (seq 0 7) 0 in
    let sum :=
      if match firstChar with
         | Some c => Ascii.eqb c "T" || Ascii.eqb c "G"
         | None => false
         end
      then sum + 4 else sum in
    let checkLetters := "ABCDEFGHIZJ" in
    let checksum := String.get (Z.to_nat (Z.rem sum 11)) checkLetters in
    match option_map toUpperCase (String.get 8 nric), checksum with
    | Some c, Some k => Ascii.eqb c k
    | _, _ => false
    end.

(** [maskNRIC] of [lib/security.ts]. *)
Definition maskNRIC (nric : string) : string :=
  if Nat.ltb (String.length nric) 9 then "****"
  else
    match String.get 0 nric with
    | Some c =>
        String c (String.append "XXX"
                    (substring (String.length nric - 4) 4 nric))
    | None => "****"
    end.

(** An NRIC written out: prefix letter, seven digits, check letter. *)
Definition nric_string (c0 : ascii) (ds : list ascii) (c8 : ascii) : string :=
  String c0 (string_of_list_ascii (ds ++ [c8])).

(** The weighted sum of seven digit characters. *)
Fixpoint weighted (ds : list ascii) (ws : list Z) : Z :=
  match ds, ws with
  | d :: ds', w :: ws' => Number d * w + weighted ds' ws'
  | _, _ => 0
  end.

Definition nric_offset (c0 : ascii) : Z :=
  if Ascii.eqb c0 "T" || Ascii.eqb c0 "G" then 4 else 0.

(** The check letter [validate_nric] expects after a prefix letter and
    seven digits. *)
Definition nric_check_letter (c0 : ascii) (ds : list ascii) : string :=
  SUBSTRING
    (if Ascii.eqb c0 "S" || Ascii.eqb c0 "T" then v_letters_st else v_letters_fg)
    (Z.to_nat (Z.rem (weighted ds v_weights + nric_offset c0) 11 + 1)) 1.

(** [s.toUpperCase()] on an ASCII string. *)
Definition string_toUpperCase (s : string) : string :=
  string_of_list_ascii (map toUpperCase (list_ascii_of_string s)).

(** The digits one to seven, as they stand in "S1234567H". *)
Definition sample_digits : list ascii :=
  ["1"; "2"; "3"; "4"; "5"; "6"; "7"]%char.

(* ------------------------------------------------------------------ *)
(** ** CHAS subsidy                                                     *)
(* ------------------------------------------------------------------ *)

Module Chas.

(** The enum [chas_tier]. *)
Inductive chas_tier : Type :=
| blue | orange | green | pioneer | merdeka | pg_merdeka | chas_card | none.

(** The CASE of [calculate_chas_subsidy]: a DECIMAL per tier. *)
Definition subsidy_percentage (p_chas_tier : chas_tier) : Q :=
  match p_chas_tier with
  | blue => 0.75
  | orange => 0.50
  | green => 0.25
  | pioneer => 0.80
  | merdeka => 0.60
  | _ => 0
  end%Q.

(** [calculate_chas_subsidy(p_chas_tier, p_total_amount_cents)]: the
    product is NUMERIC, its FLOOR is assigned to an INTEGER variable. *)
Definition calculate_chas_subsidy (p_chas_tier : chas_tier)
  (p_total_amount_cents : Z) : result Z :=
  let v_subsidy_percentage := subsidy_percentage p_chas_tier in
  v_subsidy_cents <-
    int4 (Qfloor (inject_Z p_total_amount_cents * v_subsidy_percentage)%Q) ;;
  let v_subsidy_cents :=
    if v_subsidy_cents >? 5000 then 5000 else v_subsidy_cents in
  Ok v_subsidy_cents.

(** CHECK [valid_amounts] of [chas_claims]. *)
Definition valid_amounts (total_fee_cents subsidy_amount_cents
  patient_payable_cents : Z) : bool :=
  (subsidy_amount_cents >=? 0) && (patient_payable_cents >=? 0)
  && (total_fee_cents =? patient_payable_cents + subsidy_amount_cents).

(** The tier's percentage in hundredths. *)
Definition hundredths (p_chas_tier : chas_tier) : Z :=
  match p_chas_tier with
  | blue => 75
  | orange => 50
  | green => 25
  | pioneer => 80
  | merdeka => 60
  | _ => 0
  end.

End Chas.

(* ------------------------------------------------------------------ *)
(** ** One-time passwords                                               *)
(* ------------------------------------------------------------------ *)

Module Otp.

(** What [send-otp] stores under a phone number. *)
Record entry : Type := mk_entry {
  code : string;
  expires : Z;
  attempts : Z
}.

(** [global.otpCache], an object used as a map from phone numbers to
    entries; a key that was never written reads [undefined], as does
    every key before the first [send-otp] has created the object. *)
Definition otpCache : Type := string -> option entry.

Definition no_cache : otpCache := fun _ => None.

(** [cache[phone] = e]. *)
Definition store (phone : string) (e : entry) (cache : otpCache) : otpCache :=
  fun p => if String.eqb p phone then Some e else cache p.

Inductive response : Type :=
| json_success
| json_token (phone : string)
| json_error (status : Z) (error : string).

(** [handler] of [api/auth/send-otp]; [otp] is what [generateSecureCode(6)]
    returned and [now] is [Date.now()], in milliseconds.  The entry is
    stored before the SMS goes out; [sendSMS] is taken to return. *)
Definition send_otp (now : Z) (otp : string) (phone : string)
  (cache : otpCache) : response * otpCache :=
  (json_success, store phone (mk_entry otp (now + 5 * 60 * 1000) 0) cache).

(** [handler] of [api/auth/verify-otp]; [cached.attempts++] writes to the
    object the cache holds. *)
Definition verify_otp (now : Z) (phone otp : string) (cache : otpCache)
  : response * otpCache :=
  match cache phone with
  | None => (json_error 401 "OTP expired", cache)
  | Some cached =>
      if now >? expires cached then (json_error 401 "OTP expired", cache)
      else if attempts cached >=? 3
      then (json_error 429 "Too many attempts", cache)
      else if negb (String.eqb (code cached) otp)
      then (json_error 401 "Invalid OTP",
            store phone (mk_entry (code cached) (expires cached)
                           (attempts cached + 1)) cache)
      else (json_token phone, cache)
  end.

(** A request to [verify-otp]: the clock, the phone and the code sent. *)
Record attempt : Type := mk_attempt {
  at_time : Z;
  for_phone : string;
  with_otp : string
}.

(** Requests served one after the other. *)
Fixpoint verify_all (requests : list attempt) (cache : otpCache)
  : list (attempt * response) * otpCache :=
  match requests with
  | [] => ([], cache)
  | r :: requests' =>
      let (res, cache') := verify_otp (at_time r) (for_phone r) (with_otp r) cache in
      let (rest, cache'') := verify_all requests' cache' in
      ((r, res) :: rest, cache'')
  end.

Definition is_invalid_otp (phone : string) (rr : attempt * response) : bool :=
  String.eqb (for_phone (fst rr)) phone
  && match snd rr with
     | json_error 401 "Invalid OTP" => true
     | _ => false
     end.

Definition is_token (phone : string) (rr : attempt * response) : bool :=
  String.eqb (for_phone (fst rr)) phone
  && match snd rr with
     | json_token _ => true
     | _ => false
     end.

End Otp.

(* ------------------------------------------------------------------ *)
(** ** Queue labels                                                     *)
(* ------------------------------------------------------------------ *)

(** The three digits of a number between 100 and 999. *)
Definition three_digits (m : Z) : string :=
  String (digit_char (m / 100))
    (String (digit_char (m / 10 mod 10))
       (String (digit_char (m mod 10)) EmptyString)).

(** Does the sequence read back from a label equal [m]? *)
Definition reads_back (label : string) (m : Z) : bool :=
  match queue_sequence_of (Some label) with
  | Ok (Some z) => z =? m
  | _ => false
  end.

(** The sample clinic on a day on which doctor 1 has already given out
    the number 999. *)
Definition sample_db_busy : database :=
  with_appointments
    [Appointment.mk 900 13 1 102 "A999" 999 20000 consultation completed
       (date_plus_time 20000 34200) None None sample_now]
    sample_db.

(** The sample clinic after patient 11 has reserved slot 101 and then
    cancelled. *)
Definition sample_db_cancelled : database :=
  run_operation (op_update_status 20000 1001 cancelled) sample_db_reserved.

(* ------------------------------------------------------------------ *)
(** ** The booking handler run to its response                          *)
(* ------------------------------------------------------------------ *)

Section BookHandlerRun.

Variable generateQueueNumber : Plan.database -> uuid -> date -> string.
Variable unlock_time_slot : uuid -> Plan.database -> Plan.database.

(** [n] requests of the handler in a row, no other client in between. *)
Fixpoint handler_steps (n : nat) (today : date) (new_id : uuid)
  (req : Plan.request) (st : Plan.handler_state) (db : Plan.database)
  : Plan.handler_state * Plan.database :=
  match n with
  | O => (st, db)
  | S n' =>
      let (st', db') :=
        Plan.handler_step generateQueueNumber unlock_time_slot today new_id req
          st db in
      handler_steps n' today new_id req st' db'
  end.

(** The handler of [api/appointments/book] from the request to the
    response: the lock, the queue number, the insert, and the unlock when
    the insert failed. *)
Definition book_handler (today : date) (new_id : uuid) (req : Plan.request)
  (db : Plan.database) : Plan.handler_state * Plan.database :=
  handler_steps 4 today new_id req Plan.h_received db.

End BookHandlerRun.

(** [label.includes('-')]. *)
Definition has_dash (label : string) : bool :=
  existsb (Ascii.eqb "-") (list_ascii_of_string label).
(* ------------------------------------------------------------------ *)
(** ** Reasoning about results                                          *)
(* ------------------------------------------------------------------ *)

Lemma bind_Ok {A B : Type} (r : result A) (k : A -> result B) (b : B) :
  bind r k = Ok b -> exists a, r = Ok a /\ k a = Ok b.
Proof.
  destruct r as [a | e]; simpl; intros H.
  - exists a. split; [reflexivity | exact H].
  - discriminate H.
Qed.

Lemma guard_Ok (b : bool) (e : pg_error) (u : unit) :
  guard b e = Ok u -> b = true.
Proof. destruct b; simpl; [reflexivity | discriminate]. Qed.

Lemma int4_Ok (z v : Z) : int4 z = Ok v -> v = z /\ int4_min <= z <= int4_max.
Proof.
  unfold int4. destruct (int4_min <=? z) eqn:Hlo; simpl; [| discriminate].
  destruct (z <=? int4_max) eqn:Hhi; [| discriminate].
  intros H. inversion H. lia.
Qed.

Lemma int4_in_range (z : Z) : int4_min <= z <= int4_max -> int4 z = Ok z.
Proof.
  intros [Hlo Hhi]. unfold int4.
  apply Z.leb_le in Hlo. apply Z.leb_le in Hhi. rewrite Hlo, Hhi. reflexivity.
Qed.

(** Takes a hypothesis [bind ... = Ok _] apart, one statement at a time. *)
Tactic Notation "inv_bind" hyp(H) "as" ident(x) ident(Hx) :=
  apply bind_Ok in H; destruct H as [x [Hx H]].

Lemma not_null_Ok {A : Type} (column : string) (x : option A) (v : A) :
  not_null column x = Ok v -> x = Some v.
Proof. destruct x; simpl; intros H; inversion H; reflexivity. Qed.

(* ------------------------------------------------------------------ *)
(** ** The prefix of a queue number                                     *)
(* ------------------------------------------------------------------ *)

Lemma queue_prefix_cases (db : database) (p_doctor_id : uuid) :
  queue_prefix db p_doctor_id =
  match filter (fun d => Doctor.id d =? p_doctor_id) (doctors db) with
  | [] => None
  | _ :: _ => Some "A"
  end.
Proof.
  unfold queue_prefix, ROW_NUMBER.
  destruct (filter _ (doctors db)) as [| d l] eqn:Hf.
  - reflexivity.
  - assert (Hne : order_by Doctor.created_at (d :: l) <> []).
    { simpl. generalize (order_by Doctor.created_at l). intros l0.
      destruct l0 as [| y l0]; simpl; [discriminate |].
      destruct (Doctor.created_at d <=? Doctor.created_at y); discriminate. }
    destruct (order_by Doctor.created_at (d :: l)) as [| y l0]; [congruence |].
    reflexivity.
Qed.

(** Whatever the doctor, the prefix is the letter A. *)
Lemma queue_prefix_A (db : database) (p_doctor_id : uuid) (prefix : string) :
  queue_prefix db p_doctor_id = Some prefix -> prefix = "A".
Proof.
  rewrite queue_prefix_cases.
  destruct (filter _ (doctors db)); intros H; inversion H; reflexivity.
Qed.

Lemma queue_prefix_known_doctor (db : database) (d : Doctor.row) :
  In d (doctors db) -> queue_prefix db (Doctor.id d) = Some "A".
Proof.
  intros Hin. rewrite queue_prefix_cases.
  destruct (filter _ (doctors db)) as [| x l] eqn:Hf; [| reflexivity].
  assert (Hd : In d (filter (fun d0 => Doctor.id d0 =? Doctor.id d) (doctors db))).
  { apply filter_In. split; [exact Hin | apply Z.eqb_refl]. }
  rewrite Hf in Hd. destruct Hd.
Qed.

(** The label [generate_queue_number] builds: the letter A and the
    sequence left-padded (or cut) to three characters. *)
Lemma generate_queue_number_format (db : database) (p_doctor_id : uuid)
  (p_date : date) (q : string) :
  generate_queue_number db p_doctor_id p_date = Ok (Some q) ->
  exists v_sequence,
    next_queue_sequence db p_doctor_id p_date = Ok v_sequence /\
    q = String.append "A" (LPAD (int4_to_text v_sequence) 3 "0"%char).
Proof.
  unfold generate_queue_number. intros H. inv_bind H as v Hv.
  exists v. split; [exact Hv |].
  destruct (queue_prefix db p_doctor_id) as [prefix |] eqn:Hp; [| discriminate].
  apply queue_prefix_A in Hp. subst prefix. inversion H. reflexivity.
Qed.

Example queue_number_A007 :
  String.append "A" (LPAD (int4_to_text 7) 3 "0"%char) = "A007".
Proof. reflexivity. Qed.

(** C8.  The claim promises a letter per doctor.  In the sample clinic
    doctor 1 was created first and doctor 2 second; a reservation with
    doctor 2 is numbered "A001", the very label doctor 1 gets: the window
    function numbers the rows left by [WHERE id = p_doctor_id], so the row
    number is 1 and the prefix A for every doctor. *)
Theorem queue_prefix_same_for_every_doctor :
  generate_queue_number sample_db 1 20000 = Ok (Some "A001") /\
  generate_queue_number sample_db 2 20000 = Ok (Some "A001") /\
  (exists a db',
      book_appointment sample_now 1001 no_locks sample_db 11 2 201
        consultation None = Ok (a, db') /\
      Appointment.doctor_id a = 2 /\
      Appointment.queue_number a = "A001" /\
      Appointment.queue_sequence a = 1) /\
  (forall db d, queue_prefix db d = None \/ queue_prefix db d = Some "A").
Proof.
  split; [reflexivity |]. split; [reflexivity |]. split.
  - eexists. eexists. split; [vm_compute; reflexivity |].
    repeat split; reflexivity.
  - intros db d. rewrite queue_prefix_cases.
    destruct (filter _ (doctors db)); [left | right]; reflexivity.
Qed.

(** C2.  The claim has every new sequence equal to the doctor's maximum
    for the day plus one.  [generate_queue_number] takes the maximum over
    the appointments CREATED on [p_date], while its callers pass the day
    of the queue.  With one reservation made today for tomorrow
    (sequence 1, queue of day 20001): a reservation for today gets
    sequence 2 and "A002" although no appointment is in today's queue, and
    a second reservation for tomorrow computes sequence 1 and "A001" again
    and is rejected by [unique_queue_number]. *)
Theorem queue_sequence_counts_creation_day :
  map (fun a => (Appointment.queue_date a, Appointment.queue_sequence a,
                 DATE (Appointment.created_at a)))
      (appointments sample_db_booked_ahead) = [(20001, 1, 20000)] /\
  (exists a db',
      book_appointment sample_now 1002 no_locks sample_db_booked_ahead
        12 1 101 consultation None = Ok (a, db') /\
      Appointment.queue_date a = 20000 /\
      Appointment.queue_sequence a = 2 /\
      Appointment.queue_number a = "A002") /\
  generate_queue_number sample_db_booked_ahead 1 20001 = Ok (Some "A001") /\
  book_appointment sample_now 1002 no_locks sample_db_booked_ahead
    12 1 104 consultation None = Err (unique_violation "unique_queue_number").
Proof.
  split; [reflexivity |]. split.
  - eexists. eexists. split; [vm_compute; reflexivity |].
    repeat split; reflexivity.
  - split; reflexivity.
Qed.

(* ------------------------------------------------------------------ *)
(** ** UPDATE time_slots                                                *)
(* ------------------------------------------------------------------ *)

Lemma update_time_slots_Forall2 (today : date) (where_ : TimeSlot.row -> bool)
  (set : TimeSlot.row -> result TimeSlot.row) (rows rows' : list TimeSlot.row) :
  update_time_slots today where_ set rows = Ok rows' ->
  Forall2
    (fun s s' =>
       if where_ s
       then set s = Ok s' /\ time_slots_checks today s' = Ok tt
       else s' = s)
    rows rows'.
Proof.
  revert rows'. induction rows as [| s rows IH]; simpl; intros rows' H.
  - inversion H. constructor.
  - inv_bind H as s' Hs. inv_bind H as rest Hrest.
    inversion H; subst rows'. constructor.
    + destruct (where_ s).
      * inv_bind Hs as n Hn. inv_bind Hs as u Hu. inversion Hs; subst s'.
        destruct u. split; assumption.
      * inversion Hs. reflexivity.
    + apply IH. exact Hrest.
Qed.

Lemma update_time_slots_Forall (today : date) (where_ : TimeSlot.row -> bool)
  (set : TimeSlot.row -> result TimeSlot.row) (P : TimeSlot.row -> Prop)
  (rows rows' : list TimeSlot.row) :
  (forall s n, where_ s = true -> P s -> set s = Ok n ->
               time_slots_checks today n = Ok tt -> P n) ->
  Forall P rows ->
  update_time_slots today where_ set rows = Ok rows' ->
  Forall P rows'.
Proof.
  intros Hstep HP H. apply update_time_slots_Forall2 in H.
  induction H as [| s s' rows rows' Hs _ IH]; [constructor |].
  inversion HP as [| ? ? HPs HProws]; subst. constructor.
  - destruct (where_ s) eqn:Hw.
    + destruct Hs as [Hset Hchk]. exact (Hstep s s' Hw HPs Hset Hchk).
    + subst s'. exact HPs.
  - apply IH. exact HProws.
Qed.

Lemma time_slots_checks_Ok (today : date) (s : TimeSlot.row) :
  time_slots_checks today s = Ok tt ->
  today <= TimeSlot.slot_date s /\
  TimeSlot.booked_count s <= TimeSlot.max_patients s.
Proof.
  unfold time_slots_checks. intros H. inv_bind H as u Hu.
  apply guard_Ok in Hu. apply guard_Ok in H.
  apply Z.leb_le in Hu. apply Z.leb_le in H. split; assumption.
Qed.

(** One firing of the trigger keeps every slot within its capacity. *)
Lemma update_slot_availability_within_capacity (today : date)
  (ev : trigger_event) (db db' : database) :
  slots_within_capacity db ->
  update_slot_availability today ev db = Ok db' ->
  slots_within_capacity db'.
Proof.
  unfold slots_within_capacity. intros Hdb H.
  destruct ev as [NEW | OLD NEW]; simpl in H.
  - inv_bind H as ts Hts. inversion H; subst db'; simpl.
    eapply update_time_slots_Forall; [| exact Hdb | exact Hts].
    intros s n _ [Hlo _] Hset Hchk. simpl in Hset. inv_bind Hset as c Hc.
    apply int4_Ok in Hc. destruct Hc as [-> _].
    inversion Hset; subst n. apply time_slots_checks_Ok in Hchk.
    unfold slot_within_capacity in *. simpl in *. lia.
  - destruct (negb (in_cancelled_no_show (Appointment.status OLD))
              && in_cancelled_no_show (Appointment.status NEW)).
    + inv_bind H as ts Hts. inversion H; subst db'; simpl.
      eapply update_time_slots_Forall; [| exact Hdb | exact Hts].
      intros s n _ _ Hset Hchk. simpl in Hset. inv_bind Hset as c Hc.
      inversion Hset; subst n. apply time_slots_checks_Ok in Hchk.
      unfold slot_within_capacity in *. simpl in *. lia.
    + inversion H; subst db'. exact Hdb.
Qed.

(** C10.  Through every sequence of appointment inserts and status
    updates processed by the slot-availability trigger, every slot's
    [booked_count] stays between 0 and [max_patients]: a release takes
    [GREATEST(booked_count - 1, 0)], and an insert that would overshoot is
    rejected by the check constraint [valid_capacity]. *)
Theorem booked_count_within_bounds
  (events : list (date * trigger_event)) (db : database) :
  slots_within_capacity db ->
  slots_within_capacity (after_triggers events db).
Proof.
  revert db. induction events as [| [today ev] events IH]; simpl; intros db Hdb.
  - exact Hdb.
  - apply IH. unfold after_trigger.
    destruct (update_slot_availability today ev db) as [db' |] eqn:H.
    + exact (update_slot_availability_within_capacity today ev db db' Hdb H).
    + exact Hdb.
Qed.


Lemma update_time_slots_ids (today : date) (where_ : TimeSlot.row -> bool)
  (set : TimeSlot.row -> result TimeSlot.row) (rows rows' : list TimeSlot.row) :
  (forall s n, set s = Ok n -> TimeSlot.id n = TimeSlot.id s) ->
  update_time_slots today where_ set rows = Ok rows' ->
  map TimeSlot.id rows' = map TimeSlot.id rows.
Proof.
  intros Hid H. apply update_time_slots_Forall2 in H.
  induction H as [| s s' rows rows' Hs _ IH]; [reflexivity |].
  simpl. rewrite IH. f_equal.
  destruct (where_ s).
  - destruct Hs as [Hset _]. exact (Hid s s' Hset).
  - subst s'. reflexivity.
Qed.

(* ------------------------------------------------------------------ *)
(** ** What a successful reservation has done                           *)
(* ------------------------------------------------------------------ *)

(** The UPDATE the trigger runs for an inserted row. *)
Lemma update_slot_availability_insert (today : date) (NEW : Appointment.row)
  (db db' : database) :
  update_slot_availability today (TG_INSERT NEW) db = Ok db' ->
  doctors db' = doctors db /\ patients db' = patients db /\
  appointments db' = appointments db /\ queue_status db' = queue_status db /\
  Forall2
    (fun s s' =>
       if TimeSlot.id s =? Appointment.time_slot_id NEW
       then s' = TimeSlot.set_availability false (TimeSlot.booked_count s + 1) s
            /\ today <= TimeSlot.slot_date s
            /\ TimeSlot.booked_count s + 1 <= TimeSlot.max_patients s
       else s' = s)
    (time_slots db) (time_slots db').
Proof.
  simpl. intros H. inv_bind H as ts Hts. inversion H; subst db'; simpl.
  repeat (split; [reflexivity |]).
  apply update_time_slots_Forall2 in Hts. clear H.
  induction Hts as [| s s' rows rows' Hs _ IH];
    [constructor | constructor; [| exact IH]].
  destruct (TimeSlot.id s =? Appointment.time_slot_id NEW); [| exact Hs].
  destruct Hs as [Hset Hchk]. inv_bind Hset as c Hc.
  apply int4_Ok in Hc. destruct Hc as [-> _]. inversion Hset; subst s'.
  apply time_slots_checks_Ok in Hchk. simpl in Hchk. tauto.
Qed.

(** A successful [book_appointment], statement by statement. *)
Lemma book_appointment_locked_Ok (now : timestamptz) (new_id : uuid)
  (db : database) (found : option TimeSlot.row)
  (p_patient_id p_doctor_id p_slot_id : uuid)
  (p_appointment_type : appointment_type) (p_notes : option string)
  (a : Appointment.row) (db' : database) :
  book_appointment_locked now new_id db found p_patient_id p_doctor_id
    p_slot_id p_appointment_type p_notes = Ok (a, db') ->
  exists v_slot q n,
    found = Some v_slot /\
    TimeSlot.is_available v_slot = true /\
    TimeSlot.is_blocked v_slot = false /\
    generate_queue_number db p_doctor_id (TimeSlot.slot_date v_slot) = Ok (Some q) /\
    queue_sequence_of (Some q) = Ok (Some n) /\
    a = Appointment.mk new_id p_patient_id p_doctor_id p_slot_id q n
          (TimeSlot.slot_date v_slot) p_appointment_type confirmed
          (date_plus_time (TimeSlot.slot_date v_slot) (TimeSlot.slot_time v_slot))
          p_notes None now /\
    appointments_constraints db a = Ok tt /\
    update_slot_availability (DATE now) (TG_INSERT a)
      (with_appointments (appointments db ++ [a]) db) = Ok db'.
Proof.
  unfold book_appointment_locked. intros H.
  destruct found as [v_slot |]; [| discriminate].
  destruct (TimeSlot.is_available v_slot) eqn:Hav; simpl in H; [| discriminate].
  destruct (TimeSlot.is_blocked v_slot) eqn:Hbl; [discriminate |].
  inv_bind H as v_queue_number Hgen. inv_bind H as v_queue_sequence Hseq.
  unfold insert_appointment in H.
  inv_bind H as NEW Htrig. inv_bind H as q Hq. inv_bind H as n Hn.
  inv_bind H as u Hcons. inv_bind H as db1 Hfire. inversion H; subst a db1.
  destruct u.
  assert (HNEW : NEW = NewAppointment.mk new_id p_patient_id p_doctor_id
                         p_slot_id (Some q) v_queue_sequence
                         (TimeSlot.slot_date v_slot) p_appointment_type confirmed
                         (date_plus_time (TimeSlot.slot_date v_slot)
                            (TimeSlot.slot_time v_slot)) p_notes
                 /\ v_queue_number = Some q).
  { unfold generate_queue_number_trigger in Htrig. simpl in Htrig.
    destruct v_queue_number as [q0 |].
    - inversion Htrig; subst NEW. simpl in Hq. inversion Hq; subst q0.
      split; reflexivity.
    - simpl in Hseq. inversion Hseq; subst v_queue_sequence.
      inv_bind Htrig as q1 Hq1. inversion Htrig; subst NEW. simpl in Hn.
      discriminate Hn. }
  destruct HNEW as [-> ->]. simpl in *.
  apply not_null_Ok in Hn. subst v_queue_sequence.
  exists v_slot, q, n. repeat split; try assumption; reflexivity.
Qed.

Lemma select_slot_for_update_nowait_Ok (locked : uuid -> bool) (db : database)
  (p_slot_id : uuid) (found : option TimeSlot.row) :
  select_slot_for_update_nowait locked db p_slot_id = Ok found ->
  find (fun s => TimeSlot.id s =? p_slot_id) (time_slots db) = found /\
  (forall s, found = Some s -> locked (TimeSlot.id s) = false).
Proof.
  unfold select_slot_for_update_nowait.
  destruct (find _ (time_slots db)) as [s |].
  - destruct (locked (TimeSlot.id s)) eqn:Hl; intros H; inversion H.
    split; [reflexivity |]. intros s0 Hs0. inversion Hs0; subst s0. exact Hl.
  - intros H. inversion H. split; [reflexivity | discriminate].
Qed.

Lemma find_slot_In (rows : list TimeSlot.row) (slot : uuid) (s : TimeSlot.row) :
  find (fun s0 => TimeSlot.id s0 =? slot) rows = Some s ->
  In s rows /\ TimeSlot.id s = slot.
Proof.
  intros H. apply find_some in H. destruct H as [Hin Heq].
  apply Z.eqb_eq in Heq. split; assumption.
Qed.

Lemma Forall2_In_left {A B : Type} (R : A -> B -> Prop) (l : list A)
  (l' : list B) (x : A) :
  Forall2 R l l' -> In x l -> exists y, In y l' /\ R x y.
Proof.
  induction 1 as [| a b l l' Hab _ IH]; intros Hin; [destruct Hin |].
  destruct Hin as [-> | Hin].
  - exists b. split; [left; reflexivity | exact Hab].
  - destruct (IH Hin) as [y [Hy HR]]. exists y. split; [right |]; assumption.
Qed.

Lemma Forall2_In_right {A B : Type} (R : A -> B -> Prop) (l : list A)
  (l' : list B) (y : B) :
  Forall2 R l l' -> In y l' -> exists x, In x l /\ R x y.
Proof.
  induction 1 as [| a b l l' Hab _ IH]; intros Hin; [destruct Hin |].
  destruct Hin as [<- | Hin].
  - exists a. split; [left; reflexivity | exact Hab].
  - destruct (IH Hin) as [x [Hx HR]]. exists x. split; [right |]; assumption.
Qed.

(* ------------------------------------------------------------------ *)
(** ** Reservation and the slot counters                                *)
(* ------------------------------------------------------------------ *)

Lemma book_appointment_Ok (now : timestamptz) (new_id : uuid)
  (locked : uuid -> bool) (db : database)
  (p_patient_id p_doctor_id p_slot_id : uuid)
  (p_appointment_type : appointment_type) (p_notes : option string)
  (a : Appointment.row) (db' : database) :
  book_appointment now new_id locked db p_patient_id p_doctor_id p_slot_id
    p_appointment_type p_notes = Ok (a, db') ->
  exists v_slot,
    find (fun s => TimeSlot.id s =? p_slot_id) (time_slots db) = Some v_slot /\
    locked (TimeSlot.id v_slot) = false /\
    book_appointment_locked now new_id db (Some v_slot) p_patient_id
      p_doctor_id p_slot_id p_appointment_type p_notes = Ok (a, db').
Proof.
  unfold book_appointment. intros H. inv_bind H as found Hsel.
  apply select_slot_for_update_nowait_Ok in Hsel. destruct Hsel as [Hfind Hlock].
  destruct (book_appointment_locked_Ok _ _ _ _ _ _ _ _ _ _ _ H)
    as [v_slot [q [n [Hfound _]]]].
  rewrite Hfound in Hfind, H. exists v_slot.
  split; [exact Hfind |]. split; [apply Hlock; exact Hfound | exact H].
Qed.

(** What a successful reservation does to [time_slots]. *)
Lemma book_appointment_slot_effect (now : timestamptz) (new_id : uuid)
  (locked : uuid -> bool) (db : database)
  (p_patient_id p_doctor_id p_slot_id : uuid)
  (p_appointment_type : appointment_type) (p_notes : option string)
  (a : Appointment.row) (db' : database) :
  book_appointment now new_id locked db p_patient_id p_doctor_id p_slot_id
    p_appointment_type p_notes = Ok (a, db') ->
  Forall2
    (fun s s' =>
       if TimeSlot.id s =? p_slot_id
       then s' = TimeSlot.set_availability false (TimeSlot.booked_count s + 1) s
            /\ TimeSlot.is_available s' = false
            /\ TimeSlot.booked_count s' = TimeSlot.booked_count s + 1
            /\ TimeSlot.booked_count s < TimeSlot.max_patients s
            /\ TimeSlot.booked_count s' <= TimeSlot.max_patients s'
       else s' = s)
    (time_slots db) (time_slots db') /\
  exists s, In s (time_slots db) /\ TimeSlot.id s = p_slot_id.
Proof.
  intros H. apply book_appointment_Ok in H.
  destruct H as [v_slot [Hfind [_ H]]].
  apply book_appointment_locked_Ok in H.
  destruct H as [v [q [n [Hv [_ [_ [_ [_ [Ha [_ Hfire]]]]]]]]]].
  apply update_slot_availability_insert in Hfire.
  destruct Hfire as [_ [_ [_ [_ HF]]]]. simpl in HF.
  split.
  - subst a. simpl in HF. clear - HF.
    induction HF as [| s s' rows rows' Hs _ IH];
      [constructor | constructor; [| exact IH]].
    destruct (TimeSlot.id s =? p_slot_id); [| exact Hs].
    destruct Hs as [-> [_ Hcap]]. simpl. repeat split; lia.
  - exists v_slot. apply find_slot_In. exact Hfind.
Qed.

(** A slot at capacity rejects every reservation. *)
Lemma full_slot_rejects_reservation (now : timestamptz) (new_id : uuid)
  (locked : uuid -> bool) (db : database)
  (p_patient_id p_doctor_id p_slot_id : uuid)
  (p_appointment_type : appointment_type) (p_notes : option string)
  (s : TimeSlot.row) :
  In s (time_slots db) -> TimeSlot.id s = p_slot_id ->
  TimeSlot.max_patients s <= TimeSlot.booked_count s ->
  exists e,
    book_appointment now new_id locked db p_patient_id p_doctor_id p_slot_id
      p_appointment_type p_notes = Err e.
Proof.
  intros Hin Hid Hfull.
  destruct (book_appointment now new_id locked db p_patient_id p_doctor_id
              p_slot_id p_appointment_type p_notes) as [[a db'] | e] eqn:H.
  - exfalso. apply book_appointment_slot_effect in H. destruct H as [HF _].
    destruct (Forall2_In_left _ _ _ _ HF Hin) as [s' [_ Hs]].
    rewrite <- Hid, Z.eqb_refl in Hs. lia.
  - exists e. reflexivity.
Qed.

(** C9, as the code has it.  A successful reservation adds one to
    [booked_count] of the slot and sets [is_available] to false, whatever
    the capacity; it succeeds only on a slot whose count is below
    [max_patients], so that the count never exceeds the capacity; and a
    slot whose count has reached its capacity takes no reservation. *)
Theorem reserve_counts_and_closes_slot (now : timestamptz) (new_id : uuid)
  (locked : uuid -> bool) (db : database)
  (p_patient_id p_doctor_id p_slot_id : uuid)
  (p_appointment_type : appointment_type) (p_notes : option string)
  (a : Appointment.row) (db' : database) :
  book_appointment now new_id locked db p_patient_id p_doctor_id p_slot_id
    p_appointment_type p_notes = Ok (a, db') ->
  Forall2
    (fun s s' =>
       if TimeSlot.id s =? p_slot_id
       then s' = TimeSlot.set_availability false (TimeSlot.booked_count s + 1) s
            /\ TimeSlot.is_available s' = false
            /\ TimeSlot.booked_count s' = TimeSlot.booked_count s + 1
            /\ TimeSlot.booked_count s < TimeSlot.max_patients s
            /\ TimeSlot.booked_count s' <= TimeSlot.max_patients s'
       else s' = s)
    (time_slots db) (time_slots db') /\
  (exists s, In s (time_slots db) /\ TimeSlot.id s = p_slot_id) /\
  (forall now' new_id' locked' p' d' t' notes',
      exists e,
        book_appointment now' new_id' locked' db' p' d' p_slot_id t' notes' = Err e).
Proof.
  intros H.
  destruct (book_appointment_slot_effect _ _ _ _ _ _ _ _ _ _ _ H) as [HF Hex].
  split; [exact HF |]. split; [exact Hex |].
  intros now' new_id' locked' p' d' t' notes'.
  destruct (book_appointment now' new_id' locked' db' p' d' p_slot_id t' notes')
    as [[b db''] | e] eqn:Hb; [| exists e; reflexivity].
  exfalso. apply book_appointment_Ok in Hb. destruct Hb as [v [Hfind [_ Hb]]].
  apply book_appointment_locked_Ok in Hb.
  destruct Hb as [v0 [q [n [Hv0 [Hav _]]]]]. injection Hv0 as <-.
  apply find_slot_In in Hfind. destruct Hfind as [Hin Hid].
  destruct (Forall2_In_right _ _ _ _ HF Hin) as [s [_ Hrel]].
  destruct (TimeSlot.id s =? p_slot_id) eqn:E.
  - destruct Hrel as [_ [Hclosed _]]. congruence.
  - subst v. apply Z.eqb_neq in E. contradiction.
Qed.

(** C9, as the claim has it, fails: the group slot 301 has room for two;
    after the first reservation it is closed with [booked_count] 1, and
    the second patient is turned away. *)
Lemma slot_closed_below_capacity :
  map (fun s => (TimeSlot.is_available s, TimeSlot.booked_count s,
                 TimeSlot.max_patients s))
      (time_slots group_db_booked) = [(false, 1, 2)] /\
  map Appointment.time_slot_id (appointments group_db_booked) = [301] /\
  book_appointment sample_now 1002 no_locks group_db_booked 12 1 301
    consultation None = Err slot_not_available.
Proof. repeat split; reflexivity. Qed.

(* ------------------------------------------------------------------ *)
(** ** Status updates                                                   *)
(* ------------------------------------------------------------------ *)

Lemma filter_key_NoDup {A : Type} (key : A -> Z) (l : list A) (a : A) :
  NoDup (map key l) -> In a l ->
  filter (fun b => key b =? key a) l = [a].
Proof.
  induction l as [| x l IH]; simpl; intros Hnd Hin; [destruct Hin |].
  inversion Hnd as [| ? ? Hnotin Hnd']; subst.
  destruct Hin as [-> | Hin].
  - rewrite Z.eqb_refl. f_equal.
    clear IH Hnd Hnd'. induction l as [| y l IHl]; [reflexivity |].
    simpl. destruct (key y =? key a) eqn:Hy.
    + exfalso. apply Hnotin. apply Z.eqb_eq in Hy. left. exact Hy.
    + apply IHl. intros Hc. apply Hnotin. right. exact Hc.
  - destruct (key x =? key a) eqn:Hx.
    + exfalso. apply Hnotin. apply Z.eqb_eq in Hx. rewrite Hx.
      apply in_map. exact Hin.
    + apply IH; assumption.
Qed.




Lemma update_appointments_one_row (today : date) (db : database)
  (a : Appointment.row) (f : Appointment.row -> Appointment.row) :
  NoDup (map Appointment.id (appointments db)) ->
  In a (appointments db) ->
  update_appointments today (fun b => Appointment.id b =? Appointment.id a) f db
  = update_slot_availability today (TG_UPDATE a (f a))
      (with_appointments
         (map (fun b => if Appointment.id b =? Appointment.id a then f b else b)
            (appointments db))
         db).
Proof.
  intros Hnd Hin. unfold update_appointments.
  rewrite (filter_key_NoDup Appointment.id _ a Hnd Hin). simpl.
  match goal with |- bind ?r _ = _ => destruct r; reflexivity end.
Qed.


Lemma Forall2_map_self {A : Type} (R : A -> A -> Prop) (f : A -> A) (l : list A) :
  (forall x, In x l -> R x (f x)) -> Forall2 R l (map f l).
Proof.
  induction l as [| x l IH]; intros H; [constructor |].
  cbn [map]. constructor.
  - apply H. left. reflexivity.
  - apply IH. intros y Hy. apply H. right. exact Hy.
Qed.






(* ------------------------------------------------------------------ *)
(** ** The errors of book_appointment                                   *)
(* ------------------------------------------------------------------ *)

Lemma bind_Err {A B : Type} (r : result A) (k : A -> result B) (e : pg_error) :
  bind r k = Err e -> r = Err e \/ exists a, r = Ok a /\ k a = Err e.
Proof.
  destruct r as [a | e0]; simpl; intros H.
  - right. exists a. split; [reflexivity | exact H].
  - left. inversion H. reflexivity.
Qed.

Lemma guard_Err (b : bool) (e0 e : pg_error) : guard b e0 = Err e -> e = e0.
Proof. destruct b; simpl; intros H; inversion H; reflexivity. Qed.

Lemma int4_Err (z : Z) (e : pg_error) : int4 z = Err e -> from_constraint e.
Proof.
  unfold int4. destruct ((int4_min <=? z) && (z <=? int4_max)); intros H;
    inversion H; exact I.
Qed.

Lemma not_null_Err {A : Type} (column : string) (x : option A) (e : pg_error) :
  not_null column x = Err e -> from_constraint e.
Proof. destruct x; simpl; intros H; inversion H; exact I. Qed.

(** Splits a hypothesis [bind ... = Err e] into the statement that
    raised and the ones that ran before it. *)
Tactic Notation "inv_err" hyp(H) "as" ident(x) ident(Hx) :=
  apply bind_Err in H; destruct H as [H | [x [Hx H]]].

Lemma generate_queue_number_Err (db : database) (d : uuid) (day : date)
  (e : pg_error) :
  generate_queue_number db d day = Err e -> from_constraint e.
Proof.
  unfold generate_queue_number. intros H. inv_err H as v Hv.
  - exact (int4_Err _ _ H).
  - discriminate H.
Qed.

Lemma queue_sequence_of_Err (q : option string) (e : pg_error) :
  queue_sequence_of q = Err e -> from_constraint e.
Proof.
  unfold queue_sequence_of. destruct q as [q |]; [| discriminate].
  destruct (substring_trailing_digits q) as [t |]; [| discriminate].
  intros H. inv_err H as z Hz.
  - exact (int4_Err _ _ H).
  - discriminate H.
Qed.

Lemma update_time_slots_Err (today : date) (where_ : TimeSlot.row -> bool)
  (set : TimeSlot.row -> result TimeSlot.row) (rows : list TimeSlot.row)
  (e : pg_error) :
  (forall s e0, set s = Err e0 -> from_constraint e0) ->
  update_time_slots today where_ set rows = Err e -> from_constraint e.
Proof.
  intros Hset. induction rows as [| s rows IH]; simpl; intros H; [discriminate |].
  inv_err H as s' Hs.
  - destruct (where_ s); [| discriminate].
    inv_err H as n Hn; [exact (Hset s e H) |].
    inv_err H as u Hu; [| discriminate].
    unfold time_slots_checks in H. inv_err H as u1 Hu1.
    + apply guard_Err in H. subst e. exact I.
    + apply guard_Err in H. subst e. exact I.
  - inv_err H as rest Hrest; [exact (IH H) | discriminate].
Qed.

Lemma update_slot_availability_Err (today : date) (ev : trigger_event)
  (db : database) (e : pg_error) :
  update_slot_availability today ev db = Err e -> from_constraint e.
Proof.
  destruct ev as [NEW | OLD NEW]; simpl; intros H.
  - inv_err H as ts Hts; [| discriminate].
    apply update_time_slots_Err in H; [exact H |].
    intros s e0 H0. inv_err H0 as c Hc; [exact (int4_Err _ _ H0) | discriminate].
  - destruct (negb (in_cancelled_no_show (Appointment.status OLD))
              && in_cancelled_no_show (Appointment.status NEW)); [| discriminate].
    inv_err H as ts Hts; [| discriminate].
    apply update_time_slots_Err in H; [exact H |].
    intros s e0 H0. inv_err H0 as c Hc; [exact (int4_Err _ _ H0) | discriminate].
Qed.

Lemma appointments_constraints_Err (db : database) (a : Appointment.row)
  (e : pg_error) :
  appointments_constraints db a = Err e -> from_constraint e.
Proof.
  unfold appointments_constraints. intros H.
  repeat (let u := fresh "u" in let Hu := fresh "Hu" in
          inv_err H as u Hu; [apply guard_Err in H; subst e; exact I |]).
  apply guard_Err in H. subst e. exact I.
Qed.

Lemma insert_appointment_Err (now : timestamptz) (db : database)
  (NEW : NewAppointment.values) (e : pg_error) :
  insert_appointment now db NEW = Err e -> from_constraint e.
Proof.
  unfold insert_appointment. intros H.
  inv_err H as NEW1 H1.
  { unfold generate_queue_number_trigger in H.
    destruct (NewAppointment.queue_number NEW); [discriminate |].
    inv_err H as q Hq; [exact (generate_queue_number_Err _ _ _ _ H) | discriminate]. }
  inv_err H as q Hq; [exact (not_null_Err _ _ _ H) |].
  inv_err H as n Hn; [exact (not_null_Err _ _ _ H) |].
  inv_err H as u Hu; [exact (appointments_constraints_Err _ _ _ H) |].
  inv_err H as db1 Hdb1; [exact (update_slot_availability_Err _ _ _ _ H) |].
  discriminate H.
Qed.

(** Past the availability test, [book_appointment] fails only on a
    constraint. *)
Lemma book_appointment_locked_Err (now : timestamptz) (new_id : uuid)
  (db : database) (v_slot : TimeSlot.row)
  (p_patient_id p_doctor_id p_slot_id : uuid)
  (p_appointment_type : appointment_type) (p_notes : option string)
  (e : pg_error) :
  TimeSlot.is_available v_slot = true -> TimeSlot.is_blocked v_slot = false ->
  book_appointment_locked now new_id db (Some v_slot) p_patient_id p_doctor_id
    p_slot_id p_appointment_type p_notes = Err e ->
  from_constraint e.
Proof.
  unfold book_appointment_locked. intros Hav Hbl H. rewrite Hav, Hbl in H.
  simpl in H.
  inv_err H as q Hq; [exact (generate_queue_number_Err _ _ _ _ H) |].
  inv_err H as n Hn; [exact (queue_sequence_of_Err _ _ H) |].
  exact (insert_appointment_Err _ _ _ _ H).
Qed.

Lemma book_appointment_locked_unavailable (now : timestamptz) (new_id : uuid)
  (db : database) (v_slot : TimeSlot.row)
  (p_patient_id p_doctor_id p_slot_id : uuid)
  (p_appointment_type : appointment_type) (p_notes : option string) :
  TimeSlot.is_available v_slot = false \/ TimeSlot.is_blocked v_slot = true ->
  book_appointment_locked now new_id db (Some v_slot) p_patient_id p_doctor_id
    p_slot_id p_appointment_type p_notes = Err slot_not_available.
Proof.
  unfold book_appointment_locked. intros [H | H]; rewrite H; simpl.
  - reflexivity.
  - rewrite orb_true_r. reflexivity.
Qed.

(** C6, as the code has it.  [book_appointment] raises the one exception
    'Slot is not available' exactly when the slot does not exist, is not
    available, or is blocked; a row locked by another transaction gives
    lock-not-available; and a reservation that succeeds is for a slot
    that exists and is not dated before today, booked for the doctor the
    caller named, whichever doctor owns the slot. *)
Theorem reserve_raises_one_exception (now : timestamptz) (new_id : uuid)
  (locked : uuid -> bool) (db : database)
  (p_patient_id p_doctor_id p_slot_id : uuid)
  (p_appointment_type : appointment_type) (p_notes : option string) :
  let found := find (fun s => TimeSlot.id s =? p_slot_id) (time_slots db) in
  let outcome := book_appointment now new_id locked db p_patient_id p_doctor_id
                   p_slot_id p_appointment_type p_notes in
  (outcome = Err slot_not_available <->
     found = None \/
     exists s, found = Some s /\ locked (TimeSlot.id s) = false /\
               (TimeSlot.is_available s = false \/ TimeSlot.is_blocked s = true)) /\
  (outcome = Err lock_not_available <->
     exists s, found = Some s /\ locked (TimeSlot.id s) = true) /\
  (forall a db', outcome = Ok (a, db') ->
     exists s, found = Some s /\ DATE now <= TimeSlot.slot_date s /\
               Appointment.doctor_id a = p_doctor_id /\
               Appointment.time_slot_id a = p_slot_id).
Proof.
  intros found outcome. subst found outcome.
  unfold book_appointment, select_slot_for_update_nowait.
  destruct (find (fun s => TimeSlot.id s =? p_slot_id) (time_slots db))
    as [s |] eqn:Hfind.
  2:{ simpl. split; [| split].
      - split; [intros _; left; reflexivity | reflexivity].
      - split; [discriminate | intros [s [Hs _]]; discriminate].
      - intros a db' H. discriminate H. }
  destruct (locked (TimeSlot.id s)) eqn:Hlock.
  { simpl. split; [| split].
    - split; [discriminate |].
      intros [H | [s0 [Hs0 [Hl _]]]]; [discriminate |].
      inversion Hs0; subst s0. congruence.
    - split; [intros _; exists s; split; [reflexivity | exact Hlock] | reflexivity].
    - intros a db' H. discriminate H. }
  cbn [bind].
  destruct (TimeSlot.is_available s) eqn:Hav.
  - destruct (TimeSlot.is_blocked s) eqn:Hbl.
    + rewrite book_appointment_locked_unavailable by (right; exact Hbl).
      split; [| split].
      * split; [| reflexivity]. intros _. right. exists s.
        split; [reflexivity |]. split; [exact Hlock |]. right. exact Hbl.
      * split; [discriminate |]. intros [s0 [Hs0 Hl]].
        inversion Hs0; subst s0. congruence.
      * intros a db' H. discriminate H.
    + split; [| split].
      * split.
        -- intros H. apply book_appointment_locked_Err in H; [destruct H | |];
             assumption.
        -- intros [H | [s0 [Hs0 [_ [H | H]]]]]; [discriminate | |];
             inversion Hs0; subst s0; congruence.
      * split.
        -- intros H. apply book_appointment_locked_Err in H; [destruct H | |];
             assumption.
        -- intros [s0 [Hs0 Hl]]. inversion Hs0; subst s0. congruence.
      * intros a db' H. exists s. split; [reflexivity |].
        apply book_appointment_locked_Ok in H.
        destruct H as [v [q [n [Hv [_ [_ [_ [_ [Ha [_ Hfire]]]]]]]]]].
        inversion Hv; subst v.
        apply update_slot_availability_insert in Hfire.
        destruct Hfire as [_ [_ [_ [_ HF]]]]. simpl in HF.
        apply find_slot_In in Hfind. destruct Hfind as [Hin Hid].
        destruct (Forall2_In_left _ _ _ _ HF Hin) as [s' [_ Hs']].
        subst a. simpl in Hs'. rewrite Hid, Z.eqb_refl in Hs'.
        simpl. repeat split; tauto.
  - rewrite book_appointment_locked_unavailable by (left; exact Hav).
    split; [| split].
    + split; [| reflexivity]. intros _. right. exists s.
      split; [reflexivity |]. split; [exact Hlock |]. left. exact Hav.
    + split; [discriminate |]. intros [s0 [Hs0 Hl]].
      inversion Hs0; subst s0. congruence.
    + intros a db' H. discriminate H.
Qed.

(** C6, as the claim has it, fails: slot 201 belongs to doctor 2, and a
    reservation that names doctor 1 is accepted on it; a slot that does
    not exist (999) and a slot that is taken raise one and the same
    exception. *)
Lemma reserve_accepts_slot_of_other_doctor :
  map TimeSlot.doctor_id
    (filter (fun s => TimeSlot.id s =? 201) (time_slots sample_db)) = [2] /\
  (exists a db',
      book_appointment sample_now 1001 no_locks sample_db 11 1 201
        consultation None = Ok (a, db') /\
      Appointment.doctor_id a = 1 /\ Appointment.time_slot_id a = 201) /\
  book_appointment sample_now 1001 no_locks sample_db 11 1 999
    consultation None = Err slot_not_available /\
  book_appointment sample_now 1002 no_locks sample_db_booked_ahead 12 1 103
    consultation None = Err slot_not_available.
Proof.
  split; [reflexivity |]. split.
  - eexists. eexists. split; [vm_compute; reflexivity |].
    split; reflexivity.
  - split; reflexivity.
Qed.

(* ------------------------------------------------------------------ *)
(** ** advance_queue                                                    *)
(* ------------------------------------------------------------------ *)

Lemma insert_by_hd {A : Type} (key : A -> Z) (x : A) (l : list A) :
  hd_error (insert_by key x l) =
  Some (match hd_error l with
        | None => x
        | Some y => if key x <=? key y then x else y
        end).
Proof.
  destruct l as [| y l]; simpl; [reflexivity |].
  destruct (key x <=? key y); reflexivity.
Qed.

(** [ORDER BY key LIMIT 1] returns a row of least key. *)
Lemma order_by_hd {A : Type} (key : A -> Z) (l : list A) :
  l <> [] ->
  exists v, hd_error (order_by key l) = Some v /\ In v l /\
            forall b, In b l -> key v <= key b.
Proof.
  induction l as [| x l IH]; intros Hne; [congruence |].
  simpl. rewrite insert_by_hd.
  destruct l as [| y l].
  - simpl. exists x. split; [reflexivity |]. split; [left; reflexivity |].
    intros b [<- | []]. lia.
  - destruct IH as [v [Hv [Hin Hmin]]]; [discriminate |].
    rewrite Hv. destruct (key x <=? key v) eqn:Hle.
    + apply Z.leb_le in Hle. exists x. split; [reflexivity |].
      split; [left; reflexivity |].
      intros b [<- | Hb]; [lia |]. specialize (Hmin b Hb). lia.
    + apply Z.leb_gt in Hle. exists v. split; [reflexivity |].
      split; [right; exact Hin |].
      intros b [<- | Hb]; [lia |]. exact (Hmin b Hb).
Qed.

Lemma order_by_nil {A : Type} (key : A -> Z) : order_by key (@nil A) = [].
Proof. reflexivity. Qed.

(** Row triggers whose NEW status is neither cancelled nor no_show
    leave the database alone. *)
Lemma fire_triggers_not_released (today : date) (f : Appointment.row -> Appointment.row)
  (rows : list Appointment.row) (db : database) :
  (forall a, in_cancelled_no_show (Appointment.status (f a)) = false) ->
  fire_triggers today (map (fun a => TG_UPDATE a (f a)) rows) db = Ok db.
Proof.
  intros Hf. induction rows as [| a rows IH]; simpl; [reflexivity |].
  rewrite Hf, andb_false_r. simpl. exact IH.
Qed.

Lemma start_consultation_Ok (now : timestamptz) (v : Appointment.row)
  (db : database) :
  start_consultation now v db =
  Ok (with_appointments
        (map (fun a => if Appointment.id a =? Appointment.id v
                       then Appointment.set_actual_start_time (Some now)
                              (Appointment.set_status in_consultation a)
                       else a)
           (appointments db))
        db).
Proof.
  unfold start_consultation, update_appointments.
  apply fire_triggers_not_released. intros a. reflexivity.
Qed.

(** What [advance_queue] does: with a patient waiting (an appointment of
    the doctor, in today's queue, in status arrived) it takes a waiting
    appointment of least [queue_sequence], starts it, and points the
    doctor's queue status at it; with nobody waiting it returns NULL and
    writes nothing. *)
Lemma advance_queue_lowest_arrived (now : timestamptz) (db : database)
  (p_doctor_id : uuid) :
  (waiting (DATE now) db p_doctor_id <> [] ->
   exists v q db',
     advance_queue now db p_doctor_id = Ok (q, db') /\
     In v (waiting (DATE now) db p_doctor_id) /\
     (forall b, In b (waiting (DATE now) db p_doctor_id) ->
                Appointment.queue_sequence v <= Appointment.queue_sequence b) /\
     appointments db' =
       map (fun a => if Appointment.id a =? Appointment.id v
                     then Appointment.set_actual_start_time (Some now)
                            (Appointment.set_status in_consultation a)
                     else a)
         (appointments db) /\
     In (Appointment.set_actual_start_time (Some now)
           (Appointment.set_status in_consultation v))
        (appointments db') /\
     time_slots db' = time_slots db /\
     queue_status db' =
       map (fun r => if QueueStatus.doctor_id r =? p_doctor_id
                     then call_patient now v r else r)
         (queue_status db) /\
     q = hd_error
           (map (call_patient now v)
              (filter (fun r => QueueStatus.doctor_id r =? p_doctor_id)
                 (queue_status db)))) /\
  (waiting (DATE now) db p_doctor_id = [] ->
   advance_queue now db p_doctor_id = Ok (None, db)).
Proof.
  split.
  - intros Hne.
    destruct (order_by_hd Appointment.queue_sequence _ Hne) as [v [Hv [Hin Hmin]]].
    unfold advance_queue, select_next_appointment.
    fold (waiting (DATE now) db p_doctor_id). rewrite Hv.
    rewrite start_consultation_Ok. cbn [bind].
    eexists v, _, _. split; [reflexivity |].
    split; [exact Hin |]. split; [exact Hmin |].
    split; [reflexivity |]. split.
    { simpl. apply in_map_iff. exists v. rewrite Z.eqb_refl.
      split; [reflexivity |]. unfold waiting in Hin.
      apply filter_In in Hin. exact (proj1 Hin). }
    repeat split; reflexivity.
  - intros Hnil. unfold advance_queue, select_next_appointment.
    fold (waiting (DATE now) db p_doctor_id). rewrite Hnil. reflexivity.
Qed.

(** The rows the first request of [api/queue/next] returns. *)
Lemma queue_next_select (now : timestamptz) (doctorId : uuid)
  (db : QueueNext.database) :
  match QueueNext.select_next now doctorId db with
  | Some v =>
      In v (QueueNext.created_today now doctorId db) /\
      forall b, In b (QueueNext.created_today now doctorId db) ->
                QueueNext.queue_sequence v <= QueueNext.queue_sequence b
  | None => QueueNext.created_today now doctorId db = []
  end.
Proof.
  unfold QueueNext.select_next.
  destruct (QueueNext.created_today now doctorId db) as [| x l] eqn:Hw;
    [reflexivity |].
  destruct (order_by_hd QueueNext.queue_sequence (x :: l)) as [v [Hv Hmin]];
    [discriminate |].
  rewrite Hv. exact Hmin.
Qed.

(** C5.  The claim is about two pieces of code.  The database function
    [advance_queue] does what the claim says: with an appointment of the
    doctor in status arrived in today's queue ([queue_date] is today) it
    takes one of least [queue_sequence], sets it to in_consultation with
    its start time, leaves every other appointment and every slot alone
    and points the doctor's queue status at it; with none it returns NULL
    without raising and the database is what it was.

    The handler of [api/queue/next] chooses among the doctor's arrived
    appointments that were created today, not among those that are for
    today.  Of these it calls one of least [queue_sequence]; with none it
    answers 404 with the error 'No patients in queue' and writes nothing.
    So a patient who booked yesterday for today and has checked in is
    never called: alone in the queue the handler answers that nobody is
    waiting, and with a second patient who booked this morning the
    handler calls "A002" while "A001" waits.  On the same clinic
    [advance_queue] calls patient 11. *)
Theorem advance_calls_lowest_arrived_handler_skips_earlier_bookings :
  (forall now db p_doctor_id,
      waiting (DATE now) db p_doctor_id <> [] ->
      exists v q db',
        advance_queue now db p_doctor_id = Ok (q, db') /\
        In v (waiting (DATE now) db p_doctor_id) /\
        (forall b, In b (waiting (DATE now) db p_doctor_id) ->
                   Appointment.queue_sequence v <= Appointment.queue_sequence b) /\
        Forall2
          (fun a a' => if Appointment.id a =? Appointment.id v
                       then consultation_started now a a' else a' = a)
          (appointments db) (appointments db') /\
        (exists v', In v' (appointments db') /\ consultation_started now v v') /\
        time_slots db' = time_slots db /\
        doctors db' = doctors db /\ patients db' = patients db /\
        Forall2
          (fun r r' => if QueueStatus.doctor_id r =? p_doctor_id
                       then points_at now v r r' else r' = r)
          (queue_status db) (queue_status db') /\
        q = hd_error
              (filter (fun r => QueueStatus.doctor_id r =? p_doctor_id)
                 (queue_status db'))) /\
  (forall now db p_doctor_id,
      waiting (DATE now) db p_doctor_id = [] ->
      advance_queue now db p_doctor_id = Ok (None, db)) /\
  (forall now1 now2 now3 doctorId db,
      QueueNext.created_today now1 doctorId db <> [] ->
      exists v db',
        QueueNext.handler now1 now2 now3 doctorId db
        = (QueueNext.json_called (QueueNext.queue_number v) (QueueNext.patient_id v),
           db') /\
        In v (QueueNext.created_today now1 doctorId db) /\
        (forall b, In b (QueueNext.created_today now1 doctorId db) ->
                   QueueNext.queue_sequence v <= QueueNext.queue_sequence b) /\
        Forall2
          (fun a a' => if QueueNext.id a =? QueueNext.id v
                       then plan_consultation_started now3 a a' else a' = a)
          (QueueNext.appointments db) (QueueNext.appointments db') /\
        QueueNext.time_slots db' = QueueNext.time_slots db /\
        Forall2
          (fun r r' => if QueueNext.qs_doctor_id r =? doctorId
                       then plan_points_at now2 v r r' else r' = r)
          (QueueNext.queue_status db) (QueueNext.queue_status db')) /\
  (forall now1 now2 now3 doctorId db,
      QueueNext.created_today now1 doctorId db = [] ->
      QueueNext.handler now1 now2 now3 doctorId db
      = (QueueNext.json_error 404 "No patients in queue", db)) /\
  (map QueueNext.id (QueueNext.arrived_today 20000 1 QueueNext.sample) = [1001] /\
   QueueNext.handler first_now first_now first_now 1 QueueNext.sample
   = (QueueNext.json_error 404 "No patients in queue", QueueNext.sample)) /\
  (map (fun a => (QueueNext.id a, QueueNext.queue_sequence a))
     (QueueNext.arrived_today 20000 1 QueueNext.sample_walk_in)
   = [(1001, 1); (1002, 2)] /\
   fst (QueueNext.handler first_now first_now first_now 1 QueueNext.sample_walk_in)
   = QueueNext.json_called "A002" 12 /\
   map (fun a => (QueueNext.id a, QueueNext.status a))
     (QueueNext.appointments
        (snd (QueueNext.handler first_now first_now first_now 1
                QueueNext.sample_walk_in)))
   = [(1001, arrived); (1002, in_consultation)]) /\
  (show_queue sample_db_booked_yesterday = [(1001, arrived, None)] /\
   map (fun a => DATE (Appointment.created_at a))
     (appointments sample_db_booked_yesterday) = [19999] /\
   exists q db',
     advance_queue first_now sample_db_booked_yesterday 1 = Ok (Some q, db') /\
     QueueStatus.current_appointment_id q = Some 1001 /\
     show_queue db' = [(1001, in_consultation, Some first_now)]).
Proof.
  split; [| split; [| split; [| split; [| split; [| split]]]]].
  - intros now db d Hne.
    destruct (proj1 (advance_queue_lowest_arrived now db d) Hne)
      as [v [q [db' [Hadv [Hin [Hmin [Happ [_ [Hts [Hqs Hq]]]]]]]]]].
    exists v, q, db'.
    assert (Hdb : doctors db' = doctors db /\ patients db' = patients db).
    { unfold advance_queue, select_next_appointment in Hadv.
      fold (waiting (DATE now) db d) in Hadv.
      destruct (hd_error (order_by Appointment.queue_sequence
                            (waiting (DATE now) db d))) as [v0 |];
        [| injection Hadv as _ <-; split; reflexivity].
      rewrite start_consultation_Ok in Hadv. cbn [bind] in Hadv.
      injection Hadv as _ <-. split; reflexivity. }
    split; [exact Hadv |]. split; [exact Hin |]. split; [exact Hmin |].
    split.
    { rewrite Happ. apply Forall2_map_self. intros a _.
      destruct (Appointment.id a =? Appointment.id v); [| reflexivity].
      unfold consultation_started. cbn. repeat split. }
    split.
    { exists (Appointment.set_actual_start_time (Some now)
                (Appointment.set_status in_consultation v)).
      split.
      - rewrite Happ. apply in_map_iff. exists v. rewrite Z.eqb_refl.
        split; [reflexivity |]. unfold waiting in Hin.
        apply filter_In in Hin. exact (proj1 Hin).
      - unfold consultation_started. cbn. repeat split. }
    split; [exact Hts |]. split; [exact (proj1 Hdb) |].
    split; [exact (proj2 Hdb) |].
    split.
    { rewrite Hqs. apply Forall2_map_self. intros r _.
      destruct (QueueStatus.doctor_id r =? d); [| reflexivity].
      unfold points_at. cbn. repeat split. }
    rewrite Hq, Hqs. clear.
    induction (queue_status db) as [| r l IH]; [reflexivity |].
    cbn [map filter].
    destruct (QueueStatus.doctor_id r =? d) eqn:Hr.
    + cbn [QueueStatus.doctor_id call_patient]. rewrite Hr. reflexivity.
    + rewrite Hr. exact IH.
  - intros now db d Hnil.
    exact (proj2 (advance_queue_lowest_arrived now db d) Hnil).
  - intros now1 now2 now3 d db Hne.
    pose proof (queue_next_select now1 d db) as Hsel.
    unfold QueueNext.handler.
    destruct (QueueNext.select_next now1 d db) as [v |]; [| contradiction].
    destruct Hsel as [Hin Hmin].
    eexists v, _. split; [reflexivity |].
    split; [exact Hin |]. split; [exact Hmin |].
    split.
    { cbn [QueueNext.appointments QueueNext.update_appointment
           QueueNext.update_queue_status].
      apply Forall2_map_self. intros a _.
      destruct (QueueNext.id a =? QueueNext.id v); [| reflexivity].
      unfold plan_consultation_started. cbn. repeat split. }
    split; [reflexivity |].
    cbn [QueueNext.queue_status QueueNext.update_appointment
         QueueNext.update_queue_status].
    apply Forall2_map_self. intros r _.
    destruct (QueueNext.qs_doctor_id r =? d); [| reflexivity].
    unfold plan_points_at. cbn. repeat split.
  - intros now1 now2 now3 d db Hnil.
    pose proof (queue_next_select now1 d db) as Hsel.
    unfold QueueNext.handler.
    destruct (QueueNext.select_next now1 d db) as [v |]; [| reflexivity].
    destruct Hsel as [Hin _]. rewrite Hnil in Hin. destruct Hin.
  - split; vm_compute; reflexivity.
  - split; [vm_compute; reflexivity |]. split; vm_compute; reflexivity.
  - split; [vm_compute; reflexivity |]. split; [vm_compute; reflexivity |].
    eexists _, _. split; [vm_compute; reflexivity |].
    split; vm_compute; reflexivity.
Qed.


(* ------------------------------------------------------------------ *)
(** ** The invariant of the booking tables                              *)
(* ------------------------------------------------------------------ *)

Lemma filter_map_In {A : Type} (p : A -> bool) (f : A -> A) (l : list A) :
  (forall x, In x l -> p (f x) = p x) ->
  filter p (map f l) = map f (filter p l).
Proof.
  induction l as [| x l IH]; intros Hp; [reflexivity |].
  simpl. rewrite (Hp x (or_introl eq_refl)).
  rewrite IH by (intros y Hy; apply Hp; right; exact Hy).
  destruct (p x); reflexivity.
Qed.

Lemma filter_andb {A : Type} (p q : A -> bool) (l : list A) :
  filter (fun x => p x && q x) l = filter q (filter p l).
Proof.
  induction l as [| x l IH]; [reflexivity |].
  simpl. destruct (p x); simpl; [destruct (q x) |]; rewrite IH; reflexivity.
Qed.

Lemma filter_length_le {A : Type} (p : A -> bool) (l : list A) :
  (List.length (filter p l) <= List.length l)%nat.
Proof.
  induction l as [| x l IH]; simpl; [lia |].
  destruct (p x); simpl; lia.
Qed.

Lemma filter_key_cases {A : Type} (key : A -> Z) (l : list A) (x : Z) :
  NoDup (map key l) ->
  filter (fun b => key b =? x) l = [] \/
  exists a, In a l /\ key a = x /\ filter (fun b => key b =? x) l = [a].
Proof.
  intros Hnd.
  destruct (filter (fun b => key b =? x) l) as [| a rest] eqn:Hf;
    [left; reflexivity |].
  right. exists a.
  assert (Ha : In a (filter (fun b => key b =? x) l))
    by (rewrite Hf; left; reflexivity).
  apply filter_In in Ha. destruct Ha as [Hin Hk]. apply Z.eqb_eq in Hk.
  split; [exact Hin |]. split; [exact Hk |].
  rewrite <- Hk in Hf. rewrite (filter_key_NoDup key l a Hnd Hin) in Hf.
  inversion Hf. reflexivity.
Qed.

Lemma holders_app (db : database) (a : Appointment.row) (slot : uuid) :
  holders (with_appointments (appointments db ++ [a]) db) slot =
  (holders db slot ++ (if holds_slot slot a then [a] else []))%list.
Proof.
  unfold holders. simpl. rewrite filter_app. simpl.
  destruct (holds_slot slot a); reflexivity.
Qed.

(** A statement that rewrites rows still holding their slot into rows
    that hold it too, and leaves [time_slots] alone, keeps the invariant. *)
Lemma slot_invariant_status_change (db db' : database) (x : uuid)
  (g : Appointment.row -> Appointment.row) :
  appointments db' =
    map (fun b => if Appointment.id b =? x then g b else b) (appointments db) ->
  time_slots db' = time_slots db ->
  (forall b, Appointment.id (g b) = Appointment.id b) ->
  (forall b, Appointment.time_slot_id (g b) = Appointment.time_slot_id b) ->
  (forall b, in_cancelled_no_show (Appointment.status (g b)) = false) ->
  (forall b, In b (appointments db) -> Appointment.id b = x ->
             in_cancelled_no_show (Appointment.status b) = false) ->
  slot_invariant db -> slot_invariant db'.
Proof.
  intros Happ Hts Hid Hslot Hg Hold [Hnd Hinv].
  assert (Hholders : forall slot,
             holders db' slot =
             map (fun b => if Appointment.id b =? x then g b else b)
               (holders db slot)).
  { intros slot. unfold holders. rewrite Happ. apply filter_map_In.
    intros b Hb. destruct (Appointment.id b =? x) eqn:E; [| reflexivity].
    apply Z.eqb_eq in E. unfold holds_slot.
    rewrite Hslot, Hg, (Hold b Hb E). reflexivity. }
  split.
  - rewrite Happ, map_map.
    replace (map (fun b => Appointment.id (if Appointment.id b =? x then g b else b))
               (appointments db))
      with (map Appointment.id (appointments db)); [exact Hnd |].
    apply map_ext. intros b. destruct (Appointment.id b =? x);
      [rewrite Hid |]; reflexivity.
  - intros slot. destruct (Hinv slot) as [Hlen Hav]. rewrite Hholders. split.
    + rewrite length_map. exact Hlen.
    + intros s Hs Hsid Havail. rewrite Hts in Hs.
      rewrite (Hav s Hs Hsid Havail). reflexivity.
Qed.

Lemma slot_invariant_reserve (now : timestamptz) (new_id : uuid)
  (locked : uuid -> bool) (db : database) (p d slot : uuid)
  (t : appointment_type) (notes : option string)
  (a : Appointment.row) (db' : database) :
  book_appointment now new_id locked db p d slot t notes = Ok (a, db') ->
  slot_invariant db -> slot_invariant db'.
Proof.
  intros H [Hnd Hinv].
  apply book_appointment_Ok in H. destruct H as [v_slot [Hfind [_ H]]].
  apply book_appointment_locked_Ok in H.
  destruct H as [v [q [n [Hv [Hav [_ [_ [_ [Ha [Hcons Hfire]]]]]]]]]].
  inversion Hv; subst v. clear Hv.
  apply update_slot_availability_insert in Hfire.
  destruct Hfire as [_ [_ [Happ [_ HF]]]]. simpl in Happ, HF.
  apply find_slot_In in Hfind. destruct Hfind as [Hvin Hvid].
  assert (Hfree : holders db slot = [])
    by exact (proj2 (Hinv slot) v_slot Hvin Hvid Hav).
  assert (Hslot_a : Appointment.time_slot_id a = slot) by (subst a; reflexivity).
  assert (Hst_a : Appointment.status a = confirmed) by (subst a; reflexivity).
  assert (Hid_a : Appointment.id a = new_id) by (subst a; reflexivity).
  assert (Hholders : forall slot0,
             holders db' slot0 =
             (holders db slot0 ++ (if holds_slot slot0 a then [a] else []))%list).
  { intros slot0. unfold holders at 1. rewrite Happ. apply holders_app. }
  split.
  - rewrite Happ, map_app. apply NoDup_app; [exact Hnd | |].
    + simpl. constructor; [intros [] | constructor].
    + intros i Hi [<- | []]. simpl in Hi.
      unfold appointments_constraints in Hcons.
      inv_bind Hcons as u1 H1. inv_bind Hcons as u2 H2.
      apply guard_Ok in H2. apply negb_true_iff in H2.
      assert (Hex : existsb (fun b => Appointment.id b =? Appointment.id a)
                      (appointments db) = true).
      { apply existsb_exists. apply in_map_iff in Hi.
        destruct Hi as [b [Hb Hbin]]. exists b. split; [exact Hbin |].
        apply Z.eqb_eq. exact Hb. }
      rewrite Hex in H2. discriminate H2.
  - intros slot0. rewrite Hholders. destruct (Hinv slot0) as [Hlen Hfree0].
    unfold holds_slot. rewrite Hslot_a, Hst_a. simpl. rewrite andb_true_r.
    destruct (slot =? slot0) eqn:E.
    + apply Z.eqb_eq in E. subst slot0. rewrite Hfree. simpl. split; [lia |].
      intros s' Hs' Hid' Havail'.
      destruct (Forall2_In_right _ _ _ _ HF Hs') as [s [Hs Hrel]].
      rewrite Hslot_a in Hrel.
      destruct (TimeSlot.id s =? slot) eqn:Es.
      * destruct Hrel as [-> _]. simpl in Havail'. discriminate Havail'.
      * subst s'. apply Z.eqb_neq in Es. contradiction.
    + rewrite app_nil_r. split; [exact Hlen |].
      intros s' Hs' Hid' Havail'.
      destruct (Forall2_In_right _ _ _ _ HF Hs') as [s [Hs Hrel]].
      rewrite Hslot_a in Hrel.
      destruct (TimeSlot.id s =? slot) eqn:Es.
      * destruct Hrel as [-> _]. simpl in Hid'. apply Z.eqb_eq in Es.
        apply Z.eqb_neq in E. congruence.
      * subst s'. exact (Hfree0 s Hs Hid' Havail').
Qed.

Lemma filter_map_In2 {A : Type} (p q : A -> bool) (f : A -> A) (l : list A) :
  (forall x, In x l -> p (f x) = q x) ->
  filter p (map f l) = map f (filter q l).
Proof.
  induction l as [| x l IH]; intros Hp; [reflexivity |].
  simpl. rewrite (Hp x (or_introl eq_refl)).
  rewrite IH by (intros y Hy; apply Hp; right; exact Hy).
  destruct (q x); reflexivity.
Qed.

Lemma NoDup_map_inj {A : Type} (key : A -> Z) (l : list A) (a b : A) :
  NoDup (map key l) -> In a l -> In b l -> key a = key b -> a = b.
Proof.
  induction l as [| x l IH]; simpl; intros Hnd Ha Hb Hk; [destruct Ha |].
  inversion Hnd as [| ? ? Hnotin Hnd']; subst.
  destruct Ha as [-> | Ha]; destruct Hb as [-> | Hb].
  - reflexivity.
  - exfalso. apply Hnotin. rewrite Hk. apply in_map. exact Hb.
  - exfalso. apply Hnotin. rewrite <- Hk. apply in_map. exact Ha.
  - exact (IH Hnd' Ha Hb Hk).
Qed.

Lemma slot_invariant_ext (db db' : database) :
  appointments db' = appointments db -> time_slots db' = time_slots db ->
  slot_invariant db -> slot_invariant db'.
Proof.
  intros Ha Ht [Hnd Hinv]. unfold slot_invariant, holders in *.
  rewrite Ha, Ht. split; assumption.
Qed.

Lemma singleton_of_short {A : Type} (l : list A) (a : A) :
  In a l -> (List.length l <= 1)%nat -> l = [a].
Proof.
  destruct l as [| x [| y l]]; simpl; intros Hin Hlen.
  - destruct Hin.
  - destruct Hin as [-> | []]. reflexivity.
  - lia.
Qed.

Lemma slot_invariant_update_status (today : date) (x : uuid)
  (st : appointment_status) (db db' : database) :
  update_appointment_status today x st db = Ok db' ->
  (forall a, In a (appointments db) -> Appointment.id a = x ->
             in_cancelled_no_show (Appointment.status a) = false) ->
  slot_invariant db -> slot_invariant db'.
Proof.
  intros H Hlive Hinv. pose proof Hinv as [Hnd Hslots].
  unfold update_appointment_status in H.
  destruct (filter_key_cases Appointment.id (appointments db) x Hnd)
    as [Hnone | [a [Hin [Hid Hone]]]].
  - unfold update_appointments in H. rewrite Hnone in H. simpl in H.
    inversion H; subst db'. clear H.
    apply (slot_invariant_ext db); [| reflexivity | exact Hinv].
    simpl. rewrite <- (map_id (appointments db)) at 2.
    apply map_ext_in. intros b Hb.
    destruct (Appointment.id b =? x) eqn:E; [| reflexivity].
    exfalso.
    assert (Hbf : In b (filter (fun b0 => Appointment.id b0 =? x) (appointments db)))
      by (apply filter_In; split; assumption).
    rewrite Hnone in Hbf. destruct Hbf.
  - subst x. rewrite (update_appointments_one_row today db a _ Hnd Hin) in H.
    simpl in H. rewrite (Hlive a Hin eq_refl) in H. simpl in H.
    destruct (in_cancelled_no_show st) eqn:Hst.
    + inv_bind H as ts Hts. inversion H; subst db'. clear H.
      apply update_time_slots_Forall2 in Hts. simpl in Hts.
      set (f := fun b => if Appointment.id b =? Appointment.id a
                         then Appointment.set_status st b else b).
      assert (Hholders : forall slot,
                 holders (with_time_slots ts (with_appointments
                            (map f (appointments db)) db)) slot =
                 map f (filter (fun b => negb (Appointment.id b =? Appointment.id a))
                          (holders db slot))).
      { intros slot. unfold holders. simpl. rewrite <- filter_andb.
        apply filter_map_In2. intros b _. unfold f.
        destruct (Appointment.id b =? Appointment.id a); simpl.
        - unfold holds_slot. simpl. rewrite Hst. simpl.
          rewrite !andb_false_r. reflexivity.
        - rewrite andb_true_r. reflexivity. }
      split.
      * simpl. rewrite map_map.
        replace (map (fun b => Appointment.id (f b)) (appointments db))
          with (map Appointment.id (appointments db)); [exact Hnd |].
        apply map_ext. intros b. unfold f.
        destruct (Appointment.id b =? Appointment.id a); reflexivity.
      * intros slot. rewrite Hholders. destruct (Hslots slot) as [Hlen Hfree].
        split.
        -- rewrite length_map.
           pose proof (filter_length_le
                         (fun b => negb (Appointment.id b =? Appointment.id a))
                         (holders db slot)). lia.
        -- intros s' Hs' Hid' Havail'. simpl in Hs'.
           destruct (Forall2_In_right _ _ _ _ Hts Hs') as [s [Hs Hrel]].
           destruct (TimeSlot.id s =? Appointment.time_slot_id a) eqn:Es.
           ++ destruct Hrel as [Hset _]. inv_bind Hset as c Hc.
              inversion Hset; subst s'. simpl in Hid'.
              apply Z.eqb_eq in Es.
              assert (Ha : In a (holders db slot)).
              { unfold holders. apply filter_In. split; [exact Hin |].
                unfold holds_slot. rewrite (Hlive a Hin eq_refl).
                rewrite <- Hid', Es, Z.eqb_refl. reflexivity. }
              rewrite (singleton_of_short _ a Ha Hlen). simpl.
              rewrite Z.eqb_refl. reflexivity.
           ++ subst s'. rewrite (Hfree s Hs Hid' Havail'). reflexivity.
    + inversion H; subst db'. clear H.
      apply (slot_invariant_status_change db _ (Appointment.id a)
               (Appointment.set_status st)); try reflexivity; try assumption.
      intros b. exact Hst.
Qed.

Lemma slot_invariant_advance (now : timestamptz) (db : database) (d : uuid)
  (q : option QueueStatus.row) (db' : database) :
  advance_queue now db d = Ok (q, db') ->
  slot_invariant db -> slot_invariant db'.
Proof.
  unfold advance_queue, select_next_appointment.
  fold (waiting (DATE now) db d). intros H Hinv.
  destruct (waiting (DATE now) db d) as [| w ws] eqn:Hw.
  - simpl in H. inversion H; subst db'. exact Hinv.
  - destruct (order_by_hd Appointment.queue_sequence (w :: ws)) as [v [Hv [Hin _]]];
      [discriminate |].
    rewrite Hv in H. rewrite start_consultation_Ok in H. cbn [bind] in H.
    inversion H; subst q db'. clear H.
    rewrite <- Hw in Hin. unfold waiting in Hin. apply filter_In in Hin.
    destruct Hin as [Hvin Hvst].
    apply andb_true_iff in Hvst. destruct Hvst as [_ Hvst].
    apply (slot_invariant_status_change db _ (Appointment.id v)
             (fun a => Appointment.set_actual_start_time (Some now)
                         (Appointment.set_status in_consultation a)));
      try reflexivity; try assumption.
    intros b Hb Hid. destruct Hinv as [Hnd _].
    rewrite (NoDup_map_inj Appointment.id _ b v Hnd Hb Hvin Hid).
    destruct (Appointment.status v); simpl in Hvst; try discriminate.
    reflexivity.
Qed.

(** Every transaction keeps the invariant, as long as a cancelled or
    no-show appointment is not given another status. *)
Lemma slot_invariant_run_operation (op : operation) (db : database) :
  leaves_released op db -> slot_invariant db -> slot_invariant (run_operation op db).
Proof.
  intros Hop Hinv. destruct op as [now new_id p d s t n | today x st | now d]; simpl.
  - destruct (book_appointment now new_id no_locks db p d s t n)
      as [[a db'] | e] eqn:H; simpl; [| exact Hinv].
    exact (slot_invariant_reserve _ _ _ _ _ _ _ _ _ _ _ H Hinv).
  - destruct (update_appointment_status today x st db) as [db' | e] eqn:H;
      [| exact Hinv].
    exact (slot_invariant_update_status _ _ _ _ _ H Hop Hinv).
  - destruct (advance_queue now db d) as [[q db'] | e] eqn:H; simpl; [| exact Hinv].
    exact (slot_invariant_advance _ _ _ _ _ H Hinv).
Qed.

Lemma slot_invariant_reachable (db0 db : database) :
  slot_invariant db0 -> reachable_final db0 db -> slot_invariant db.
Proof.
  intros H0 Hreach. induction Hreach as [| db op _ IH Hop]; [exact H0 |].
  exact (slot_invariant_run_operation op db Hop IH).
Qed.

(** A database without appointments satisfies the invariant. *)
Lemma slot_invariant_no_appointments (db : database) :
  appointments db = [] -> slot_invariant db.
Proof.
  intros H. unfold slot_invariant, holders. rewrite H. simpl.
  split; [constructor |]. intros slot. split; [lia | reflexivity].
Qed.

(* ------------------------------------------------------------------ *)
(** ** Concurrent reservations of one slot                              *)
(* ------------------------------------------------------------------ *)

Lemma nth_error_set_nth_eq {A : Type} (i : nat) (x y : A) (l : list A) :
  nth_error l i = Some y -> nth_error (set_nth i x l) i = Some x.
Proof.
  revert i. induction l as [| z l IH]; intros [| i]; simpl; intros H;
    try discriminate; [reflexivity | exact (IH i H)].
Qed.

Lemma nth_error_set_nth_neq {A : Type} (i j : nat) (x : A) (l : list A) :
  i <> j -> nth_error (set_nth i x l) j = nth_error l j.
Proof.
  revert i j. induction l as [| z l IH]; intros [| i] [| j] Hne; simpl;
    try reflexivity; [congruence |].
  apply IH. congruence.
Qed.

Lemma locked_rows_false (calls : list (reserve_call * call_state)) (slot : uuid)
  (j : nat) (c : reserve_call) (s : TimeSlot.row) :
  locked_rows calls slot = false ->
  nth_error calls j = Some (c, call_locked (Some s)) ->
  TimeSlot.id s <> slot.
Proof.
  unfold locked_rows. intros Hl Hj Hid.
  assert (Hex : existsb (holds_lock slot) calls = true).
  { apply existsb_exists. exists (c, call_locked (Some s)).
    split; [exact (nth_error_In _ _ Hj) |].
    unfold holds_lock. simpl. apply Z.eqb_eq. exact Hid. }
  rewrite Hex in Hl. discriminate Hl.
Qed.

Lemma find_Forall2 (R : TimeSlot.row -> TimeSlot.row -> Prop)
  (rows rows' : list TimeSlot.row) (x : uuid) (s : TimeSlot.row) :
  Forall2 R rows rows' ->
  (forall s0 s1, R s0 s1 -> TimeSlot.id s1 = TimeSlot.id s0) ->
  find (fun s0 => TimeSlot.id s0 =? x) rows = Some s ->
  exists s', find (fun s0 => TimeSlot.id s0 =? x) rows' = Some s' /\ R s s'.
Proof.
  intros HF Hid. induction HF as [| a b rows rows' Hab _ IH]; simpl; intros H;
    [discriminate |].
  rewrite (Hid a b Hab).
  destruct (TimeSlot.id a =? x).
  - inversion H; subst a. exists b. split; [reflexivity | exact Hab].
  - exact (IH H).
Qed.

Lemma one_winner_failed (l : list (result Appointment.row))
  (r : result Appointment.row) :
  one_winner l -> failed r ->
  ((exists a, In (Ok a) l) -> slot_taken r) ->
  one_winner (r :: l).
Proof.
  intros [Hall | [later [a [earlier [Hl [Hlater Hearlier]]]]]] Hr Htaken.
  - left. constructor; assumption.
  - right. exists (r :: later), a, earlier. subst l.
    split; [reflexivity |]. split; [| exact Hearlier].
    constructor; [| exact Hlater].
    apply Htaken. exists a. apply in_or_app. right. left. reflexivity.
Qed.

Lemma one_winner_first (l : list (result Appointment.row)) (a : Appointment.row) :
  one_winner l -> ~ (exists a', In (Ok a') l) -> one_winner (Ok a :: l).
Proof.
  intros [Hall | [later [a' [earlier [Hl _]]]]] Hno.
  - right. exists [], a, l. split; [reflexivity |].
    split; [constructor | exact Hall].
  - exfalso. apply Hno. exists a'. subst l. apply in_or_app.
    right. left. reflexivity.
Qed.

Section SameSlot.

Variable slot : uuid.

Lemma lock_discipline_start (db : database) (calls : list reserve_call) :
  (forall c, In c calls -> call_slot_id c = slot) ->
  lock_discipline slot (start db calls).
Proof.
  intros Hcalls. unfold lock_discipline, start. simpl.
  assert (Hstate : forall i c st,
             nth_error (map (fun c0 => (c0, call_waiting)) calls) i = Some (c, st) ->
             In c calls /\ st = call_waiting).
  { intros i c st H. apply nth_error_In in H. apply in_map_iff in H.
    destruct H as [c0 [Heq Hin]]. inversion Heq; subst. split; [exact Hin | reflexivity]. }
  split; [| split; [| split; [| split]]].
  - intros i c st H. apply Hcalls. exact (proj1 (Hstate i c st H)).
  - intros i c found H. destruct (Hstate i c _ H) as [_ Hst]. discriminate Hst.
  - intros i j c c' s s' H. destruct (Hstate i c _ H) as [_ Hst]. discriminate Hst.
  - left. constructor.
  - intros [a []].
Qed.

Lemma lock_discipline_select (sys : system) (i : nat) :
  lock_discipline slot sys -> lock_discipline slot (step (ev_select i) sys).
Proof.
  intros Hsys. pose proof Hsys as [Hcalls [Hsnap [Hmutex [Hwin Hclosed]]]].
  unfold step.
  destruct (nth_error (sys_calls sys) i) as [[c st] |] eqn:Hi; [| exact Hsys].
  destruct st; try exact Hsys.
  pose proof (Hcalls i c _ Hi) as Hc.
  destruct (select_slot_for_update_nowait (locked_rows (sys_calls sys))
              (sys_db sys) (call_slot_id c)) as [found | e] eqn:Hsel.
  - apply select_slot_for_update_nowait_Ok in Hsel. rewrite Hc in Hsel.
    destruct Hsel as [Hfind Hfree].
    unfold lock_discipline. simpl.
    split; [| split; [| split; [| split]]].
    + intros j c' st' Hj. destruct (Nat.eq_dec i j) as [<- | Hne].
      * rewrite (nth_error_set_nth_eq _ _ _ _ Hi) in Hj.
        injection Hj as <- <-. exact Hc.
      * rewrite nth_error_set_nth_neq in Hj by exact Hne.
        exact (Hcalls j c' st' Hj).
    + intros j c' found' Hj. destruct (Nat.eq_dec i j) as [<- | Hne].
      * rewrite (nth_error_set_nth_eq _ _ _ _ Hi) in Hj.
        injection Hj as <- <-. exact Hfind.
      * rewrite nth_error_set_nth_neq in Hj by exact Hne.
        exact (Hsnap j c' found' Hj).
    + assert (Hnew : forall j c' s s',
                 i <> j ->
                 found = Some s ->
                 nth_error (sys_calls sys) j = Some (c', call_locked (Some s')) ->
                 False).
      { intros j c' s s' Hne Hs Hj.
        pose proof (Hsnap j c' _ Hj) as Hj'. rewrite Hfind, Hs in Hj'.
        injection Hj' as <-.
        exact (locked_rows_false _ _ _ _ _ (Hfree s Hs) Hj eq_refl). }
      intros j k c1 c2 s1 s2 Hj Hk.
      destruct (Nat.eq_dec i j) as [Hij | Hij];
        destruct (Nat.eq_dec i k) as [Hik | Hik].
      * congruence.
      * subst j. rewrite (nth_error_set_nth_eq _ _ _ _ Hi) in Hj.
        rewrite nth_error_set_nth_neq in Hk by exact Hik.
        injection Hj as <- ->. exfalso. exact (Hnew k c2 s1 s2 Hik eq_refl Hk).
      * subst k. rewrite (nth_error_set_nth_eq _ _ _ _ Hi) in Hk.
        rewrite nth_error_set_nth_neq in Hj by exact Hij.
        injection Hk as <- ->. exfalso. exact (Hnew j c1 s2 s1 Hij eq_refl Hj).
      * rewrite nth_error_set_nth_neq in Hj by exact Hij.
        rewrite nth_error_set_nth_neq in Hk by exact Hik.
        exact (Hmutex j k c1 c2 s1 s2 Hj Hk).
    + exact Hwin.
    + exact Hclosed.
  - assert (He : e = lock_not_available).
    { revert Hsel. unfold select_slot_for_update_nowait.
      destruct (find (fun s => TimeSlot.id s =? call_slot_id c)
                  (time_slots (sys_db sys))) as [s |]; [| discriminate].
      destruct (locked_rows (sys_calls sys) (TimeSlot.id s)); intros Hsel;
        inversion Hsel. reflexivity. }
    subst e. unfold lock_discipline. simpl.
    split; [| split; [| split; [| split]]].
    + intros j c' st' Hj. destruct (Nat.eq_dec i j) as [<- | Hne].
      * rewrite (nth_error_set_nth_eq _ _ _ _ Hi) in Hj.
        injection Hj as <- <-. exact Hc.
      * rewrite nth_error_set_nth_neq in Hj by exact Hne.
        exact (Hcalls j c' st' Hj).
    + intros j c' found' Hj. destruct (Nat.eq_dec i j) as [<- | Hne].
      * rewrite (nth_error_set_nth_eq _ _ _ _ Hi) in Hj. discriminate Hj.
      * rewrite nth_error_set_nth_neq in Hj by exact Hne.
        exact (Hsnap j c' found' Hj).
    + intros j k c1 c2 s1 s2 Hj Hk.
      destruct (Nat.eq_dec i j) as [<- | Hij].
      { rewrite (nth_error_set_nth_eq _ _ _ _ Hi) in Hj. discriminate Hj. }
      destruct (Nat.eq_dec i k) as [<- | Hik].
      { rewrite (nth_error_set_nth_eq _ _ _ _ Hi) in Hk. discriminate Hk. }
      rewrite nth_error_set_nth_neq in Hj by exact Hij.
      rewrite nth_error_set_nth_neq in Hk by exact Hik.
      exact (Hmutex j k c1 c2 s1 s2 Hj Hk).
    + apply one_winner_failed; [exact Hwin | |].
      * exists lock_not_available. reflexivity.
      * intros _. right. reflexivity.
    + intros [a [Ha | Ha]]; [discriminate Ha |].
      apply Hclosed. exists a. exact Ha.
Qed.

Lemma lock_discipline_complete (sys : system) (i : nat) :
  lock_discipline slot sys -> lock_discipline slot (step (ev_complete i) sys).
Proof.
  intros Hsys. pose proof Hsys as [Hcalls [Hsnap [Hmutex [Hwin Hclosed]]]].
  unfold step.
  destruct (nth_error (sys_calls sys) i) as [[c st] |] eqn:Hi; [| exact Hsys].
  destruct st as [| found |]; try exact Hsys.
  pose proof (Hcalls i c _ Hi) as Hc.
  pose proof (Hsnap i c _ Hi) as Hfound.
  assert (Hothers : forall j c' st',
             i <> j -> nth_error (sys_calls sys) j = Some (c', st') ->
             forall s, found = Some s ->
             forall found', st' <> call_locked found').
  { intros j c' st' Hne Hj s Hs found' Hst. rewrite Hst in Hj.
    pose proof (Hsnap j c' _ Hj) as Hj'.
    assert (Hsame : found' = Some s) by congruence.
    rewrite Hsame in Hj. rewrite Hs in Hi.
    exact (Hne (Hmutex i j c c' s s Hi Hj)). }
  destruct (book_appointment_locked (call_now c) (call_new_id c) (sys_db sys)
              found (call_patient_id c) (call_doctor_id c) (call_slot_id c)
              (call_type c) (call_notes c)) as [[a db'] | e] eqn:Hbook; simpl.
  - (* the call commits its appointment *)
    pose proof Hbook as Hbook'.
    apply book_appointment_locked_Ok in Hbook'.
    destruct Hbook' as [v [q [n [Hv [Hav [_ [_ [_ [Ha [_ Hfire]]]]]]]]]].
    apply update_slot_availability_insert in Hfire.
    destruct Hfire as [_ [_ [_ [_ HF]]]]. simpl in HF.
    assert (Hslot_a : Appointment.time_slot_id a = slot)
      by (rewrite Ha; simpl; exact Hc).
    rewrite Hslot_a in HF.
    assert (Hfresh : ~ (exists a', In (Ok a') (sys_returned sys))).
    { intros Hex. destruct (Hclosed Hex) as [s [Hs Hclosed_s]].
      rewrite Hfound, Hv in Hs. injection Hs as <-. congruence. }
    assert (Hfind' : exists s',
               find (fun s0 => TimeSlot.id s0 =? slot) (time_slots db') = Some s' /\
               TimeSlot.is_available s' = false).
    { rewrite Hv in Hfound.
      destruct (find_Forall2 _ _ _ slot v HF) as [s' [Hs' Hrel]].
      - intros s0 s1 H01. destruct (TimeSlot.id s0 =? slot).
        + destruct H01 as [-> _]. reflexivity.
        + subst s1. reflexivity.
      - exact Hfound.
      - exists s'. split; [exact Hs' |].
        apply find_slot_In in Hfound. destruct Hfound as [_ Hvid].
        rewrite Hvid, Z.eqb_refl in Hrel. destruct Hrel as [-> _]. reflexivity. }
    unfold lock_discipline. simpl.
    split; [| split; [| split; [| split]]].
    + intros j c' st' Hj. destruct (Nat.eq_dec i j) as [<- | Hne].
      * rewrite (nth_error_set_nth_eq _ _ _ _ Hi) in Hj.
        injection Hj as <- <-. exact Hc.
      * rewrite nth_error_set_nth_neq in Hj by exact Hne.
        exact (Hcalls j c' st' Hj).
    + intros j c' found' Hj. destruct (Nat.eq_dec i j) as [<- | Hne].
      * rewrite (nth_error_set_nth_eq _ _ _ _ Hi) in Hj. discriminate Hj.
      * rewrite nth_error_set_nth_neq in Hj by exact Hne.
        exfalso. exact (Hothers j c' _ Hne Hj v Hv found' eq_refl).
    + intros j k c1 c2 s1 s2 Hj Hk.
      destruct (Nat.eq_dec i j) as [<- | Hij].
      { rewrite (nth_error_set_nth_eq _ _ _ _ Hi) in Hj. discriminate Hj. }
      destruct (Nat.eq_dec i k) as [<- | Hik].
      { rewrite (nth_error_set_nth_eq _ _ _ _ Hi) in Hk. discriminate Hk. }
      rewrite nth_error_set_nth_neq in Hj by exact Hij.
      rewrite nth_error_set_nth_neq in Hk by exact Hik.
      exact (Hmutex j k c1 c2 s1 s2 Hj Hk).
    + apply one_winner_first; assumption.
    + intros _. exact Hfind'.
  - (* the call raises and its transaction is rolled back *)
    unfold lock_discipline. simpl.
    split; [| split; [| split; [| split]]].
    + intros j c' st' Hj. destruct (Nat.eq_dec i j) as [<- | Hne].
      * rewrite (nth_error_set_nth_eq _ _ _ _ Hi) in Hj.
        injection Hj as <- <-. exact Hc.
      * rewrite nth_error_set_nth_neq in Hj by exact Hne.
        exact (Hcalls j c' st' Hj).
    + intros j c' found' Hj. destruct (Nat.eq_dec i j) as [<- | Hne].
      * rewrite (nth_error_set_nth_eq _ _ _ _ Hi) in Hj. discriminate Hj.
      * rewrite nth_error_set_nth_neq in Hj by exact Hne.
        exact (Hsnap j c' found' Hj).
    + intros j k c1 c2 s1 s2 Hj Hk.
      destruct (Nat.eq_dec i j) as [<- | Hij].
      { rewrite (nth_error_set_nth_eq _ _ _ _ Hi) in Hj. discriminate Hj. }
      destruct (Nat.eq_dec i k) as [<- | Hik].
      { rewrite (nth_error_set_nth_eq _ _ _ _ Hi) in Hk. discriminate Hk. }
      rewrite nth_error_set_nth_neq in Hj by exact Hij.
      rewrite nth_error_set_nth_neq in Hk by exact Hik.
      exact (Hmutex j k c1 c2 s1 s2 Hj Hk).
    + apply one_winner_failed; [exact Hwin | exists e; reflexivity |].
      intros Hex. destruct (Hclosed Hex) as [s [Hs Hclosed_s]].
      rewrite Hfound in Hs. rewrite Hs in Hbook. left.
      rewrite book_appointment_locked_unavailable in Hbook
        by (left; exact Hclosed_s).
      injection Hbook as <-. reflexivity.
    + intros [a [Ha | Ha]]; [discriminate Ha |].
      apply Hclosed. exists a. exact Ha.
Qed.

Lemma lock_discipline_run (schedule : list event) (sys : system) :
  lock_discipline slot sys -> lock_discipline slot (run schedule sys).
Proof.
  revert sys. induction schedule as [| e schedule IH]; intros sys Hsys;
    [exact Hsys |].
  unfold run. simpl. apply IH.
  destruct e as [i | i];
    [apply lock_discipline_select | apply lock_discipline_complete]; exact Hsys.
Qed.

End SameSlot.

(* ------------------------------------------------------------------ *)
(** ** Exactly one winner                                               *)
(* ------------------------------------------------------------------ *)

Lemma set_nth_map_fst {A B : Type} (i : nat) (a : A) (b b' : B)
  (l : list (A * B)) :
  nth_error l i = Some (a, b') -> map fst (set_nth i (a, b) l) = map fst l.
Proof.
  revert i. induction l as [| z l IH]; intros [| i]; simpl; intros H;
    try discriminate.
  - injection H as ->. reflexivity.
  - rewrite (IH i H). reflexivity.
Qed.

Lemma step_calls_fst (e : event) (sys : system) :
  map fst (sys_calls (step e sys)) = map fst (sys_calls sys).
Proof.
  destruct e as [i | i]; unfold step;
    destruct (nth_error (sys_calls sys) i) as [[c st] |] eqn:Hi; try reflexivity;
    destruct st; try reflexivity.
  - destruct (select_slot_for_update_nowait _ _ _); simpl;
      exact (set_nth_map_fst _ _ _ _ _ Hi).
  - simpl. exact (set_nth_map_fst _ _ _ _ _ Hi).
Qed.

Lemma Forall_set_nth {A : Type} (P : A -> Prop) (i : nat) (x : A) (l : list A) :
  Forall P l -> P x -> Forall P (set_nth i x l).
Proof.
  intros Hl Hx. revert i. induction Hl as [| y l Hy Hl IH]; intros [| i];
    simpl; constructor; auto.
Qed.

Lemma existsb_set_nth_here {A : Type} (f : A -> bool) (i : nat) (x y : A)
  (l : list A) :
  nth_error l i = Some y -> f x = true -> existsb f (set_nth i x l) = true.
Proof.
  revert i. induction l as [| z l IH]; intros [| i]; simpl; intros H Hx;
    try discriminate.
  - rewrite Hx. reflexivity.
  - rewrite (IH i H Hx). apply orb_true_r.
Qed.

Lemma existsb_set_nth_other {A : Type} (f : A -> bool) (i : nat) (x y : A)
  (l : list A) :
  nth_error l i = Some y -> f y = false -> existsb f l = true ->
  existsb f (set_nth i x l) = true.
Proof.
  revert i. induction l as [| z l IH]; intros [| i]; simpl; intros H Hy Hl;
    try discriminate.
  - injection H as ->. rewrite Hy in Hl. simpl in Hl. rewrite Hl.
    apply orb_true_r.
  - destruct (f z); [reflexivity |]. simpl in *. exact (IH i H Hy Hl).
Qed.

Lemma count_set_nth {A : Type} (f : A -> bool) (i : nat) (x y : A) (l : list A) :
  nth_error l i = Some y -> f y = false ->
  List.length (filter f (set_nth i x l)) =
  (List.length (filter f l) + (if f x then 1 else 0))%nat.
Proof.
  revert i. induction l as [| z l IH]; intros [| i]; simpl; intros H Hy;
    try discriminate.
  - injection H as ->. rewrite Hy. destruct (f x); simpl; lia.
  - destruct (f z); simpl; rewrite (IH i H Hy); lia.
Qed.

(** Each return is logged once. *)
Lemma returned_count_step (e : event) (sys : system) :
  List.length (sys_returned sys) = List.length (filter is_returned (sys_calls sys)) ->
  List.length (sys_returned (step e sys)) =
  List.length (filter is_returned (sys_calls (step e sys))).
Proof.
  intros H. destruct e as [i | i]; unfold step;
    destruct (nth_error (sys_calls sys) i) as [[c st] |] eqn:Hi; try exact H;
    destruct st; try exact H.
  - destruct (select_slot_for_update_nowait _ _ _); simpl;
      rewrite (count_set_nth is_returned _ _ _ _ Hi eq_refl); simpl; lia.
  - simpl. rewrite (count_set_nth is_returned _ _ _ _ Hi eq_refl). simpl. lia.
Qed.

Lemma step_returned (e : event) (sys : system) :
  sys_returned (step e sys) = sys_returned sys \/
  exists r, sys_returned (step e sys) = r :: sys_returned sys.
Proof.
  destruct e as [i | i]; unfold step;
    destruct (nth_error (sys_calls sys) i) as [[c st] |]; try (left; reflexivity);
    destruct st; try (left; reflexivity).
  - destruct (select_slot_for_update_nowait _ _ _); simpl;
      [left; reflexivity | right; eexists; reflexivity].
  - simpl. right. eexists. reflexivity.
Qed.

Lemma one_winner_cons_inv (r : result Appointment.row)
  (l : list (result Appointment.row)) :
  one_winner (r :: l) -> (exists a, In (Ok a) l) -> slot_taken r.
Proof.
  intros [Hall | [later [a [earlier [Hl [Hlater Hearlier]]]]]] [a0 Ha0].
  - exfalso. inversion Hall as [| ? ? _ Hl]; subst.
    rewrite Forall_forall in Hl. destruct (Hl _ Ha0) as [e He]. discriminate He.
  - destruct later as [| r' later]; simpl in Hl; injection Hl as -> ->.
    + exfalso. rewrite Forall_forall in Hearlier.
      destruct (Hearlier _ Ha0) as [e He]. discriminate He.
    + inversion Hlater; assumption.
Qed.

Lemma exactly_one_winner_step (e : event) (sys : system) :
  exactly_one_winner (sys_returned sys) ->
  one_winner (sys_returned (step e sys)) ->
  exactly_one_winner (sys_returned (step e sys)).
Proof.
  intros Hone Hwin. destruct (step_returned e sys) as [-> | [r Hr]]; [exact Hone |].
  rewrite Hr in *. destruct Hone as [later [a [earlier [Hl [Hlater Hearlier]]]]].
  exists (r :: later), a, earlier. rewrite Hl. split; [reflexivity |].
  split; [| exact Hearlier]. constructor; [| exact Hlater].
  apply (one_winner_cons_inv r (sys_returned sys) Hwin).
  exists a. rewrite Hl. apply in_or_app. right. left. reflexivity.
Qed.

Section Race.

Variable slot : uuid.
Variable db0 : database.

(** One step of the race, from a state in which every call would book
    on [db0]. *)
Lemma race_step (e : event) (sys : system) :
  lock_discipline slot sys ->
  Forall (fun cs => would_succeed db0 (fst cs)) (sys_calls sys) ->
  exactly_one_winner (sys_returned sys) \/ before_first_success db0 sys ->
  exactly_one_winner (sys_returned (step e sys)) \/
  before_first_success db0 (step e sys).
Proof.
  intros Hlock Hok [Hone | Hphase].
  { left. apply exactly_one_winner_step; [exact Hone |].
    destruct e as [i | i];
      [apply (lock_discipline_select slot sys i) in Hlock
      | apply (lock_discipline_complete slot sys i) in Hlock];
      exact (proj1 (proj2 (proj2 (proj2 Hlock)))). }
  destruct Hphase as [Hdb [Hret [Hstates Hheld]]].
  destruct Hlock as [Hcalls [Hsnap _]].
  destruct e as [i | i]; unfold step;
    destruct (nth_error (sys_calls sys) i) as [[c st] |] eqn:Hi;
    try (right; repeat split; assumption);
    destruct st as [| found | r];
    try (right; repeat split; assumption).
  - (* the locking SELECT of call i *)
    assert (Hc : would_succeed db0 c).
    { rewrite Forall_forall in Hok. exact (Hok _ (nth_error_In _ _ Hi)). }
    destruct Hc as [a [db' Hbook]]. apply book_appointment_Ok in Hbook.
    destruct Hbook as [v [Hfind _]].
    unfold select_slot_for_update_nowait. rewrite Hdb, Hfind.
    destruct (locked_rows (sys_calls sys) (TimeSlot.id v)) eqn:Hl; simpl.
    + right. unfold before_first_success. simpl.
      split; [reflexivity |]. split; [constructor; [reflexivity | exact Hret] |].
      split.
      * apply Forall_set_nth; [exact Hstates |]. right. right. reflexivity.
      * intros _. apply (existsb_set_nth_other _ _ _ _ _ Hi eq_refl).
        unfold locked_rows in Hl. apply existsb_exists in Hl.
        destruct Hl as [cs [Hin Hcs]]. apply existsb_exists. exists cs.
        split; [exact Hin |]. unfold holds_lock in Hcs. unfold is_locked.
        destruct (snd cs) as [| [s |] |]; try discriminate Hcs. reflexivity.
    + right. unfold before_first_success. simpl.
      split; [reflexivity |]. split; [exact Hret |]. split.
      * apply Forall_set_nth; [exact Hstates |]. right. left.
        exists v. reflexivity.
      * intros _. exact (existsb_set_nth_here _ _ _ _ _ Hi eq_refl).
  - (* call i runs to its commit *)
    left.
    assert (Hc : would_succeed db0 c).
    { rewrite Forall_forall in Hok. exact (Hok _ (nth_error_In _ _ Hi)). }
    destruct Hc as [a [db' Hbook]]. apply book_appointment_Ok in Hbook.
    destruct Hbook as [v [Hfind [_ Hbook]]].
    pose proof (Hsnap i c _ Hi) as Hfound.
    rewrite <- (Hcalls i c _ Hi), Hdb, Hfind in Hfound. subst found.
    rewrite Hdb, Hbook. simpl.
    exists [], a, (sys_returned sys). split; [reflexivity |].
    split; [constructor |].
    apply Forall_impl with (2 := Hret). intros r ->. right. reflexivity.
Qed.

Lemma race_run (schedule : list event) (sys : system) :
  lock_discipline slot sys ->
  Forall (fun cs => would_succeed db0 (fst cs)) (sys_calls sys) ->
  List.length (sys_returned sys) = List.length (filter is_returned (sys_calls sys)) ->
  exactly_one_winner (sys_returned sys) \/ before_first_success db0 sys ->
  (exactly_one_winner (sys_returned (run schedule sys)) \/
   before_first_success db0 (run schedule sys)) /\
  List.length (sys_returned (run schedule sys)) =
    List.length (filter is_returned (sys_calls (run schedule sys))) /\
  map fst (sys_calls (run schedule sys)) = map fst (sys_calls sys).
Proof.
  revert sys. induction schedule as [| e schedule IH];
    intros sys Hlock Hok Hcount Hphase.
  - split; [exact Hphase |]. split; [exact Hcount | reflexivity].
  - unfold run. simpl.
    destruct (IH (step e sys)) as [H1 [H2 H3]].
    + destruct e as [i | i];
        [apply lock_discipline_select | apply lock_discipline_complete];
        exact Hlock.
    + apply Forall_forall. intros cs Hcs.
      assert (Hfst : In (fst cs) (map fst (sys_calls sys))).
      { rewrite <- (step_calls_fst e sys). apply in_map. exact Hcs. }
      apply in_map_iff in Hfst. destruct Hfst as [cs0 [Heq Hin]].
      rewrite <- Heq. rewrite Forall_forall in Hok. exact (Hok cs0 Hin).
    + exact (returned_count_step e sys Hcount).
    + exact (race_step e sys Hlock Hok Hphase).
    + split; [exact H1 |]. split; [exact H2 |].
      rewrite <- (step_calls_fst e sys). exact H3.
Qed.

End Race.

Lemma forallb_filter_all {A : Type} (f : A -> bool) (l : list A) :
  forallb f l = true -> filter f l = l.
Proof.
  induction l as [| x l IH]; simpl; intros H; [reflexivity |].
  apply andb_true_iff in H. destruct H as [Hx Hl]. rewrite Hx, (IH Hl).
  reflexivity.
Qed.

(** With N >= 1 calls for one slot, each of which would book when run
    alone, a schedule that lets every call return has exactly one
    success and N - 1 refusals. *)
Lemma exactly_one_call_wins (slot : uuid) (db : database)
  (calls : list reserve_call) (schedule : list event) :
  calls <> [] ->
  (forall c, In c calls -> call_slot_id c = slot /\ would_succeed db c) ->
  all_returned (run schedule (start db calls)) ->
  exactly_one_winner (sys_returned (run schedule (start db calls))) /\
  List.length (sys_returned (run schedule (start db calls))) = List.length calls.
Proof.
  intros Hne Hcalls Hall.
  destruct (race_run slot db schedule (start db calls)) as [Hphase [Hcount Hfst]].
  - apply lock_discipline_start. intros c Hc. exact (proj1 (Hcalls c Hc)).
  - unfold start. simpl. apply Forall_forall. intros cs Hcs.
    apply in_map_iff in Hcs. destruct Hcs as [c [<- Hc]]. simpl.
    exact (proj2 (Hcalls c Hc)).
  - unfold start. simpl.
    replace (filter is_returned (map (fun c => (c, call_waiting)) calls))
      with (@nil (reserve_call * call_state)); [reflexivity |].
    clear. induction calls as [| c calls IH]; simpl; [reflexivity | exact IH].
  - right. unfold before_first_success, start. simpl.
    split; [reflexivity |]. split; [constructor |]. split.
    + apply Forall_forall. intros cs Hcs. apply in_map_iff in Hcs.
      destruct Hcs as [c [<- _]]. left. reflexivity.
    + intros H. exfalso. apply existsb_exists in H. destruct H as [cs [Hcs Hr]].
      apply in_map_iff in Hcs. destruct Hcs as [c [<- _]]. discriminate Hr.
  - assert (Hlen : List.length (sys_calls (run schedule (start db calls)))
                   = List.length calls).
    { rewrite <- (length_map fst), Hfst. unfold start. simpl.
      rewrite !length_map. reflexivity. }
    unfold all_returned in Hall. split.
    + destruct Hphase as [Hone | [_ [_ [_ Hheld]]]]; [exact Hone |]. exfalso.
      destruct (sys_calls (run schedule (start db calls))) as [| cs rest] eqn:Hsys.
      * destruct calls; [congruence | discriminate Hlen].
      * assert (Hex : existsb is_returned (cs :: rest) = true).
        { simpl in Hall |- *. apply andb_true_iff in Hall.
          rewrite (proj1 Hall). reflexivity. }
        apply Hheld in Hex. apply existsb_exists in Hex.
        destruct Hex as [cs' [Hin Hlocked]].
        rewrite forallb_forall in Hall. specialize (Hall cs' Hin).
        unfold is_locked in Hlocked. unfold is_returned in Hall.
        destruct (snd cs') as [| [s |] |]; discriminate.
    + rewrite Hcount, (forallb_filter_all _ _ Hall). exact Hlen.
Qed.

(** C1, as the code has it.  Concurrent calls of [book_appointment]
    for one slot, whatever the database and the schedule, have at most
    one winner: what is returned after a success is 'Slot is not
    available' or lock-not-available, and what was returned before it are
    failures.  When each of the N >= 1 calls would book if it ran alone
    and the schedule lets them all return, exactly one succeeds and the
    other N - 1 are refused with one of those two errors.  And in every
    state reached from a consistent database by reservations, status
    updates and queue advances that never revive a cancelled or no-show
    appointment, a slot has at most one appointment that is neither
    cancelled nor no_show. *)
Theorem one_holder_per_slot :
  (forall (slot : uuid) (db : database) (calls : list reserve_call)
          (schedule : list event),
      (forall c, In c calls -> call_slot_id c = slot) ->
      one_winner (sys_returned (run schedule (start db calls)))) /\
  (forall (slot : uuid) (db : database) (calls : list reserve_call)
          (schedule : list event),
      calls <> [] ->
      (forall c, In c calls -> call_slot_id c = slot /\ would_succeed db c) ->
      all_returned (run schedule (start db calls)) ->
      exactly_one_winner (sys_returned (run schedule (start db calls))) /\
      List.length (sys_returned (run schedule (start db calls)))
        = List.length calls) /\
  (forall (db0 db : database) (slot : uuid),
      slot_invariant db0 -> reachable_final db0 db ->
      (List.length (holders db slot) <= 1)%nat).
Proof.
  split; [| split].
  - intros slot db calls schedule Hcalls.
    pose proof (lock_discipline_run slot schedule _
                  (lock_discipline_start slot db calls Hcalls)) as H.
    exact (proj1 (proj2 (proj2 (proj2 H)))).
  - exact exactly_one_call_wins.
  - intros db0 db slot H0 Hreach.
    exact (proj1 (proj2 (slot_invariant_reachable db0 db H0 Hreach) slot)).
Qed.

Lemma sample_db_rebooked_reachable : reachable_final sample_db sample_db_rebooked.
Proof.
  unfold sample_db_rebooked, sample_db_no_show, sample_db_reserved.
  apply reachable_final_step; [| exact I].
  apply reachable_final_step.
  - apply reachable_final_step; [constructor | exact I].
  - intros a Hin Hid. vm_compute in Hin.
    destruct Hin as [<- | []]. reflexivity.
Qed.

(** C1, as the claim has it, fails: patient 11 holds slot 101 and is
    marked no_show, which frees the slot; patient 12 reserves it; two
    appointments that are not cancelled now reference slot 101. *)
Lemma no_show_slot_is_booked_again :
  ~ (forall db, reachable_final sample_db db ->
     forall slot,
       (List.length (filter (non_cancelled_on slot) (appointments db)) <= 1)%nat).
Proof.
  intros H. specialize (H sample_db_rebooked sample_db_rebooked_reachable 101).
  vm_compute in H. lia.
Qed.

(** The statements of [advance_queue], run one after the other by a
    single call, are the function. *)
Lemma advance_queue_by_statements (now : timestamptz) (db : database)
  (p_doctor_id : uuid) :
  let s1 := advance_statement now p_doctor_id adv_start db in
  let s2 := advance_statement now p_doctor_id (fst s1) (snd s1) in
  let s3 := advance_statement now p_doctor_id (fst s2) (snd s2) in
  match advance_queue now db p_doctor_id with
  | Ok (q, db') => fst s3 = adv_returned (Ok q) /\ snd s3 = db'
  | Err e => fst s3 = adv_returned (Err e) /\ snd s3 = db
  end.
Proof.
  unfold advance_queue. simpl.
  destruct (select_next_appointment (DATE now) db p_doctor_id) as [v |];
    simpl; [| split; reflexivity].
  rewrite start_consultation_Ok. simpl. split; reflexivity.
Qed.

(** C3.  Two calls of [advance_queue] for doctor 1, with "A001"
    (appointment 1001) and "A002" (1002) waiting.  One after the other
    they call 1001 and then 1002.  When both run their SELECT before
    either runs its UPDATE, both select 1001, both start it (its start
    time is the second call's), both report it as called, and 1002 is
    still waiting: the SELECT takes no lock on the row it picks. *)
Theorem concurrent_advances_start_the_same_appointment :
  show_queue sample_db_two_arrived = [(1001, arrived, None); (1002, arrived, None)] /\
  (let s := run_advances first_now second_now 1 serial_schedule
              sample_db_two_arrived in
   called (adv_first s) = Some 1001 /\ called (adv_second s) = Some 1002) /\
  (let s := run_advances first_now second_now 1 [first_call; second_call]
              sample_db_two_arrived in
   selected (adv_first s) = Some 1001 /\ selected (adv_second s) = Some 1001) /\
  (let s := run_advances first_now second_now 1 racing_schedule
              sample_db_two_arrived in
   called (adv_first s) = Some 1001 /\ called (adv_second s) = Some 1001 /\
   show_queue (adv_db s) =
     [(1001, in_consultation, Some second_now); (1002, arrived, None)]).
Proof.
  split; [reflexivity |]. split; [split; reflexivity |].
  split; [split; reflexivity |]. repeat split; reflexivity.
Qed.

(* ------------------------------------------------------------------ *)
(** ** Atomicity of a reservation                                       *)
(* ------------------------------------------------------------------ *)

(** [book_appointment] is one transaction: it leaves the database as it
    was, or it leaves a confirmed appointment on the slot together with
    the slot closed. *)
Lemma book_appointment_all_or_nothing (now : timestamptz) (new_id : uuid)
  (locked : uuid -> bool) (db : database) (p d slot : uuid)
  (t : appointment_type) (notes : option string) :
  let out := commit db (book_appointment now new_id locked db p d slot t notes) in
  (exists e, out = (Err e, db)) \/
  (exists a,
      fst out = Ok a /\
      appointments (snd out) = (appointments db ++ [a])%list /\
      Appointment.time_slot_id a = slot /\
      Appointment.status a = confirmed /\
      forall s', In s' (time_slots (snd out)) -> TimeSlot.id s' = slot ->
                 TimeSlot.is_available s' = false).
Proof.
  simpl.
  destruct (book_appointment now new_id locked db p d slot t notes)
    as [[a db'] | e] eqn:H; simpl.
  - right. exists a. split; [reflexivity |].
    pose proof (book_appointment_slot_effect _ _ _ _ _ _ _ _ _ _ _ H) as [HF _].
    apply book_appointment_Ok in H. destruct H as [v_slot [_ [_ H]]].
    apply book_appointment_locked_Ok in H.
    destruct H as [v [q [n [_ [_ [_ [_ [_ [Ha [_ Hfire]]]]]]]]]].
    apply update_slot_availability_insert in Hfire.
    destruct Hfire as [_ [_ [Happ _]]].
    split; [exact Happ |]. split; [subst a; reflexivity |].
    split; [subst a; reflexivity |].
    intros s' Hs' Hid'.
    destruct (Forall2_In_right _ _ _ _ HF Hs') as [s [_ Hrel]].
    destruct (TimeSlot.id s =? slot) eqn:E.
    + tauto.
    + subst s'. apply Z.eqb_neq in E. contradiction.
  - left. exists e. reflexivity.
Qed.

(** C4.  The handler of [api/appointments/book] asks the database to
    lock the slot in one request and to insert the appointment in a
    later one.  After the first request the committed database has slot
    501 unavailable and no appointment on it, and the availability
    endpoint no longer offers the slot.  When the insert then fails (here
    the queue number has no '-', so the sequence is NaN), the slot is
    whatever [unlock_time_slot] makes of that state. *)
Theorem book_handler_exposes_slot_without_appointment
  (generateQueueNumber : Plan.database -> uuid -> date -> string)
  (unlock_time_slot : uuid -> Plan.database -> Plan.database) :
  let req := Plan.mk_request 11 1 501 None in
  let step := Plan.handler_step generateQueueNumber unlock_time_slot 20000 1001 req in
  let s1 := step Plan.h_received Plan.sample in
  map TimeSlot.id (Plan.availability 1 20000 Plan.sample) = [501] /\
  (exists slot, fst s1 = Plan.h_locked slot) /\
  map (fun s => (TimeSlot.id s, TimeSlot.is_available s))
    (Plan.time_slots (snd s1)) = [(501, false)] /\
  Plan.appointments (snd s1) = [] /\
  Plan.availability 1 20000 (snd s1) = [] /\
  (let step' := Plan.handler_step (fun _ _ _ => "A001") unlock_time_slot
                  20000 1001 req in
   let s2 := step' (fst s1) (snd s1) in
   let s3 := step' (fst s2) (snd s2) in
   let s4 := step' (fst s3) (snd s3) in
   fst s3 = Plan.h_insert_failed /\
   fst s4 = Plan.h_responded 500 None /\
   snd s4 = unlock_time_slot 501 (snd s1)).
Proof.
  simpl. split; [reflexivity |]. split; [eexists; reflexivity |].
  repeat split; reflexivity.
Qed.

(* ------------------------------------------------------------------ *)
(** ** The theorems at work on the sample clinic                        *)
(* ------------------------------------------------------------------ *)

Example three_callers_one_slot :
  map outcome (sys_returned (run sample_schedule (start sample_db sample_calls)))
  = [Err slot_not_available; Ok "A001"; Err lock_not_available].
Proof. reflexivity. Qed.

Lemma sample_reservation :
  book_appointment sample_now 1001 no_locks sample_db 11 1 101 consultation None
  = Ok (sample_appointment, sample_db_reserved).
Proof. vm_compute. reflexivity. Qed.

Lemma one_holder_per_slot_witness :
  one_winner (sys_returned (run sample_schedule (start sample_db sample_calls))) /\
  (exactly_one_winner
     (sys_returned (run sample_schedule (start sample_db sample_calls))) /\
   List.length (sys_returned (run sample_schedule (start sample_db sample_calls)))
     = 3%nat) /\
  (List.length (holders sample_db_rebooked 101%Z) <= 1)%nat.
Proof.
  split; [| split].
  - apply (proj1 one_holder_per_slot 101 sample_db sample_calls sample_schedule).
    intros c [<- | [<- | [<- | []]]]; reflexivity.
  - apply (proj1 (proj2 one_holder_per_slot) 101 sample_db sample_calls
             sample_schedule).
    + discriminate.
    + intros c [<- | [<- | [<- | []]]]; (split; [reflexivity |]);
        eexists; eexists; vm_compute; reflexivity.
    + reflexivity.
  - apply (proj2 (proj2 one_holder_per_slot) sample_db sample_db_rebooked 101).
    + apply slot_invariant_no_appointments. reflexivity.
    + exact sample_db_rebooked_reachable.
Defined.

Lemma advance_calls_lowest_arrived_handler_skips_earlier_bookings_witness :
  (exists q db',
      advance_queue first_now sample_db_two_arrived 1 = Ok (q, db') /\
      show_queue db' = [(1001, in_consultation, Some first_now); (1002, arrived, None)]) /\
  advance_queue first_now sample_db 1 = Ok (None, sample_db) /\
  (exists v db',
      QueueNext.handler first_now (first_now + 1) (first_now + 2) 1
        QueueNext.sample_walk_in
      = (QueueNext.json_called (QueueNext.queue_number v) (QueueNext.patient_id v),
         db') /\
      In v (QueueNext.created_today first_now 1 QueueNext.sample_walk_in)) /\
  QueueNext.handler first_now (first_now + 1) (first_now + 2) 2
    QueueNext.sample_walk_in
  = (QueueNext.json_error 404 "No patients in queue", QueueNext.sample_walk_in).
Proof.
  split; [| split; [| split]].
  - destruct (proj1 advance_calls_lowest_arrived_handler_skips_earlier_bookings
                first_now sample_db_two_arrived 1)
      as [v [q [db' [Hadv _]]]].
    + vm_compute. discriminate.
    + exists q, db'. split; [exact Hadv |].
      vm_compute in Hadv. injection Hadv as _ <-. reflexivity.
  - apply (proj1 (proj2 advance_calls_lowest_arrived_handler_skips_earlier_bookings)
             first_now sample_db 1).
    reflexivity.
  - destruct (proj1 (proj2 (proj2
                advance_calls_lowest_arrived_handler_skips_earlier_bookings))
                first_now (first_now + 1) (first_now + 2) 1
                QueueNext.sample_walk_in)
      as [v [db' [Hh [Hin _]]]].
    + vm_compute. discriminate.
    + exists v, db'. split; [exact Hh | exact Hin].
  - apply (proj1 (proj2 (proj2 (proj2
             advance_calls_lowest_arrived_handler_skips_earlier_bookings)))
             first_now (first_now + 1) (first_now + 2) 2 QueueNext.sample_walk_in).
    reflexivity.
Defined.

Lemma reserve_raises_one_exception_witness :
  book_appointment sample_now 1001 no_locks sample_db 11 1 999 consultation None
    = Err slot_not_available /\
  exists s,
    find (fun s => TimeSlot.id s =? 101) (time_slots sample_db) = Some s /\
    DATE sample_now <= TimeSlot.slot_date s /\
    Appointment.doctor_id sample_appointment = 1 /\
    Appointment.time_slot_id sample_appointment = 101.
Proof.
  split.
  - apply (proj1 (reserve_raises_one_exception sample_now 1001 no_locks
                    sample_db 11 1 999 consultation None)).
    left. reflexivity.
  - apply (proj2 (proj2 (reserve_raises_one_exception sample_now 1001 no_locks
                           sample_db 11 1 101 consultation None))
             sample_appointment sample_db_reserved).
    vm_compute. reflexivity.
Defined.


Lemma reserve_counts_and_closes_slot_witness :
  Forall2
    (fun s s' =>
       if TimeSlot.id s =? 301
       then s' = TimeSlot.set_availability false (TimeSlot.booked_count s + 1) s
            /\ TimeSlot.is_available s' = false
            /\ TimeSlot.booked_count s' = TimeSlot.booked_count s + 1
            /\ TimeSlot.booked_count s < TimeSlot.max_patients s
            /\ TimeSlot.booked_count s' <= TimeSlot.max_patients s'
       else s' = s)
    (time_slots group_db) (time_slots group_db_booked) /\
  (exists s, In s (time_slots group_db) /\ TimeSlot.id s = 301) /\
  (forall now' new_id' locked' p' d' t' notes',
      exists e,
        book_appointment now' new_id' locked' group_db_booked p' d' 301 t' notes'
        = Err e).
Proof.
  eapply (reserve_counts_and_closes_slot sample_now 1001 no_locks group_db
            11 1 301 consultation None _ group_db_booked).
  vm_compute. reflexivity.
Defined.

Lemma booked_count_within_bounds_witness :
  slots_within_capacity sample_db /\
  slots_within_capacity (after_triggers sample_events sample_db) /\
  map TimeSlot.booked_count (time_slots (after_triggers sample_events sample_db))
    = [0; 0; 0; 0; 0].
Proof.
  assert (H : slots_within_capacity sample_db).
  { unfold slots_within_capacity, slot_within_capacity. simpl.
    repeat (apply Forall_cons; [simpl; lia |]). apply Forall_nil. }
  split; [exact H |].
  split; [exact (booked_count_within_bounds sample_events sample_db H) |].
  reflexivity.
Defined.

(* ------------------------------------------------------------------ *)
(** ** The NRIC check letter                                            *)
(* ------------------------------------------------------------------ *)

Lemma string_eqb_single (c k : ascii) :
  String.eqb (String c EmptyString) (String k EmptyString) = Ascii.eqb c k.
Proof. simpl. destruct (Ascii.eqb c k); reflexivity. Qed.

Lemma text_in_single (c : ascii) (a b : ascii) :
  text_in (String c EmptyString) [String a EmptyString; String b EmptyString]
  = Ascii.eqb c a || Ascii.eqb c b.
Proof.
  unfold text_in. cbn [existsb]. rewrite !string_eqb_single, orb_false_r.
  reflexivity.
Qed.

Lemma nric_weighted_sum_chars (c0 d1 d2 d3 d4 d5 d6 d7 c8 : ascii) :
  nric_weighted_sum (nric_string c0 [d1; d2; d3; d4; d5; d6; d7] c8)
  = weighted [d1; d2; d3; d4; d5; d6; d7] v_weights.
Proof.
  unfold nric_weighted_sum, nric_string, weighted, Number, v_weights, SUBSTRING.
  cbn [fold_left seq substring digits_value nth Nat.add Nat.sub app
       string_of_list_ascii].
  lia.
Qed.

(** [validate_nric] on a string written as prefix, digits, letter. *)
Lemma validate_nric_spec (c0 : ascii) (ds : list ascii) (c8 : ascii) :
  validate_nric (nric_string c0 ds c8) =
  Nat.eqb (List.length ds) 7 && is_STFG c0 && forallb is_digit ds && is_upper c8
  && String.eqb (String c8 EmptyString) (nric_check_letter c0 ds).
Proof.
  destruct ds as [| d1 [| d2 [| d3 [| d4 [| d5 [| d6 [| d7 [| d8 ds]]]]]]]];
    try reflexivity.
  - unfold validate_nric. rewrite nric_weighted_sum_chars.
    unfold matches_nric_pattern, nric_string.
    cbn [app string_of_list_ascii list_ascii_of_string List.length Nat.eqb andb].
    destruct (is_STFG c0 && forallb is_digit [d1; d2; d3; d4; d5; d6; d7]
              && is_upper c8); [| reflexivity].
    cbn [negb andb].
    change (SUBSTRING (String c0 (String d1 (String d2 (String d3 (String d4
              (String d5 (String d6 (String d7 (String c8 ""))))))))) 9 1)
      with (String c8 "").
    change (SUBSTRING (String c0 (String d1 (String d2 (String d3 (String d4
              (String d5 (String d6 (String d7 (String c8 ""))))))))) 1 1)
      with (String c0 "").
    rewrite !text_in_single. unfold nric_check_letter, nric_offset.
    destruct (Ascii.eqb c0 "S" || Ascii.eqb c0 "T"); reflexivity.
  - unfold validate_nric, matches_nric_pattern, nric_string.
    cbn [app string_of_list_ascii list_ascii_of_string List.length Nat.eqb andb].
    destruct ds; reflexivity.
Qed.

Lemma matches_nric_pattern_chars (s : string) :
  matches_nric_pattern s = true ->
  exists c0 ds c8,
    s = nric_string c0 ds c8 /\ List.length ds = 7%nat /\
    is_STFG c0 = true /\ forallb is_digit ds = true /\ is_upper c8 = true.
Proof.
  unfold matches_nric_pattern. intros H.
  rewrite <- (string_of_list_ascii_of_string s).
  destruct (list_ascii_of_string s)
    as [| c0 [| d1 [| d2 [| d3 [| d4 [| d5 [| d6 [| d7 [| c8 [| x l]]]]]]]]]];
    try discriminate H.
  apply andb_true_iff in H. destruct H as [H Hup].
  apply andb_true_iff in H. destruct H as [Hc0 Hds].
  exists c0, [d1; d2; d3; d4; d5; d6; d7], c8.
  repeat split; assumption || reflexivity.
Qed.

Lemma validate_nric_chars (s : string) :
  validate_nric s = true ->
  exists c0 ds c8,
    s = nric_string c0 ds c8 /\ List.length ds = 7%nat /\
    is_STFG c0 = true /\ forallb is_digit ds = true /\ is_upper c8 = true /\
    nric_check_letter c0 ds = String c8 EmptyString.
Proof.
  intros H.
  assert (Hp : matches_nric_pattern s = true).
  { unfold validate_nric in H. destruct (matches_nric_pattern s);
      [reflexivity | discriminate H]. }
  destruct (matches_nric_pattern_chars s Hp) as [c0 [ds [c8 [-> [Hlen [H0 [Hd H8]]]]]]].
  exists c0, ds, c8. repeat (split; [assumption || reflexivity |]).
  rewrite validate_nric_spec in H. rewrite Hlen, H0, Hd, H8 in H.
  cbn [Nat.eqb andb] in H.
  apply String.eqb_eq in H. symmetry. exact H.
Qed.

Lemma Number_digit (d : ascii) : is_digit d = true -> 0 <= Number d <= 9.
Proof.
  unfold is_digit, Number. intros H. apply andb_true_iff in H.
  destruct H as [Hlo Hhi]. apply Nat.leb_le in Hlo. apply Nat.leb_le in Hhi. lia.
Qed.

Lemma Number_inj (d d' : ascii) : Number d = Number d' -> d = d'.
Proof.
  unfold Number. intros H.
  assert (Hn : nat_of_ascii d = nat_of_ascii d') by lia.
  rewrite <- (ascii_nat_embedding d), <- (ascii_nat_embedding d'), Hn. reflexivity.
Qed.

Lemma weighted_nonneg (ds : list ascii) (ws : list Z) :
  forallb is_digit ds = true -> Forall (fun w => 0 <= w) ws ->
  0 <= weighted ds ws.
Proof.
  revert ws. induction ds as [| d ds IH]; intros ws Hd Hw; simpl; [lia |].
  destruct ws as [| w ws]; [lia |].
  simpl in Hd. apply andb_true_iff in Hd. destruct Hd as [Hd Hds].
  inversion Hw; subst. pose proof (Number_digit d Hd).
  pose proof (IH ws Hds H2). nia.
Qed.

Lemma v_weights_nonneg : Forall (fun w => 0 <= w) v_weights.
Proof. unfold v_weights. repeat constructor; lia. Qed.

(** The remainder that picks the check letter. *)
Lemma nric_remainder_bounds (c0 : ascii) (ds : list ascii) :
  forallb is_digit ds = true ->
  0 <= Z.rem (weighted ds v_weights + nric_offset c0) 11 < 11.
Proof.
  intros Hd. apply Z.rem_bound_pos; [| lia].
  pose proof (weighted_nonneg ds v_weights Hd v_weights_nonneg).
  unfold nric_offset. destruct (Ascii.eqb c0 "T" || Ascii.eqb c0 "G"); lia.
Qed.

Ltac remainder_cases r :=
  let H := fresh "Hcase" in
  assert (H : r = 0 \/ r = 1 \/ r = 2 \/ r = 3 \/ r = 4 \/ r = 5 \/
              r = 6 \/ r = 7 \/ r = 8 \/ r = 9 \/ r = 10) by lia;
  destruct H as [-> | [-> | [-> | [-> | [-> | [-> | [-> | [-> | [-> | [-> | ->]]]]]]]]]].

(** Each table holds eleven different capital letters. *)
Lemma check_letter_upper (table : string) (r : Z) :
  table = v_letters_st \/ table = v_letters_fg -> 0 <= r < 11 ->
  exists k, SUBSTRING table (Z.to_nat (r + 1)) 1 = String k EmptyString /\
            is_upper k = true.
Proof.
  intros [-> | ->] Hr; remainder_cases r; eexists; split; reflexivity.
Qed.

Lemma check_letter_inj (table : string) (r r' : Z) :
  table = v_letters_st \/ table = v_letters_fg ->
  0 <= r < 11 -> 0 <= r' < 11 ->
  SUBSTRING table (Z.to_nat (r + 1)) 1 = SUBSTRING table (Z.to_nat (r' + 1)) 1 ->
  r = r'.
Proof.
  intros [-> | ->] Hr Hr' H; remainder_cases r; remainder_cases r';
    (reflexivity || discriminate H).
Qed.

Lemma check_letter_tables_disjoint (r r' : Z) :
  0 <= r < 11 -> 0 <= r' < 11 ->
  SUBSTRING v_letters_st (Z.to_nat (r + 1)) 1
  <> SUBSTRING v_letters_fg (Z.to_nat (r' + 1)) 1.
Proof.
  intros Hr Hr' H; remainder_cases r; remainder_cases r'; discriminate H.
Qed.

(** X1.  Whatever the prefix letter and the seven digits, exactly one
    final letter makes [validate_nric] accept the number. *)
Theorem validate_nric_one_check_letter (c0 : ascii) (ds : list ascii) :
  is_STFG c0 = true -> List.length ds = 7%nat -> forallb is_digit ds = true ->
  exists c8,
    validate_nric (nric_string c0 ds c8) = true /\
    forall c, validate_nric (nric_string c0 ds c) = true -> c = c8.
Proof.
  intros H0 Hlen Hd.
  destruct (check_letter_upper
              (if Ascii.eqb c0 "S" || Ascii.eqb c0 "T" then v_letters_st
               else v_letters_fg)
              (Z.rem (weighted ds v_weights + nric_offset c0) 11))
    as [k [Hk Hup]].
  - destruct (Ascii.eqb c0 "S" || Ascii.eqb c0 "T"); [left | right]; reflexivity.
  - exact (nric_remainder_bounds c0 ds Hd).
  - fold (nric_check_letter c0 ds) in Hk. exists k. split.
    + rewrite validate_nric_spec, Hlen, H0, Hd, Hup, Hk. cbn [Nat.eqb andb].
      apply String.eqb_refl.
    + intros c Hc. rewrite validate_nric_spec, Hlen, H0, Hd, Hk in Hc.
      cbn [Nat.eqb andb] in Hc. apply andb_true_iff in Hc. destruct Hc as [_ Hc].
      rewrite string_eqb_single in Hc. apply Ascii.eqb_eq in Hc. exact Hc.
Qed.

Lemma validate_nric_true (c0 : ascii) (ds : list ascii) (c8 : ascii) :
  validate_nric (nric_string c0 ds c8) = true <->
  List.length ds = 7%nat /\ is_STFG c0 = true /\ forallb is_digit ds = true /\
  is_upper c8 = true /\ nric_check_letter c0 ds = String c8 EmptyString.
Proof.
  rewrite validate_nric_spec, !andb_true_iff, Nat.eqb_eq, String.eqb_eq.
  split.
  - intros [[[[H1 H2] H3] H4] H5]. repeat split; try assumption.
    symmetry. exact H5.
  - intros [H1 [H2 [H3 [H4 H5]]]]. repeat split; try assumption.
    symmetry. exact H5.
Qed.

Lemma weighted_replace (pre post : list ascii) (d d' : ascii) (ws : list Z) :
  weighted (pre ++ d :: post) ws - weighted (pre ++ d' :: post) ws
  = (Number d - Number d') * nth (List.length pre) ws 0.
Proof.
  revert ws. induction pre as [| p pre IH]; intros [| w ws]; simpl; try lia.
  specialize (IH ws). lia.
Qed.

Lemma weighted_swap (pre post : list ascii) (a b : ascii) (ws : list Z) :
  weighted (pre ++ a :: b :: post) ws - weighted (pre ++ b :: a :: post) ws
  = (Number a - Number b)
    * (nth (List.length pre) ws 0 - nth (S (List.length pre)) ws 0).
Proof.
  revert ws. induction pre as [| p pre IH]; intros [| w ws]; simpl; try lia.
  - destruct ws as [| w' ws]; simpl; lia.
  - specialize (IH ws). lia.
Qed.

Lemma rem_11_eq (x y : Z) :
  0 <= x -> 0 <= y -> Z.rem x 11 = Z.rem y 11 -> exists t, x - y = 11 * t.
Proof.
  intros Hx Hy H. rewrite !Z.rem_mod_nonneg in H by lia.
  exists (x / 11 - y / 11).
  pose proof (Z.div_mod x 11 ltac:(lia)). pose proof (Z.div_mod y 11 ltac:(lia)).
  lia.
Qed.

(** Two digit strings with the same prefix letter and the same check
    letter have weighted sums that differ by a multiple of 11. *)
Lemma same_check_letter (c0 : ascii) (ds ds' : list ascii) :
  forallb is_digit ds = true -> forallb is_digit ds' = true ->
  nric_check_letter c0 ds = nric_check_letter c0 ds' ->
  exists t, weighted ds v_weights - weighted ds' v_weights = 11 * t.
Proof.
  intros Hd Hd' H. unfold nric_check_letter in H.
  apply check_letter_inj in H.
  - pose proof (weighted_nonneg ds v_weights Hd v_weights_nonneg).
    pose proof (weighted_nonneg ds' v_weights Hd' v_weights_nonneg).
    assert (Hoff : 0 <= nric_offset c0)
      by (unfold nric_offset; destruct (Ascii.eqb c0 "T" || Ascii.eqb c0 "G"); lia).
    apply rem_11_eq in H; [| lia | lia].
    destruct H as [t Ht]. exists t. lia.
  - destruct (Ascii.eqb c0 "S" || Ascii.eqb c0 "T"); [left | right]; reflexivity.
  - exact (nric_remainder_bounds c0 ds Hd).
  - exact (nric_remainder_bounds c0 ds' Hd').
Qed.

Lemma forallb_middle (pre post : list ascii) (d : ascii) :
  forallb is_digit (pre ++ d :: post) = true -> is_digit d = true.
Proof.
  rewrite forallb_app. simpl. rewrite !andb_true_iff. tauto.
Qed.

Ltac position_cases pre Hlen :=
  destruct pre as [| ? [| ? [| ? [| ? [| ? [| ? [| ? pre]]]]]]];
  simpl in Hlen; try lia.

(** X2.  [validate_nric] catches every single wrong digit: a number it
    accepts is rejected once any one of its seven digits is replaced by
    another character. *)
Theorem validate_nric_detects_wrong_digit (c0 c8 : ascii)
  (pre post : list ascii) (d d' : ascii) :
  d <> d' ->
  validate_nric (nric_string c0 (pre ++ d :: post) c8) = true ->
  validate_nric (nric_string c0 (pre ++ d' :: post) c8) = false.
Proof.
  intros Hne H.
  destruct (validate_nric (nric_string c0 (pre ++ d' :: post) c8)) eqn:H';
    [exfalso | reflexivity].
  apply validate_nric_true in H. apply validate_nric_true in H'.
  destruct H as [Hlen [_ [Hd [_ Hk]]]]. destruct H' as [_ [_ [Hd' [_ Hk']]]].
  destruct (same_check_letter c0 _ _ Hd Hd' (eq_trans Hk (eq_sym Hk'))) as [t Ht].
  rewrite weighted_replace in Ht.
  pose proof (Number_digit d (forallb_middle _ _ _ Hd)).
  pose proof (Number_digit d' (forallb_middle _ _ _ Hd')).
  assert (Hnum : Number d <> Number d')
    by (intros Hc; apply Hne; exact (Number_inj _ _ Hc)).
  rewrite length_app in Hlen. simpl in Hlen.
  unfold v_weights in Ht.
  position_cases pre Hlen; cbn [nth List.length] in Ht; lia.
Qed.

(** X3.  [validate_nric] catches every swap of two neighbouring digits
    that differ. *)
Theorem validate_nric_detects_swapped_digits (c0 c8 : ascii)
  (pre post : list ascii) (a b : ascii) :
  a <> b ->
  validate_nric (nric_string c0 (pre ++ a :: b :: post) c8) = true ->
  validate_nric (nric_string c0 (pre ++ b :: a :: post) c8) = false.
Proof.
  intros Hne H.
  destruct (validate_nric (nric_string c0 (pre ++ b :: a :: post) c8)) eqn:H';
    [exfalso | reflexivity].
  apply validate_nric_true in H. apply validate_nric_true in H'.
  destruct H as [Hlen [_ [Hd [_ Hk]]]]. destruct H' as [_ [_ [Hd' [_ Hk']]]].
  destruct (same_check_letter c0 _ _ Hd Hd' (eq_trans Hk (eq_sym Hk'))) as [t Ht].
  rewrite weighted_swap in Ht.
  pose proof (Number_digit a (forallb_middle _ _ _ Hd)).
  pose proof (Number_digit b (forallb_middle _ _ _ Hd')).
  assert (Hnum : Number a <> Number b)
    by (intros Hc; apply Hne; exact (Number_inj _ _ Hc)).
  rewrite length_app in Hlen. simpl in Hlen.
  unfold v_weights in Ht.
  position_cases pre Hlen; cbn [nth List.length] in Ht; lia.
Qed.

Lemma validate_nric_one_check_letter_witness :
  exists c8,
    validate_nric (nric_string "S" sample_digits c8) = true /\
    forall c, validate_nric (nric_string "S" sample_digits c) = true -> c = c8.
Proof.
  apply (validate_nric_one_check_letter "S" sample_digits); reflexivity.
Defined.

Lemma validate_nric_detects_wrong_digit_witness :
  validate_nric "S1234567H" = true /\ validate_nric "S1239567H" = false.
Proof.
  split; [reflexivity |].
  apply (validate_nric_detects_wrong_digit "S" "H" ["1"; "2"; "3"]%char
           ["5"; "6"; "7"]%char "4" "9").
  - discriminate.
  - reflexivity.
Defined.

Lemma validate_nric_detects_swapped_digits_witness :
  validate_nric "S1234567H" = true /\ validate_nric "S1243567H" = false.
Proof.
  split; [reflexivity |].
  apply (validate_nric_detects_swapped_digits "S" "H" ["1"; "2"]%char
           ["5"; "6"; "7"]%char "3" "4").
  - discriminate.
  - reflexivity.
Defined.

(* ------------------------------------------------------------------ *)
(** ** The form validator against the database validator                *)
(* ------------------------------------------------------------------ *)

Lemma nricSchema_sum (d1 d2 d3 d4 d5 d6 d7 : ascii) :
  fold_left
    (fun sum i =>
       sum + nth i (map Number [d1; d2; d3; d4; d5; d6; d7]) 0
             * nth i [2; 7; 6; 5; 4; 3; 2] 0)
    (seq 0 7) 0
  = weighted [d1; d2; d3; d4; d5; d6; d7] v_weights.
Proof.
  unfold weighted, v_weights. cbn [fold_left seq nth map]. lia.
Qed.

Lemma check_letter_get (r : Z) (c : ascii) :
  0 <= r < 11 ->
  match String.get (Z.to_nat r) "ABCDEFGHIZJ" with
  | Some k => Ascii.eqb c k
  | None => false
  end
  = String.eqb (String c EmptyString) (SUBSTRING v_letters_st (Z.to_nat (r + 1)) 1).
Proof.
  intros Hr.
  remainder_cases r;
    (etransitivity; [| symmetry; apply string_eqb_single]); reflexivity.
Qed.

(** [nricSchema] on a string written as prefix, digits, letter. *)
Lemma nricSchema_spec (c0 : ascii) (ds : list ascii) (c8 : ascii) :
  nricSchema (nric_string c0 ds c8) =
  Nat.eqb (List.length ds) 7 && is_STFG (toUpperCase c0) && forallb is_digit ds
  && (is_upper c8 || is_lower c8)
  && String.eqb (String (toUpperCase c8) EmptyString)
       (SUBSTRING v_letters_st
          (Z.to_nat (Z.rem (weighted ds v_weights + nric_offset (toUpperCase c0)) 11 + 1))
          1).
Proof.
  destruct ds as [| d1 [| d2 [| d3 [| d4 [| d5 [| d6 [| d7 [| d8 ds]]]]]]]];
    try reflexivity.
  - unfold nricSchema, test_nric_pattern, nric_string.
    cbn [app string_of_list_ascii list_ascii_of_string List.length Nat.eqb andb].
    destruct (is_STFG (toUpperCase c0)) eqn:H0; [| reflexivity].
    destruct (forallb is_digit [d1; d2; d3; d4; d5; d6; d7]) eqn:Hd; [| reflexivity].
    destruct (is_upper c8 || is_lower c8); [| reflexivity].
    cbn [negb andb].
    change (slice_chars (String c0 (String d1 (String d2 (String d3 (String d4
              (String d5 (String d6 (String d7 (String c8 ""))))))))) 1 8)
      with [d1; d2; d3; d4; d5; d6; d7].
    rewrite nricSchema_sum.
    change (String.get 0 (String c0 (String d1 (String d2 (String d3 (String d4
              (String d5 (String d6 (String d7 (String c8 ""))))))))))
      with (Some c0).
    change (String.get 8 (String c0 (String d1 (String d2 (String d3 (String d4
              (String d5 (String d6 (String d7 (String c8 ""))))))))))
      with (Some c8).
    cbn [option_map].
    pose proof (nric_remainder_bounds (toUpperCase c0) _ Hd) as Hr.
    unfold nric_offset in *.
    destruct (Ascii.eqb (toUpperCase c0) "T" || Ascii.eqb (toUpperCase c0) "G");
      [| rewrite Z.add_0_r in Hr |- *]; apply check_letter_get; exact Hr.
  - unfold nricSchema, test_nric_pattern, nric_string.
    cbn [app string_of_list_ascii list_ascii_of_string List.length Nat.eqb andb].
    destruct ds; reflexivity.
Qed.

Lemma toUpperCase_not_lower (c : ascii) : is_lower c = false -> toUpperCase c = c.
Proof. unfold toUpperCase. intros ->. reflexivity. Qed.

Lemma is_upper_not_lower (c : ascii) : is_upper c = true -> is_lower c = false.
Proof.
  unfold is_upper, is_lower. intros H. apply andb_true_iff in H.
  destruct H as [_ H]. apply Nat.leb_le in H.
  apply andb_false_iff. left. apply Nat.leb_gt. lia.
Qed.

Lemma is_digit_not_lower (c : ascii) : is_digit c = true -> is_lower c = false.
Proof.
  unfold is_digit, is_lower. intros H. apply andb_true_iff in H.
  destruct H as [_ H]. apply Nat.leb_le in H.
  apply andb_false_iff. left. apply Nat.leb_gt. lia.
Qed.

Lemma is_STFG_upper (c : ascii) : is_STFG c = true -> is_upper c = true.
Proof.
  unfold is_STFG. rewrite !orb_true_iff, !Ascii.eqb_eq.
  intros [[[-> | ->] | ->] | ->]; reflexivity.
Qed.

Lemma toUpperCase_upper (c : ascii) :
  is_upper c || is_lower c = true -> is_upper (toUpperCase c) = true.
Proof.
  unfold toUpperCase. destruct (is_lower c) eqn:Hl.
  - intros _. unfold is_lower in Hl. unfold is_upper.
    apply andb_true_iff in Hl. destruct Hl as [Hlo Hhi].
    apply Nat.leb_le in Hlo. apply Nat.leb_le in Hhi.
    rewrite nat_ascii_embedding by lia.
    apply andb_true_iff. split; apply Nat.leb_le; lia.
  - rewrite orb_false_r. intros H. exact H.
Qed.

Lemma prefix_in_ST (c0 : ascii) (ds : list ascii) (c8 : ascii) :
  text_in (SUBSTRING (nric_string c0 ds c8) 1 1) ["S"; "T"]
  = Ascii.eqb c0 "S" || Ascii.eqb c0 "T".
Proof.
  unfold nric_string, SUBSTRING. cbn [Nat.sub substring].
  replace (substring 0 0 (string_of_list_ascii (ds ++ [c8]))) with EmptyString
    by (destruct (string_of_list_ascii (ds ++ [c8])); reflexivity).
  apply text_in_single.
Qed.

(** X4.  A number the database function [validate_nric] accepts passes
    the form validator [nricSchema] exactly when it starts with S or T:
    the form validator looks every check letter up in the S/T table, so
    it rejects each F and G number the database accepts. *)
Theorem nricSchema_of_valid_nric (s : string) :
  validate_nric s = true ->
  nricSchema s = text_in (SUBSTRING s 1 1) ["S"; "T"].
Proof.
  intros H. apply validate_nric_chars in H.
  destruct H as [c0 [ds [c8 [-> [Hlen [H0 [Hd [H8 Hk]]]]]]]].
  rewrite nricSchema_spec, prefix_in_ST.
  rewrite (toUpperCase_not_lower c0)
    by (apply is_upper_not_lower, is_STFG_upper; exact H0).
  rewrite (toUpperCase_not_lower c8) by (apply is_upper_not_lower; exact H8).
  rewrite Hlen, H0, Hd, H8. cbn [Nat.eqb andb orb].
  rewrite <- Hk. unfold nric_check_letter.
  destruct (Ascii.eqb c0 "S" || Ascii.eqb c0 "T").
  - apply String.eqb_refl.
  - apply String.eqb_neq. intros Heq.
    apply (check_letter_tables_disjoint _ _
             (nric_remainder_bounds c0 ds Hd) (nric_remainder_bounds c0 ds Hd)).
    symmetry. exact Heq.
Qed.

Lemma nricSchema_of_valid_nric_witness :
  nricSchema "S1234567H" = true /\ nricSchema "F1234567T" = false.
Proof.
  split.
  - apply (nricSchema_of_valid_nric "S1234567H"). reflexivity.
  - change false with (text_in (SUBSTRING "F1234567T" 1 1) ["S"; "T"]).
    apply (nricSchema_of_valid_nric "F1234567T"). reflexivity.
Defined.

Lemma test_nric_pattern_chars (s : string) :
  test_nric_pattern s = true -> exists c0 ds c8, s = nric_string c0 ds c8.
Proof.
  unfold test_nric_pattern. intros H.
  rewrite <- (string_of_list_ascii_of_string s).
  destruct (list_ascii_of_string s)
    as [| c0 [| d1 [| d2 [| d3 [| d4 [| d5 [| d6 [| d7 [| c8 [| x l]]]]]]]]]];
    try discriminate H.
  exists c0, [d1; d2; d3; d4; d5; d6; d7], c8. reflexivity.
Qed.

Lemma map_toUpperCase_digits (ds : list ascii) :
  forallb is_digit ds = true -> map toUpperCase ds = ds.
Proof.
  induction ds as [| d ds IH]; intros H; [reflexivity |].
  simpl in H. apply andb_true_iff in H. destruct H as [Hd Hds].
  cbn [map]. rewrite (toUpperCase_not_lower d (is_digit_not_lower d Hd)), (IH Hds).
  reflexivity.
Qed.

Lemma string_toUpperCase_nric (c0 : ascii) (ds : list ascii) (c8 : ascii) :
  forallb is_digit ds = true ->
  string_toUpperCase (nric_string c0 ds c8)
  = nric_string (toUpperCase c0) ds (toUpperCase c8).
Proof.
  intros Hd. unfold string_toUpperCase, nric_string.
  cbn [list_ascii_of_string map string_of_list_ascii].
  rewrite list_ascii_of_string_of_list_ascii, map_app.
  rewrite (map_toUpperCase_digits ds Hd). reflexivity.
Qed.

(** X5.  A number the form validator [nricSchema] accepts is, once put
    in capitals, accepted by the database function [validate_nric]
    exactly when it starts with S or T: no F or G number satisfies both
    validators. *)
Theorem validate_nric_of_nricSchema (s : string) :
  nricSchema s = true ->
  validate_nric (string_toUpperCase s)
  = text_in (SUBSTRING (string_toUpperCase s) 1 1) ["S"; "T"].
Proof.
  intros H.
  assert (Hp : test_nric_pattern s = true).
  { unfold nricSchema in H. destruct (test_nric_pattern s);
      [reflexivity | discriminate H]. }
  destruct (test_nric_pattern_chars s Hp) as [c0 [ds [c8 ->]]].
  rewrite nricSchema_spec, !andb_true_iff in H.
  destruct H as [[[[Hlen H0] Hd] H8] Hk].
  rewrite (string_toUpperCase_nric c0 ds c8 Hd), validate_nric_spec, prefix_in_ST.
  rewrite Hlen, H0, Hd, (toUpperCase_upper c8 H8). cbn [andb].
  apply String.eqb_eq in Hk. rewrite Hk. unfold nric_check_letter.
  destruct (Ascii.eqb (toUpperCase c0) "S" || Ascii.eqb (toUpperCase c0) "T").
  - apply String.eqb_refl.
  - apply String.eqb_neq.
    apply (check_letter_tables_disjoint _ _
             (nric_remainder_bounds (toUpperCase c0) ds Hd)
             (nric_remainder_bounds (toUpperCase c0) ds Hd)).
Qed.

Lemma validate_nric_of_nricSchema_witness :
  validate_nric (string_toUpperCase "t1234567a") = true /\
  validate_nric (string_toUpperCase "g1234567A") = false.
Proof.
  split.
  - apply (validate_nric_of_nricSchema "t1234567a"). reflexivity.
  - change false
      with (text_in (SUBSTRING (string_toUpperCase "g1234567A") 1 1) ["S"; "T"]).
    apply (validate_nric_of_nricSchema "g1234567A"). reflexivity.
Defined.

(* ------------------------------------------------------------------ *)
(** ** Masking                                                          *)
(* ------------------------------------------------------------------ *)

(** X6.  On a nine-character NRIC the database mask [mask_nric] and the
    server mask [maskNRIC] show the same five characters, the first one
    and the last four, and nothing of the four in between; the database
    puts four stars in their place and the server three X. *)
Theorem masks_show_first_and_last_four (s : string) :
  String.length s = 9%nat ->
  exists c0 hidden shown,
    s = String c0 (String.append hidden shown) /\
    String.length hidden = 4%nat /\ String.length shown = 4%nat /\
    mask_nric s = String c0 (String.append "****" shown) /\
    maskNRIC s = String c0 (String.append "XXX" shown).
Proof.
  intros Hlen. rewrite <- (string_of_list_ascii_of_string s) in Hlen |- *.
  destruct (list_ascii_of_string s)
    as [| c0 [| d1 [| d2 [| d3 [| d4 [| d5 [| d6 [| d7 [| c8 [| x l]]]]]]]]]];
    try discriminate Hlen.
  exists c0, (string_of_list_ascii [d1; d2; d3; d4]),
    (string_of_list_ascii [d5; d6; d7; c8]).
  repeat split; reflexivity.
Qed.

Lemma masks_show_first_and_last_four_witness :
  exists c0 hidden shown,
    "S1234567H" = String c0 (String.append hidden shown) /\
    String.length hidden = 4%nat /\ String.length shown = 4%nat /\
    mask_nric "S1234567H" = String c0 (String.append "****" shown) /\
    maskNRIC "S1234567H" = String c0 (String.append "XXX" shown).
Proof. apply (masks_show_first_and_last_four "S1234567H"). reflexivity. Defined.

(* ------------------------------------------------------------------ *)
(** ** CHAS subsidy                                                     *)
(* ------------------------------------------------------------------ *)

Lemma floor_of_percentage (tier : Chas.chas_tier) (total : Z) :
  Qfloor (inject_Z total * Chas.subsidy_percentage tier)%Q
  = total * Chas.hundredths tier / 100.
Proof.
  destruct tier; unfold Qfloor, Qmult, inject_Z, Chas.subsidy_percentage,
    Chas.hundredths; cbn [Qnum Qden];
    try reflexivity; rewrite !Z.mul_0_r; reflexivity.
Qed.

Lemma hundredths_bounds (tier : Chas.chas_tier) : 0 <= Chas.hundredths tier <= 80.
Proof. destruct tier; simpl; lia. Qed.

(** The function as arithmetic on integers: it raises nothing on an
    INTEGER amount. *)
Lemma calculate_chas_subsidy_value (tier : Chas.chas_tier) (total : Z) :
  int4_min <= total <= int4_max ->
  Chas.calculate_chas_subsidy tier total
  = Ok (Z.min (total * Chas.hundredths tier / 100) 5000).
Proof.
  intros Ht. unfold Chas.calculate_chas_subsidy.
  rewrite floor_of_percentage.
  pose proof (hundredths_bounds tier) as Hh.
  pose proof (Z.div_mod (total * Chas.hundredths tier) 100 ltac:(lia)) as Hdm.
  pose proof (Z.mod_pos_bound (total * Chas.hundredths tier) 100 ltac:(lia)) as Hr.
  unfold int4_min, int4_max in Ht.
  rewrite int4_in_range by (unfold int4_min, int4_max; nia).
  cbn [bind]. f_equal.
  destruct (Z.gtb_spec (total * Chas.hundredths tier / 100) 5000); lia.
Qed.

(** X7.  For an amount that is not negative the subsidy lies between
    zero and the amount and never exceeds 5000 cents, so that a claim
    with this subsidy and the rest as the patient's share passes the
    check [valid_amounts] of [chas_claims]. *)
Theorem chas_subsidy_passes_valid_amounts (tier : Chas.chas_tier) (total : Z) :
  0 <= total <= int4_max ->
  exists subsidy,
    Chas.calculate_chas_subsidy tier total = Ok subsidy /\
    0 <= subsidy <= total /\ subsidy <= 5000 /\
    Chas.valid_amounts total subsidy (total - subsidy) = true.
Proof.
  intros Ht.
  rewrite calculate_chas_subsidy_value by (unfold int4_min; lia).
  eexists. split; [reflexivity |].
  pose proof (hundredths_bounds tier) as Hh.
  pose proof (Z.div_mod (total * Chas.hundredths tier) 100 ltac:(lia)) as Hdm.
  pose proof (Z.mod_pos_bound (total * Chas.hundredths tier) 100 ltac:(lia)) as Hr.
  assert (Hq : 0 <= total * Chas.hundredths tier / 100 <= total) by nia.
  assert (Hs : 0 <= Z.min (total * Chas.hundredths tier / 100) 5000 <= total) by lia.
  split; [exact Hs |]. split; [lia |].
  unfold Chas.valid_amounts.
  rewrite !andb_true_iff, !Z.geb_le, Z.eqb_eq. lia.
Qed.

Lemma chas_subsidy_passes_valid_amounts_witness :
  exists subsidy,
    Chas.calculate_chas_subsidy Chas.blue 3850 = Ok subsidy /\
    0 <= subsidy <= 3850 /\ subsidy <= 5000 /\
    Chas.valid_amounts 3850 subsidy (3850 - subsidy) = true.
Proof.
  apply (chas_subsidy_passes_valid_amounts Chas.blue 3850).
  unfold int4_max. lia.
Defined.

(** X8.  A larger bill never lowers the subsidy and never lowers what
    the patient pays. *)
Theorem chas_subsidy_monotone (tier : Chas.chas_tier) (total total' : Z) :
  int4_min <= total -> total <= total' -> total' <= int4_max ->
  exists subsidy subsidy',
    Chas.calculate_chas_subsidy tier total = Ok subsidy /\
    Chas.calculate_chas_subsidy tier total' = Ok subsidy' /\
    subsidy <= subsidy' /\ total - subsidy <= total' - subsidy'.
Proof.
  intros Hlo Hle Hhi.
  rewrite !calculate_chas_subsidy_value by lia.
  eexists. eexists. split; [reflexivity |]. split; [reflexivity |].
  pose proof (Z.div_mod (total * Chas.hundredths tier) 100 ltac:(lia)) as Hdm.
  pose proof (Z.mod_pos_bound (total * Chas.hundredths tier) 100 ltac:(lia)) as Hr.
  pose proof (Z.div_mod (total' * Chas.hundredths tier) 100 ltac:(lia)) as Hdm'.
  pose proof (Z.mod_pos_bound (total' * Chas.hundredths tier) 100 ltac:(lia)) as Hr'.
  destruct tier; cbn [Chas.hundredths] in *; lia.
Qed.

Lemma chas_subsidy_monotone_witness :
  exists subsidy subsidy',
    Chas.calculate_chas_subsidy Chas.pioneer 6000 = Ok subsidy /\
    Chas.calculate_chas_subsidy Chas.pioneer 9000 = Ok subsidy' /\
    subsidy <= subsidy' /\ 6000 - subsidy <= 9000 - subsidy'.
Proof.
  apply (chas_subsidy_monotone Chas.pioneer 6000 9000);
    unfold int4_min, int4_max; lia.
Defined.

(** X9.  The function has no guard on the sign of the amount: for a
    negative amount and a tier that has a percentage the subsidy is
    negative, and such a subsidy fails [valid_amounts] whatever the
    patient's share. *)
Theorem chas_subsidy_negative (tier : Chas.chas_tier) (total payable : Z) :
  int4_min <= total -> total < 0 -> (0 < Chas.subsidy_percentage tier)%Q ->
  exists subsidy,
    Chas.calculate_chas_subsidy tier total = Ok subsidy /\
    subsidy < 0 /\
    Chas.valid_amounts total subsidy payable = false.
Proof.
  intros Hlo Hneg Hpct.
  rewrite calculate_chas_subsidy_value by (unfold int4_max; lia).
  eexists. split; [reflexivity |].
  pose proof (Z.div_mod (total * Chas.hundredths tier) 100 ltac:(lia)) as Hdm.
  pose proof (Z.mod_pos_bound (total * Chas.hundredths tier) 100 ltac:(lia)) as Hr.
  assert (Hs : Z.min (total * Chas.hundredths tier / 100) 5000 < 0).
  { destruct tier; unfold Qlt in Hpct; cbn in Hpct;
      cbn [Chas.hundredths] in *; lia. }
  split; [exact Hs |].
  unfold Chas.valid_amounts.
  destruct (Z.geb_spec (Z.min (total * Chas.hundredths tier / 100) 5000) 0);
    [lia | reflexivity].
Qed.

Lemma chas_subsidy_negative_witness :
  exists subsidy,
    Chas.calculate_chas_subsidy Chas.blue (-1) = Ok subsidy /\
    subsidy < 0 /\
    Chas.valid_amounts (-1) subsidy 0 = false.
Proof.
  apply (chas_subsidy_negative Chas.blue (-1) 0).
  - unfold int4_min. lia.
  - lia.
  - reflexivity.
Defined.

(* ------------------------------------------------------------------ *)
(** ** One-time passwords                                               *)
(* ------------------------------------------------------------------ *)

Lemma store_same (phone : string) (e : Otp.entry) (cache : Otp.otpCache) :
  Otp.store phone e cache phone = Some e.
Proof. unfold Otp.store. rewrite String.eqb_refl. reflexivity. Qed.

Lemma store_other (phone p : string) (e : Otp.entry) (cache : Otp.otpCache) :
  p <> phone -> Otp.store phone e cache p = cache p.
Proof.
  intros Hne. unfold Otp.store.
  destruct (String.eqb_spec p phone); [contradiction | reflexivity].
Qed.

(** A request for another phone leaves the entry of [phone] alone. *)
Lemma verify_otp_other (now : Z) (p otp phone : string) (cache : Otp.otpCache) :
  p <> phone -> snd (Otp.verify_otp now p otp cache) phone = cache phone.
Proof.
  intros Hne. unfold Otp.verify_otp.
  destruct (cache p) as [cached |]; [| reflexivity].
  destruct (now >? Otp.expires cached); [reflexivity |].
  destruct (Otp.attempts cached >=? 3); [reflexivity |].
  destruct (negb (String.eqb (Otp.code cached) otp)); [| reflexivity].
  cbn [snd]. apply store_other. intros Heq. apply Hne. symmetry. exact Heq.
Qed.

(** The three outcomes of a request for a phone that has an entry. *)
Lemma verify_otp_same (now : Z) (phone otp : string) (cache : Otp.otpCache)
  (e : Otp.entry) :
  cache phone = Some e ->
  (Otp.verify_otp now phone otp cache = (Otp.json_token phone, cache)
   /\ otp = Otp.code e /\ now <= Otp.expires e /\ Otp.attempts e < 3)
  \/ (Otp.verify_otp now phone otp cache
      = (Otp.json_error 401 "Invalid OTP",
         Otp.store phone
           (Otp.mk_entry (Otp.code e) (Otp.expires e) (Otp.attempts e + 1)) cache)
      /\ otp <> Otp.code e /\ now <= Otp.expires e /\ Otp.attempts e < 3)
  \/ (Otp.verify_otp now phone otp cache = (Otp.json_error 401 "OTP expired", cache)
      /\ Otp.expires e < now)
  \/ (Otp.verify_otp now phone otp cache
      = (Otp.json_error 429 "Too many attempts", cache)
      /\ now <= Otp.expires e /\ 3 <= Otp.attempts e).
Proof.
  intros Hc. unfold Otp.verify_otp. rewrite Hc.
  destruct (Z.gtb_spec now (Otp.expires e)) as [Hexp | Hexp].
  { right. right. left. split; [reflexivity | lia]. }
  destruct (Z.geb_spec (Otp.attempts e) 3) as [Hatt | Hatt].
  { right. right. right. split; [reflexivity | lia]. }
  destruct (String.eqb_spec (Otp.code e) otp) as [Heq | Hne]; cbn [negb].
  - left. repeat split; [symmetry; exact Heq | lia | lia].
  - right. left. repeat split; [congruence | lia | lia].
Qed.

Lemma verify_all_cons (r : Otp.attempt) (requests : list Otp.attempt)
  (cache : Otp.otpCache) :
  Otp.verify_all (r :: requests) cache
  = ((r, fst (Otp.verify_otp (Otp.at_time r) (Otp.for_phone r) (Otp.with_otp r) cache))
       :: fst (Otp.verify_all requests
                 (snd (Otp.verify_otp (Otp.at_time r) (Otp.for_phone r)
                         (Otp.with_otp r) cache))),
     snd (Otp.verify_all requests
            (snd (Otp.verify_otp (Otp.at_time r) (Otp.for_phone r)
                    (Otp.with_otp r) cache)))).
Proof.
  cbn [Otp.verify_all].
  destruct (Otp.verify_otp _ _ _ cache) as [res cache']. cbn [fst snd].
  destruct (Otp.verify_all requests cache') as [rest cache'']. reflexivity.
Qed.

(** What any run of requests does with an entry: the wrong guesses it
    still answers, and the requests it can answer with a token. *)
Lemma verify_all_entry (phone : string) (requests : list Otp.attempt) :
  forall (cache : Otp.otpCache) (e : Otp.entry),
    cache phone = Some e ->
    (List.length (filter (Otp.is_invalid_otp phone)
                    (fst (Otp.verify_all requests cache)))
     <= Z.to_nat (3 - Otp.attempts e))%nat
    /\ Forall
         (fun rr =>
            Otp.is_token phone rr = true ->
            Otp.with_otp (fst rr) = Otp.code e
            /\ Otp.at_time (fst rr) <= Otp.expires e)
         (fst (Otp.verify_all requests cache)).
Proof.
  induction requests as [| r requests IH]; intros cache e Hc.
  - split; [simpl; lia | constructor].
  - rewrite verify_all_cons. cbn [fst].
    destruct (String.eqb_spec (Otp.for_phone r) phone) as [Heq | Hne].
    + rewrite Heq.
      destruct (verify_otp_same (Otp.at_time r) phone (Otp.with_otp r) cache e Hc)
        as [[Hv [Hcode [Hexp Hatt]]]
           | [[Hv [Hcode [Hexp Hatt]]] | [[Hv Hexp] | [Hv [Hexp Hatt]]]]];
        rewrite Hv; cbn [fst snd].
      * destruct (IH cache e Hc) as [IHn IHt].
        split.
        -- cbn [filter]. unfold Otp.is_invalid_otp at 1. cbn [fst snd].
           rewrite andb_false_r. exact IHn.
        -- constructor; [intros _; split; assumption | exact IHt].
      * destruct (IH _ _ (store_same phone
                            (Otp.mk_entry (Otp.code e) (Otp.expires e)
                               (Otp.attempts e + 1)) cache)) as [IHn IHt].
        cbn [Otp.attempts Otp.code Otp.expires] in IHn, IHt.
        split.
        -- cbn [filter]. unfold Otp.is_invalid_otp at 1. cbn [fst snd].
           rewrite Heq, String.eqb_refl. cbn [andb List.length]. lia.
        -- constructor; [| exact IHt].
           unfold Otp.is_token. cbn [fst snd]. rewrite andb_false_r. discriminate.
      * destruct (IH cache e Hc) as [IHn IHt].
        split.
        -- cbn [filter]. unfold Otp.is_invalid_otp at 1. cbn [fst snd].
           rewrite andb_false_r. exact IHn.
        -- constructor; [| exact IHt].
           unfold Otp.is_token. cbn [fst snd]. rewrite andb_false_r. discriminate.
      * destruct (IH cache e Hc) as [IHn IHt].
        split.
        -- cbn [filter]. unfold Otp.is_invalid_otp at 1. cbn [fst snd].
           rewrite andb_false_r. exact IHn.
        -- constructor; [| exact IHt].
           unfold Otp.is_token. cbn [fst snd]. rewrite andb_false_r. discriminate.
    + assert (Hc' : snd (Otp.verify_otp (Otp.at_time r) (Otp.for_phone r)
                           (Otp.with_otp r) cache) phone = Some e)
        by (rewrite verify_otp_other by exact Hne; exact Hc).
      destruct (IH _ _ Hc') as [IHn IHt].
      assert (Hneq : String.eqb (Otp.for_phone r) phone = false)
        by (apply String.eqb_neq; exact Hne).
      split.
      * cbn [filter]. unfold Otp.is_invalid_otp at 1. cbn [fst snd].
        rewrite Hneq. cbn [andb]. exact IHn.
      * constructor; [| exact IHt].
        unfold Otp.is_token. cbn [fst snd]. rewrite Hneq. discriminate.
Qed.

(** X10.  After [send-otp] has stored a code for a phone, requests to
    [verify-otp], however many, for whatever phones and in whatever
    order, get at most three answers 'Invalid OTP' for that phone, and a
    token for it only when they carry the code that was sent, no later
    than five minutes after the code was made. *)
Theorem verify_otp_three_wrong_guesses (now : Z) (otp phone : string)
  (cache : Otp.otpCache) (requests : list Otp.attempt) :
  (List.length
     (filter (Otp.is_invalid_otp phone)
        (fst (Otp.verify_all requests (snd (Otp.send_otp now otp phone cache)))))
   <= 3)%nat
  /\ Forall
       (fun rr =>
          Otp.is_token phone rr = true ->
          Otp.with_otp (fst rr) = otp /\ Otp.at_time (fst rr) <= now + 300000)
       (fst (Otp.verify_all requests (snd (Otp.send_otp now otp phone cache)))).
Proof.
  unfold Otp.send_otp. cbn [snd].
  exact (verify_all_entry phone requests _ _ (store_same phone _ cache)).
Qed.

(** X11.  A code is not used up by a successful verification: the
    request that got a token left the cache as it was, and the same code
    gets a token again at any time up to its expiry. *)
Theorem verify_otp_code_can_be_used_again (now now' : Z) (phone otp p : string)
  (cache cache' : Otp.otpCache) (e : Otp.entry) :
  Otp.verify_otp now phone otp cache = (Otp.json_token p, cache') ->
  cache phone = Some e -> now' <= Otp.expires e ->
  cache' = cache /\
  Otp.verify_otp now' phone otp cache' = (Otp.json_token phone, cache').
Proof.
  intros Hv Hc Hexp.
  destruct (verify_otp_same now phone otp cache e Hc)
    as [[Hv1 [Hcode [_ Hatt]]]
       | [[Hv1 _] | [[Hv1 _] | [Hv1 _]]]];
    rewrite Hv1 in Hv; try discriminate Hv.
  injection Hv as _ <-. split; [reflexivity |].
  unfold Otp.verify_otp. rewrite Hc.
  destruct (Z.gtb_spec now' (Otp.expires e)); [lia |].
  destruct (Z.geb_spec (Otp.attempts e) 3); [lia |].
  rewrite Hcode, String.eqb_refl. reflexivity.
Qed.

Lemma verify_otp_code_can_be_used_again_witness :
  snd (Otp.send_otp 1000 "042617" "+6581234567" Otp.no_cache)
  = snd (Otp.send_otp 1000 "042617" "+6581234567" Otp.no_cache) /\
  Otp.verify_otp 301000 "+6581234567" "042617"
    (snd (Otp.send_otp 1000 "042617" "+6581234567" Otp.no_cache))
  = (Otp.json_token "+6581234567",
     snd (Otp.send_otp 1000 "042617" "+6581234567" Otp.no_cache)).
Proof.
  apply (verify_otp_code_can_be_used_again 2000 301000 "+6581234567" "042617"
           "+6581234567" _ _ (Otp.mk_entry "042617" 301000 0)).
  - reflexivity.
  - reflexivity.
  - simpl. lia.
Defined.

(** X12.  Each [send-otp] grants three guesses, whatever happened
    before: three wrong codes are answered 'Invalid OTP', and from then
    on the right code is refused too, until the next [send-otp]. *)
Theorem send_otp_grants_three_guesses (now t1 t2 t3 t4 : Z)
  (otp phone g1 g2 g3 : string) (cache : Otp.otpCache) :
  g1 <> otp -> g2 <> otp -> g3 <> otp ->
  t1 <= now + 300000 -> t2 <= now + 300000 -> t3 <= now + 300000 ->
  t4 <= now + 300000 ->
  map snd
    (fst (Otp.verify_all
            [Otp.mk_attempt t1 phone g1; Otp.mk_attempt t2 phone g2;
             Otp.mk_attempt t3 phone g3; Otp.mk_attempt t4 phone otp]
            (snd (Otp.send_otp now otp phone cache))))
  = [Otp.json_error 401 "Invalid OTP"; Otp.json_error 401 "Invalid OTP";
     Otp.json_error 401 "Invalid OTP"; Otp.json_error 429 "Too many attempts"].
Proof.
  intros H1 H2 H3 Ht1 Ht2 Ht3 Ht4.
  assert (Hstep : forall t g a c,
             t <= now + 300000 -> g <> otp -> a < 3 ->
             Otp.verify_otp t phone g
               (Otp.store phone (Otp.mk_entry otp (now + 300000) a) c)
             = (Otp.json_error 401 "Invalid OTP",
                Otp.store phone (Otp.mk_entry otp (now + 300000) (a + 1))
                  (Otp.store phone (Otp.mk_entry otp (now + 300000) a) c))).
  { intros t g a c Ht Hg Ha.
    destruct (verify_otp_same t phone g _ _
                (store_same phone (Otp.mk_entry otp (now + 300000) a) c))
      as [[_ [Hcode _]] | [[Hv _] | [[_ Hexp] | [_ [_ Hatt]]]]];
      cbn [Otp.code Otp.expires Otp.attempts] in *;
      [contradiction | exact Hv | lia | lia]. }
  unfold Otp.send_otp. cbn [snd].
  change (now + 5 * 60 * 1000) with (now + 300000).
  rewrite !verify_all_cons. cbn [fst snd map Otp.at_time Otp.for_phone Otp.with_otp].
  rewrite (Hstep t1 g1 0) by (assumption || lia). cbn [fst snd].
  rewrite (Hstep t2 g2 (0 + 1)) by (assumption || lia). cbn [fst snd].
  rewrite (Hstep t3 g3 (0 + 1 + 1)) by (assumption || lia). cbn [fst snd].
  destruct (verify_otp_same t4 phone otp _ _
              (store_same phone (Otp.mk_entry otp (now + 300000) (0 + 1 + 1 + 1))
                 (Otp.store phone (Otp.mk_entry otp (now + 300000) (0 + 1 + 1))
                    (Otp.store phone (Otp.mk_entry otp (now + 300000) (0 + 1))
                       (Otp.store phone (Otp.mk_entry otp (now + 300000) 0)
                          cache)))))
    as [[_ [_ [_ Hatt]]] | [[_ [Hcode _]] | [[_ Hexp] | [Hv _]]]];
    cbn [Otp.code Otp.expires Otp.attempts] in *;
    [lia | congruence | lia |].
  rewrite Hv. reflexivity.
Qed.

Lemma send_otp_grants_three_guesses_witness :
  map snd
    (fst (Otp.verify_all
            [Otp.mk_attempt 2000 "+6581234567" "000000";
             Otp.mk_attempt 3000 "+6581234567" "000001";
             Otp.mk_attempt 4000 "+6581234567" "000002";
             Otp.mk_attempt 5000 "+6581234567" "042617"]
            (snd (Otp.send_otp 1000 "042617" "+6581234567" Otp.no_cache))))
  = [Otp.json_error 401 "Invalid OTP"; Otp.json_error 401 "Invalid OTP";
     Otp.json_error 401 "Invalid OTP"; Otp.json_error 429 "Too many attempts"].
Proof.
  apply (send_otp_grants_three_guesses 1000 2000 3000 4000 5000 "042617"
           "+6581234567" "000000" "000001" "000002" Otp.no_cache);
    (discriminate || lia).
Defined.

(* ------------------------------------------------------------------ *)
(** ** Queue labels and the sequence read back from them                *)
(* ------------------------------------------------------------------ *)

Lemma reads_back_Ok (label : string) (m : Z) :
  reads_back label m = true -> queue_sequence_of (Some label) = Ok (Some m).
Proof.
  unfold reads_back.
  destruct (queue_sequence_of (Some label)) as [[z |] | e]; try discriminate.
  intros H. apply Z.eqb_eq in H. subst z. reflexivity.
Qed.

Lemma in_range (lo len : nat) (n : Z) :
  Z.of_nat lo <= n < Z.of_nat (lo + len) ->
  In n (map Z.of_nat (seq lo len)).
Proof.
  intros H. apply in_map_iff. exists (Z.to_nat n).
  split; [lia | apply in_seq; lia].
Qed.

(** Up to 999 the label reads back as the number it was made from. *)
Lemma label_reads_back (n : Z) :
  0 <= n <= 999 ->
  queue_sequence_of
    (Some (String.append "A" (LPAD (int4_to_text n) 3 "0"%char)))
  = Ok (Some n).
Proof.
  intros Hn. apply reads_back_Ok.
  assert (Hall : forallb
                   (fun n => reads_back
                               (String.append "A" (LPAD (int4_to_text n) 3 "0"%char)) n)
                   (map Z.of_nat (seq 0 1000)) = true)
    by (vm_compute; reflexivity).
  rewrite forallb_forall in Hall. apply Hall. apply in_range. lia.
Qed.

Lemma three_digits_read_back (m : Z) :
  100 <= m <= 999 ->
  queue_sequence_of (Some (String.append "A" (three_digits m))) = Ok (Some m).
Proof.
  intros Hm. apply reads_back_Ok.
  assert (Hall : forallb
                   (fun m => reads_back (String.append "A" (three_digits m)) m)
                   (map Z.of_nat (seq 100 900)) = true)
    by (vm_compute; reflexivity).
  rewrite forallb_forall in Hall. apply Hall. apply in_range. lia.
Qed.

Lemma digits_of_three (fuel : nat) (m : Z) (acc : string) :
  100 <= m <= 999 ->
  digits_of (3 + fuel) m acc
  = String (digit_char (m / 100))
      (String (digit_char (m / 10 mod 10)) (String (digit_char (m mod 10)) acc)).
Proof.
  intros Hm. cbn [digits_of Nat.add].
  destruct (Z.eqb_spec (m / 10) 0) as [H0 | _];
    [exfalso; Z.div_mod_to_equations; lia |].
  destruct (Z.eqb_spec (m / 10 / 10) 0) as [H0 | _];
    [exfalso; Z.div_mod_to_equations; lia |].
  assert (Hd : m / 10 / 10 = m / 100) by (rewrite Z.div_div by lia; reflexivity).
  rewrite Hd.
  assert (Hlast : m / 100 / 10 = 0) by (Z.div_mod_to_equations; lia).
  assert (Hmod : (m / 100) mod 10 = m / 100) by (Z.div_mod_to_equations; lia).
  rewrite Hlast, Hmod. reflexivity.
Qed.

Lemma substring_0_0 (s : string) : substring 0 0 s = EmptyString.
Proof. destruct s; reflexivity. Qed.

(** The first three characters of a number of three digits or more are
    the digits of the number with its last digits cut off. *)
Lemma digits_of_top (fuel : nat) :
  forall (n : Z) (acc : string),
    100 <= n < 10 ^ Z.of_nat fuel ->
    exists k,
      0 <= k /\ (n < 1000 -> k = 0) /\ (1000 <= n -> 0 < k) /\
      100 <= n / 10 ^ k <= 999 /\
      substring 0 3 (digits_of fuel n acc) = three_digits (n / 10 ^ k).
Proof.
  induction fuel as [| fuel IH]; intros n acc Hn.
  - simpl in Hn. lia.
  - destruct (Z_lt_ge_dec n 1000) as [Hsmall | Hbig].
    + exists 0. rewrite Z.pow_0_r, Z.div_1_r.
      repeat split; try lia.
      destruct fuel as [| [| fuel]].
      * simpl in Hn. lia.
      * simpl in Hn. lia.
      * change (S (S (S fuel))) with (3 + fuel)%nat.
        rewrite digits_of_three by lia.
        cbn [substring]. rewrite substring_0_0. reflexivity.
    + assert (Hpow : 10 ^ Z.of_nat (S fuel) = 10 * 10 ^ Z.of_nat fuel)
        by (rewrite Nat2Z.inj_succ, Z.pow_succ_r by lia; reflexivity).
      assert (Hn' : 100 <= n / 10 < 10 ^ Z.of_nat fuel).
      { rewrite Hpow in Hn. split.
        - apply Z.div_le_lower_bound; lia.
        - apply Z.div_lt_upper_bound; lia. }
      destruct (IH (n / 10) (String (digit_char (n mod 10)) acc) Hn')
        as [k [Hk [_ [_ [Hr Hs]]]]].
      exists (k + 1).
      assert (Hdiv : n / 10 ^ (k + 1) = n / 10 / 10 ^ k).
      { rewrite Z.pow_add_r, Z.pow_1_r by lia.
        rewrite (Z.mul_comm (10 ^ k) 10).
        rewrite Z.div_div by (try apply Z.pow_pos_nonneg; lia). reflexivity. }
      rewrite Hdiv. repeat split; try lia.
      cbn [digits_of].
      destruct (Z.eqb_spec (n / 10) 0) as [H0 | _]; [lia |].
      exact Hs.
Qed.

Lemma substring_3_length (s : string) (a b c : ascii) :
  substring 0 3 s = String a (String b (String c EmptyString)) ->
  Nat.leb 3 (String.length s) = true.
Proof.
  destruct s as [| x [| y [| z s]]]; simpl; intros H;
    try discriminate H; reflexivity.
Qed.

(** From 1000 on the label keeps the first three digits only. *)
Lemma label_cut (n : Z) :
  1000 <= n <= int4_max ->
  exists k,
    0 < k /\ 100 <= n / 10 ^ k <= 999 /\
    queue_sequence_of
      (Some (String.append "A" (LPAD (int4_to_text n) 3 "0"%char)))
    = Ok (Some (n / 10 ^ k)).
Proof.
  intros Hn. unfold int4_max in Hn.
  destruct (digits_of_top 10 n EmptyString) as [k [Hk [_ [Hpos [Hr Hs]]]]].
  { change (10 ^ Z.of_nat 10) with 10000000000. lia. }
  exists k. split; [lia |]. split; [exact Hr |].
  unfold int4_to_text. destruct (Z.ltb_spec n 0) as [Hneg | _]; [lia |].
  unfold LPAD. rewrite (substring_3_length _ _ _ _ Hs), Hs.
  apply three_digits_read_back. exact Hr.
Qed.

(** X13.  Up to the number 999 a reservation stores the sequence
    number that [generate_queue_number] computed: what is read back from
    the label is the number the label was made from. *)
Theorem booked_sequence_is_the_next_one (now : timestamptz) (new_id : uuid)
  (locked : uuid -> bool) (db : database)
  (p_patient_id p_doctor_id p_slot_id : uuid)
  (p_appointment_type : appointment_type) (p_notes : option string)
  (a : Appointment.row) (db' : database) (n : Z) :
  book_appointment now new_id locked db p_patient_id p_doctor_id p_slot_id
    p_appointment_type p_notes = Ok (a, db') ->
  next_queue_sequence db p_doctor_id (Appointment.queue_date a) = Ok n ->
  0 <= n <= 999 ->
  Appointment.queue_sequence a = n /\
  Appointment.queue_number a
  = String.append "A" (LPAD (int4_to_text n) 3 "0"%char).
Proof.
  intros H Hnext Hn.
  apply book_appointment_Ok in H. destruct H as [v_slot [_ [_ H]]].
  apply book_appointment_locked_Ok in H.
  destruct H as [v [q [m [Hv [_ [_ [Hgen [Hseq [Ha _]]]]]]]]].
  injection Hv as <-. subst a. cbn [Appointment.queue_date] in Hnext.
  cbn [Appointment.queue_sequence Appointment.queue_number].
  destruct (generate_queue_number_format _ _ _ _ Hgen) as [n' [Hnext' Hq]].
  rewrite Hnext in Hnext'. injection Hnext' as <-.
  subst q. rewrite (label_reads_back n Hn) in Hseq. injection Hseq as <-.
  split; reflexivity.
Qed.

Lemma booked_sequence_is_the_next_one_witness :
  Appointment.queue_sequence sample_appointment = 1 /\
  Appointment.queue_number sample_appointment
  = String.append "A" (LPAD (int4_to_text 1) 3 "0"%char).
Proof.
  apply (booked_sequence_is_the_next_one sample_now 1001 no_locks sample_db
           11 1 101 consultation None sample_appointment
           (snd (commit sample_db
                   (book_appointment sample_now 1001 no_locks sample_db 11 1 101
                      consultation None)))).
  - vm_compute. reflexivity.
  - vm_compute. reflexivity.
  - lia.
Defined.

(** X14.  From the number 1000 on, [LPAD] cuts the label to its first
    three digits, and a reservation stores as its sequence the number
    read back from the cut label, a number between 100 and 999 and not
    the one [generate_queue_number] computed. *)
Theorem booked_sequence_is_cut_from_1000 (now : timestamptz) (new_id : uuid)
  (locked : uuid -> bool) (db : database)
  (p_patient_id p_doctor_id p_slot_id : uuid)
  (p_appointment_type : appointment_type) (p_notes : option string)
  (a : Appointment.row) (db' : database) (n : Z) :
  book_appointment now new_id locked db p_patient_id p_doctor_id p_slot_id
    p_appointment_type p_notes = Ok (a, db') ->
  next_queue_sequence db p_doctor_id (Appointment.queue_date a) = Ok n ->
  1000 <= n ->
  exists k,
    0 < k /\ Appointment.queue_sequence a = n / 10 ^ k /\
    100 <= Appointment.queue_sequence a <= 999.
Proof.
  intros H Hnext Hn.
  apply book_appointment_Ok in H. destruct H as [v_slot [_ [_ H]]].
  apply book_appointment_locked_Ok in H.
  destruct H as [v [q [m [Hv [_ [_ [Hgen [Hseq [Ha _]]]]]]]]].
  injection Hv as <-. subst a. cbn [Appointment.queue_date] in Hnext.
  cbn [Appointment.queue_sequence].
  destruct (generate_queue_number_format _ _ _ _ Hgen) as [n' [Hnext' Hq]].
  rewrite Hnext in Hnext'. injection Hnext' as <-.
  assert (Hmax : n <= int4_max).
  { unfold next_queue_sequence in Hnext. apply int4_Ok in Hnext. lia. }
  destruct (label_cut n (conj Hn Hmax)) as [k [Hk [Hr Hcut]]].
  subst q. rewrite Hcut in Hseq. injection Hseq as <-.
  exists k. repeat split; lia.
Qed.

Lemma booked_sequence_is_cut_from_1000_witness :
  exists a db',
    book_appointment sample_now 1001 no_locks sample_db_busy 11 1 101
      consultation None = Ok (a, db') /\
    Appointment.queue_number a = "A100" /\
    exists k,
      0 < k /\ Appointment.queue_sequence a = 1000 / 10 ^ k /\
      100 <= Appointment.queue_sequence a <= 999.
Proof.
  destruct (book_appointment sample_now 1001 no_locks sample_db_busy 11 1 101
              consultation None) as [[a db'] | e] eqn:H.
  - exists a, db'. split; [reflexivity |].
    split; [vm_compute in H; injection H as <- _; reflexivity |].
    apply (booked_sequence_is_cut_from_1000 sample_now 1001 no_locks
             sample_db_busy 11 1 101 consultation None a db' 1000 H).
    + vm_compute in H. injection H as <- _. vm_compute. reflexivity.
    + lia.
  - vm_compute in H. discriminate H.
Defined.

(* ------------------------------------------------------------------ *)
(** ** More on book_appointment                                         *)
(* ------------------------------------------------------------------ *)

(** X15.  The key [unique_patient_slot] counts every appointment,
    whatever its status: a patient who has an appointment on a slot, be
    it cancelled, never gets a second one on that slot. *)
Theorem patient_cannot_reserve_slot_again (now : timestamptz) (new_id : uuid)
  (locked : uuid -> bool) (db : database)
  (p_patient_id p_doctor_id p_slot_id : uuid)
  (p_appointment_type : appointment_type) (p_notes : option string)
  (b : Appointment.row) :
  In b (appointments db) ->
  Appointment.patient_id b = p_patient_id ->
  Appointment.time_slot_id b = p_slot_id ->
  exists e,
    book_appointment now new_id locked db p_patient_id p_doctor_id p_slot_id
      p_appointment_type p_notes = Err e.
Proof.
  intros Hin Hp Hs.
  destruct (book_appointment now new_id locked db p_patient_id p_doctor_id
              p_slot_id p_appointment_type p_notes) as [[a db'] | e] eqn:H;
    [exfalso | exists e; reflexivity].
  apply book_appointment_Ok in H. destruct H as [v_slot [_ [_ H]]].
  apply book_appointment_locked_Ok in H.
  destruct H as [v [q [n [_ [_ [_ [_ [_ [Ha [Hcons _]]]]]]]]]].
  unfold appointments_constraints in Hcons.
  inv_bind Hcons as u1 H1. inv_bind Hcons as u2 H2. inv_bind Hcons as u3 H3.
  apply guard_Ok in H3. apply negb_true_iff in H3.
  assert (Hex : existsb
                  (fun b0 => (Appointment.patient_id b0 =? Appointment.patient_id a)
                             && (Appointment.time_slot_id b0 =? Appointment.time_slot_id a))
                  (appointments db) = true).
  { apply existsb_exists. exists b. split; [exact Hin |].
    subst a. cbn [Appointment.patient_id Appointment.time_slot_id].
    rewrite Hp, Hs, !Z.eqb_refl. reflexivity. }
  rewrite Hex in H3. discriminate H3.
Qed.

Lemma patient_cannot_reserve_slot_again_witness :
  exists e,
    book_appointment (sample_now + 7200) 1002 no_locks sample_db_no_show 11 1 101
      consultation None = Err e.
Proof.
  apply (patient_cannot_reserve_slot_again (sample_now + 7200) 1002 no_locks
           sample_db_no_show 11 1 101 consultation None
           (Appointment.set_status no_show sample_appointment)).
  - vm_compute. left. reflexivity.
  - reflexivity.
  - reflexivity.
Defined.

Lemma filter_none {A : Type} (p : A -> bool) (l : list A) :
  (forall x, In x l -> p x = false) -> filter p l = [].
Proof.
  induction l as [| x l IH]; intros H; [reflexivity |].
  simpl. rewrite (H x (or_introl eq_refl)). apply IH.
  intros y Hy. apply H. right. exact Hy.
Qed.

(** X16.  [book_appointment] does not look the doctor up.  For a doctor
    id that is in no row of [doctors] the queue number is NULL, and a
    reservation on a free slot fails on the NOT NULL column
    [queue_number]: not with 'Slot is not available' and not on the
    foreign key. *)
Theorem reserve_with_unknown_doctor (now : timestamptz) (new_id : uuid)
  (locked : uuid -> bool) (db : database)
  (p_patient_id p_doctor_id p_slot_id : uuid)
  (p_appointment_type : appointment_type) (p_notes : option string)
  (v_slot : TimeSlot.row) :
  (forall d, In d (doctors db) -> Doctor.id d <> p_doctor_id) ->
  (forall a, In a (appointments db) -> Appointment.doctor_id a <> p_doctor_id) ->
  find (fun s => TimeSlot.id s =? p_slot_id) (time_slots db) = Some v_slot ->
  locked (TimeSlot.id v_slot) = false ->
  TimeSlot.is_available v_slot = true ->
  TimeSlot.is_blocked v_slot = false ->
  book_appointment now new_id locked db p_patient_id p_doctor_id p_slot_id
    p_appointment_type p_notes = Err (not_null_violation "queue_number").
Proof.
  intros Hdoc Hfk Hfind Hlock Hav Hbl.
  assert (Hgen : forall day, generate_queue_number db p_doctor_id day = Ok None).
  { intros day. unfold generate_queue_number, next_queue_sequence.
    rewrite queue_prefix_cases.
    rewrite (filter_none _ (doctors db)).
    2:{ intros d Hd. apply Z.eqb_neq. exact (Hdoc d Hd). }
    rewrite (filter_none _ (appointments db)).
    2:{ intros a Ha. apply andb_false_iff. left. apply Z.eqb_neq.
        exact (Hfk a Ha). }
    reflexivity. }
  unfold book_appointment, select_slot_for_update_nowait.
  rewrite Hfind, Hlock. cbn [bind].
  unfold book_appointment_locked. rewrite Hav, Hbl. cbn [negb orb].
  rewrite Hgen. cbn [bind queue_sequence_of].
  unfold insert_appointment, generate_queue_number_trigger.
  cbn [NewAppointment.queue_number NewAppointment.doctor_id
       NewAppointment.queue_date].
  rewrite Hgen. reflexivity.
Qed.

Lemma reserve_with_unknown_doctor_witness :
  book_appointment sample_now 1001 no_locks sample_db 11 99 101 consultation None
  = Err (not_null_violation "queue_number").
Proof.
  apply (reserve_with_unknown_doctor sample_now 1001 no_locks sample_db 11 99 101
           consultation None (sample_slot 101 1 20000 32400)).
  - intros d [<- | [<- | []]]; discriminate.
  - intros a [].
  - reflexivity.
  - reflexivity.
  - reflexivity.
  - reflexivity.
Defined.

(* ------------------------------------------------------------------ *)
(** ** Reserving and cancelling                                         *)
(* ------------------------------------------------------------------ *)

Lemma Forall2_eq_list {A : Type} (l l' : list A) :
  Forall2 (fun x y => y = x) l l' -> l' = l.
Proof.
  induction 1 as [| x y l l' Hxy _ IH]; [reflexivity |].
  rewrite Hxy, IH. reflexivity.
Qed.

Lemma Forall2_compose {A : Type} (R S T : A -> A -> Prop) (l l' l'' : list A) :
  (forall x y z, In x l -> R x y -> S y z -> T x z) ->
  Forall2 R l l' -> Forall2 S l' l'' -> Forall2 T l l''.
Proof.
  intros HT HR. revert l''.
  induction HR as [| x y l l' Hxy _ IH]; intros l'' HS.
  - inversion HS. constructor.
  - inversion HS as [| ? z ? l0 Hyz HS']; subst. constructor.
    + exact (HT x y z (or_introl eq_refl) Hxy Hyz).
    + apply IH; [| exact HS'].
      intros a b c Ha. apply HT. right. exact Ha.
Qed.

(** X17.  A reservation that is cancelled leaves [time_slots] exactly
    as it was before the reservation: the two triggers undo each other on
    a slot whose count was not negative. *)
Theorem reserve_then_cancel_restores_slots (now : timestamptz) (new_id : uuid)
  (locked : uuid -> bool) (db db1 db2 : database)
  (p_patient_id p_doctor_id p_slot_id : uuid)
  (p_appointment_type : appointment_type) (p_notes : option string)
  (a : Appointment.row) (today : date) :
  NoDup (map TimeSlot.id (time_slots db)) ->
  NoDup (map Appointment.id (appointments db)) ->
  (forall s, In s (time_slots db) -> 0 <= TimeSlot.booked_count s) ->
  book_appointment now new_id locked db p_patient_id p_doctor_id p_slot_id
    p_appointment_type p_notes = Ok (a, db1) ->
  update_appointment_status today (Appointment.id a) cancelled db1 = Ok db2 ->
  time_slots db2 = time_slots db.
Proof.
  intros Hslots Hids Hcount Hbook Hcancel.
  pose proof (book_appointment_slot_effect _ _ _ _ _ _ _ _ _ _ _ Hbook)
    as [HF1 _].
  apply book_appointment_Ok in Hbook.
  destruct Hbook as [v_slot [Hfind [_ Hbook]]].
  apply find_slot_In in Hfind. destruct Hfind as [Hvin Hvid].
  apply book_appointment_locked_Ok in Hbook.
  destruct Hbook as [v [q [n [Hv [Hav [_ [_ [_ [Ha [Hcons Hfire]]]]]]]]]].
  injection Hv as <-.
  apply update_slot_availability_insert in Hfire.
  destruct Hfire as [_ [_ [Happ [_ _]]]]. cbn [appointments with_appointments] in Happ.
  assert (Hfresh : ~ In (Appointment.id a) (map Appointment.id (appointments db))).
  { unfold appointments_constraints in Hcons.
    inv_bind Hcons as u1 H1. inv_bind Hcons as u2 H2.
    apply guard_Ok in H2. apply negb_true_iff in H2.
    intros Hc. apply in_map_iff in Hc. destruct Hc as [b [Hb Hbin]].
    assert (Hex : existsb (fun b0 => Appointment.id b0 =? Appointment.id a)
                    (appointments db) = true).
    { apply existsb_exists. exists b. split; [exact Hbin |].
      rewrite Hb. apply Z.eqb_refl. }
    rewrite Hex in H2. discriminate H2. }
  assert (Hids1 : NoDup (map Appointment.id (appointments db1))).
  { rewrite Happ, map_app. cbn [map].
    apply NoDup_app; [exact Hids | repeat constructor; intros [] |].
    intros x Hx [<- | []]. contradiction. }
  assert (Hin1 : In a (appointments db1)).
  { rewrite Happ. apply in_or_app. right. left. reflexivity. }
  unfold update_appointment_status in Hcancel.
  rewrite (update_appointments_one_row today db1 a _ Hids1 Hin1) in Hcancel.
  assert (Hst : Appointment.status a = confirmed) by (subst a; reflexivity).
  assert (Hslot : Appointment.time_slot_id a = p_slot_id) by (subst a; reflexivity).
  unfold update_slot_availability in Hcancel.
  cbn [Appointment.status Appointment.set_status Appointment.time_slot_id]
    in Hcancel.
  rewrite Hst, Hslot in Hcancel. cbn [in_cancelled_no_show negb andb] in Hcancel.
  inv_bind Hcancel as ts Hts. injection Hcancel as <-.
  cbn [time_slots with_time_slots with_appointments] in Hts |- *.
  apply update_time_slots_Forall2 in Hts.
  apply Forall2_eq_list.
  refine (Forall2_compose _ _ _ _ _ _ _ HF1 Hts).
  intros s s1 s2 Hs H1 H2. cbn beta in H1, H2.
  destruct (Z.eqb_spec (TimeSlot.id s) p_slot_id) as [Hid | Hid].
  - destruct H1 as [-> _].
    cbn [TimeSlot.id TimeSlot.set_availability] in H2.
    rewrite Hid, Z.eqb_refl in H2. destruct H2 as [Hset _].
    inv_bind Hset as c Hc. apply int4_Ok in Hc. destruct Hc as [-> _].
    injection Hset as <-.
    assert (Hsv : s = v_slot)
      by (apply (NoDup_map_inj TimeSlot.id (time_slots db));
          [exact Hslots | exact Hs | exact Hvin | congruence]).
    pose proof (Hcount s Hs) as Hc0.
    cbn [TimeSlot.booked_count TimeSlot.set_availability TimeSlot.id
         TimeSlot.doctor_id TimeSlot.slot_date TimeSlot.slot_time
         TimeSlot.slot_end_time TimeSlot.is_blocked TimeSlot.max_patients].
    replace (Z.max (TimeSlot.booked_count s + 1 - 1) 0)
      with (TimeSlot.booked_count s) by lia.
    rewrite <- Hav, <- Hsv. destruct s; reflexivity.
  - subst s1. apply Z.eqb_neq in Hid. rewrite Hid in H2. exact H2.
Qed.

Lemma reserve_then_cancel_restores_slots_witness :
  time_slots sample_db_cancelled = time_slots sample_db.
Proof.
  apply (reserve_then_cancel_restores_slots sample_now 1001 no_locks sample_db
           sample_db_reserved sample_db_cancelled 11 1 101 consultation None
           sample_appointment 20000).
  - vm_compute. repeat constructor; simpl; intuition discriminate.
  - constructor.
  - intros s Hs. vm_compute in Hs.
    destruct Hs as [<- | [<- | [<- | [<- | [<- | []]]]]]; vm_compute; discriminate.
  - vm_compute. reflexivity.
  - vm_compute. reflexivity.
Defined.

Lemma fire_triggers_already_released (today : date)
  (f : Appointment.row -> Appointment.row) (rows : list Appointment.row)
  (db : database) :
  (forall a, In a rows -> in_cancelled_no_show (Appointment.status a) = true) ->
  fire_triggers today (map (fun a => TG_UPDATE a (f a)) rows) db = Ok db.
Proof.
  induction rows as [| a rows IH]; intros H; [reflexivity |].
  cbn [map fire_triggers update_slot_availability].
  rewrite (H a (or_introl eq_refl)). cbn [negb andb bind].
  apply IH. intros b Hb. apply H. right. exact Hb.
Qed.

(** X18.  The trigger frees a slot once.  A status update of an
    appointment that is already cancelled or no-show, to whatever status,
    succeeds and leaves [time_slots] as it is: a second cancellation does
    not lower the count again, and giving the appointment a live status
    again does not take the slot back. *)
Theorem released_appointment_leaves_slots (today : date) (appointment_id : uuid)
  (st : appointment_status) (db : database) :
  (forall a, In a (appointments db) -> Appointment.id a = appointment_id ->
             in_cancelled_no_show (Appointment.status a) = true) ->
  exists db',
    update_appointment_status today appointment_id st db = Ok db' /\
    time_slots db' = time_slots db /\
    appointments db' =
      map (fun a => if Appointment.id a =? appointment_id
                    then Appointment.set_status st a else a)
        (appointments db).
Proof.
  intros H. eexists. split; [| split].
  - unfold update_appointment_status, update_appointments.
    apply fire_triggers_already_released.
    intros a Ha. apply filter_In in Ha. destruct Ha as [Hin Hid].
    apply Z.eqb_eq in Hid. exact (H a Hin Hid).
  - reflexivity.
  - reflexivity.
Qed.

Lemma released_appointment_leaves_slots_witness :
  exists db',
    update_appointment_status 20000 1001 confirmed sample_db_cancelled = Ok db' /\
    time_slots db' = time_slots sample_db_cancelled /\
    appointments db' =
      map (fun a => if Appointment.id a =? 1001
                    then Appointment.set_status confirmed a else a)
        (appointments sample_db_cancelled).
Proof.
  apply (released_appointment_leaves_slots 20000 1001 confirmed sample_db_cancelled).
  intros a Ha _. vm_compute in Ha. destruct Ha as [<- | []]. reflexivity.
Defined.

(* ------------------------------------------------------------------ *)
(** ** Calls of advance_queue one after the other                       *)
(* ------------------------------------------------------------------ *)

Lemma select_next_appointment_Some (today : date) (db : database) (d : uuid)
  (v : Appointment.row) :
  select_next_appointment today db d = Some v ->
  In v (waiting today db d) /\
  forall b, In b (waiting today db d) ->
            Appointment.queue_sequence v <= Appointment.queue_sequence b.
Proof.
  unfold select_next_appointment. fold (waiting today db d). intros H.
  destruct (waiting today db d) as [| x l] eqn:Hw; [discriminate H |].
  destruct (order_by_hd Appointment.queue_sequence (x :: l)) as [v' [Hv' Hmin]];
    [discriminate |].
  rewrite Hv' in H. injection H as <-. exact Hmin.
Qed.

(** Whoever is called leaves the waiting list, and nobody else does. *)
Lemma waiting_after_start (today : date) (now : timestamptz) (db : database)
  (d : uuid) (v : Appointment.row) (ts : list TimeSlot.row)
  (qs : list QueueStatus.row) :
  waiting today
    (mk_database (doctors db) (patients db) ts
       (map (fun a => if Appointment.id a =? Appointment.id v
                      then Appointment.set_actual_start_time (Some now)
                             (Appointment.set_status in_consultation a)
                      else a)
          (appointments db))
       qs)
    d
  = filter (fun a => negb (Appointment.id a =? Appointment.id v))
      (waiting today db d).
Proof.
  unfold waiting. cbn [appointments].
  induction (appointments db) as [| a l IH]; [reflexivity |].
  cbn [map filter]. rewrite IH.
  destruct (Appointment.id a =? Appointment.id v) eqn:Hid.
  - cbn [Appointment.doctor_id Appointment.queue_date Appointment.status
         Appointment.set_actual_start_time Appointment.set_status status_eqb].
    rewrite andb_false_r.
    destruct ((Appointment.doctor_id a =? d) && (Appointment.queue_date a =? today)
              && status_eqb (Appointment.status a) arrived); [| reflexivity].
    cbn [filter]. rewrite Hid. reflexivity.
  - destruct ((Appointment.doctor_id a =? d) && (Appointment.queue_date a =? today)
              && status_eqb (Appointment.status a) arrived); [| reflexivity].
    cbn [filter]. rewrite Hid. reflexivity.
Qed.

(** X19.  Two calls of [advance_queue] on the same day, the second
    after the first has committed, call two different appointments, and
    the second one's sequence number is not below the first one's: the
    queue is served in order and nobody is called twice. *)
Theorem consecutive_advances_serve_in_order (now1 now2 : timestamptz)
  (db db1 : database) (p_doctor_id : uuid)
  (q1 : option QueueStatus.row) (v1 v2 : Appointment.row) :
  select_next_appointment (DATE now1) db p_doctor_id = Some v1 ->
  advance_queue now1 db p_doctor_id = Ok (q1, db1) ->
  DATE now2 = DATE now1 ->
  select_next_appointment (DATE now2) db1 p_doctor_id = Some v2 ->
  Appointment.id v2 <> Appointment.id v1 /\
  Appointment.queue_sequence v1 <= Appointment.queue_sequence v2 /\
  In v2 (waiting (DATE now1) db p_doctor_id).
Proof.
  intros Hsel1 Hadv Hday Hsel2.
  unfold advance_queue in Hadv. rewrite Hsel1 in Hadv.
  rewrite start_consultation_Ok in Hadv. cbn [bind] in Hadv.
  unfold update_queue_status in Hadv. injection Hadv as _ <-.
  rewrite Hday in Hsel2.
  apply select_next_appointment_Some in Hsel1. destruct Hsel1 as [_ Hmin].
  apply select_next_appointment_Some in Hsel2. destruct Hsel2 as [Hin2 _].
  unfold with_queue_status, with_appointments in Hin2.
  cbn [doctors patients time_slots appointments queue_status] in Hin2.
  rewrite waiting_after_start in Hin2.
  apply filter_In in Hin2. destruct Hin2 as [Hin2 Hne].
  apply negb_true_iff, Z.eqb_neq in Hne.
  split; [exact Hne |]. split; [exact (Hmin v2 Hin2) | exact Hin2].
Qed.

Lemma consecutive_advances_serve_in_order_witness :
  exists v1 v2,
    Appointment.id v1 = 1001 /\ Appointment.id v2 = 1002 /\
    Appointment.id v2 <> Appointment.id v1 /\
    Appointment.queue_sequence v1 <= Appointment.queue_sequence v2 /\
    In v2 (waiting (DATE first_now) sample_db_two_arrived 1).
Proof.
  destruct (select_next_appointment (DATE first_now) sample_db_two_arrived 1)
    as [v1 |] eqn:H1; [| vm_compute in H1; discriminate H1].
  destruct (advance_queue first_now sample_db_two_arrived 1)
    as [[q1 db1] | e] eqn:Hadv; [| vm_compute in Hadv; discriminate Hadv].
  destruct (select_next_appointment (DATE second_now) db1 1)
    as [v2 |] eqn:H2.
  - exists v1, v2.
    split; [vm_compute in H1; injection H1 as <-; reflexivity |].
    split.
    { vm_compute in Hadv. injection Hadv as _ <-.
      vm_compute in H2. injection H2 as <-. reflexivity. }
    apply (consecutive_advances_serve_in_order first_now second_now
             sample_db_two_arrived db1 1 q1 v1 v2 H1 Hadv); [reflexivity | exact H2].
  - vm_compute in Hadv. injection Hadv as _ <-. vm_compute in H2. discriminate H2.
Defined.

(* ------------------------------------------------------------------ *)
(** ** The plan's lock and its booking handler                          *)
(* ------------------------------------------------------------------ *)

Lemma mark_unavailable_Forall2 (today : date) (slot_id : uuid)
  (rows rows' : list TimeSlot.row) :
  Plan.mark_unavailable today slot_id rows = Ok rows' ->
  Forall2
    (fun s s' =>
       if TimeSlot.id s =? slot_id
       then s' = TimeSlot.set_availability false (TimeSlot.booked_count s) s
       else s' = s)
    rows rows'.
Proof.
  revert rows'. induction rows as [| s rows IH]; simpl; intros rows' H.
  - inversion H. constructor.
  - inv_bind H as s' Hs. inv_bind H as rest Hrest.
    inversion H; subst rows'. constructor; [| apply IH; exact Hrest].
    destruct (TimeSlot.id s =? slot_id).
    + inv_bind Hs as u Hu. inversion Hs. reflexivity.
    + inversion Hs. reflexivity.
Qed.

(** What a lock that was granted has read and written. *)
Lemma lock_time_slot_Some (today : date) (locked : uuid -> bool) (slot_id : uuid)
  (db db' : Plan.database) (slot : TimeSlot.row) :
  Plan.lock_time_slot today locked slot_id db = Ok (Some slot, db') ->
  In slot (Plan.time_slots db) /\ TimeSlot.id slot = slot_id /\
  TimeSlot.is_available slot = true /\
  Plan.doctors db' = Plan.doctors db /\ Plan.patients db' = Plan.patients db /\
  Plan.appointments db' = Plan.appointments db /\
  Forall2
    (fun s s' =>
       if TimeSlot.id s =? slot_id
       then s' = TimeSlot.set_availability false (TimeSlot.booked_count s) s
       else s' = s)
    (Plan.time_slots db) (Plan.time_slots db').
Proof.
  unfold Plan.lock_time_slot. intros H.
  destruct (find (fun s => (TimeSlot.id s =? slot_id) && TimeSlot.is_available s)
              (Plan.time_slots db)) as [s |] eqn:Hfind; [| discriminate H].
  destruct (locked (TimeSlot.id s)); [discriminate H |].
  inv_bind H as ts Hts. injection H as <- <-.
  apply find_some in Hfind. destruct Hfind as [Hin Hp].
  apply andb_true_iff in Hp. destruct Hp as [Hid Hav]. apply Z.eqb_eq in Hid.
  repeat split; try assumption.
  exact (mark_unavailable_Forall2 today slot_id _ _ Hts).
Qed.

Lemma find_all_false {A : Type} (p : A -> bool) (l : list A) :
  (forall x, In x l -> p x = false) -> find p l = None.
Proof.
  intros H. destruct (find p l) as [x |] eqn:Hf; [| reflexivity].
  apply find_some in Hf. destruct Hf as [Hin Hp].
  rewrite (H x Hin) in Hp. discriminate Hp.
Qed.

(** After a granted lock no row of the slot is available. *)
Lemma locked_slot_unavailable (slot_id : uuid) (rows rows' : list TimeSlot.row) :
  Forall2
    (fun s s' =>
       if TimeSlot.id s =? slot_id
       then s' = TimeSlot.set_availability false (TimeSlot.booked_count s) s
       else s' = s)
    rows rows' ->
  forall s', In s' rows' ->
             (TimeSlot.id s' =? slot_id) && TimeSlot.is_available s' = false.
Proof.
  intros HF s' Hin.
  destruct (Forall2_In_right _ _ _ _ HF Hin) as [s [_ Hs]].
  destruct (TimeSlot.id s =? slot_id) eqn:Hid.
  - subst s'. cbn [TimeSlot.is_available TimeSlot.set_availability].
    apply andb_false_r.
  - subst s'. rewrite Hid. reflexivity.
Qed.

(** X20.  [lock_time_slot] is granted once: after a call that returned
    the slot, every later call for the same slot returns NULL and writes
    nothing, whoever calls and whenever, so of two booking requests for
    one slot only one gets past the lock. *)
Theorem lock_time_slot_granted_once (today today' : date)
  (locked locked' : uuid -> bool) (slot_id : uuid) (db db' : Plan.database)
  (slot : TimeSlot.row) :
  Plan.lock_time_slot today locked slot_id db = Ok (Some slot, db') ->
  Plan.lock_time_slot today' locked' slot_id db' = Ok (None, db').
Proof.
  intros H. apply lock_time_slot_Some in H.
  destruct H as [_ [_ [_ [_ [_ [_ HF]]]]]].
  unfold Plan.lock_time_slot.
  rewrite (find_all_false _ _ (locked_slot_unavailable slot_id _ _ HF)).
  reflexivity.
Qed.

Lemma lock_time_slot_granted_once_witness :
  exists slot db',
    Plan.lock_time_slot 20000 no_locks 501 Plan.sample = Ok (Some slot, db') /\
    Plan.lock_time_slot 20000 no_locks 501 db' = Ok (None, db').
Proof.
  destruct (Plan.lock_time_slot 20000 no_locks 501 Plan.sample)
    as [[[slot |] db'] | e] eqn:H.
  - exists slot, db'. split; [reflexivity |].
    exact (lock_time_slot_granted_once 20000 20000 no_locks no_locks 501
             Plan.sample db' slot H).
  - vm_compute in H. discriminate H.
  - vm_compute in H. discriminate H.
Defined.

Lemma insert_by_In {A : Type} (key : A -> Z) (x y : A) (l : list A) :
  In x (insert_by key y l) -> x = y \/ In x l.
Proof.
  induction l as [| z l IH]; simpl.
  - intros [<- | []]. left. reflexivity.
  - destruct (key y <=? key z); simpl.
    + intros [<- | [<- | H]]; auto.
    + intros [<- | H]; [auto |]. destruct (IH H); auto.
Qed.

Lemma order_by_In {A : Type} (key : A -> Z) (x : A) (l : list A) :
  In x (order_by key l) -> In x l.
Proof.
  induction l as [| y l IH]; simpl; [auto |].
  intros H. apply insert_by_In in H. destruct H as [-> | H]; auto.
Qed.

(** X21.  A slot whose lock was granted is not offered any more: the
    availability endpoint lists it for no doctor and no day, whether or
    not an appointment follows. *)
Theorem locked_slot_is_not_offered (today : date) (locked : uuid -> bool)
  (slot_id : uuid) (db db' : Plan.database) (slot : TimeSlot.row)
  (doctor : uuid) (day : date) :
  Plan.lock_time_slot today locked slot_id db = Ok (Some slot, db') ->
  ~ In slot_id (map TimeSlot.id (Plan.availability doctor day db')).
Proof.
  intros H Hin. apply lock_time_slot_Some in H.
  destruct H as [_ [_ [_ [_ [_ [_ HF]]]]]].
  apply in_map_iff in Hin. destruct Hin as [s' [Hid Hs']].
  unfold Plan.availability in Hs'. apply order_by_In in Hs'.
  apply filter_In in Hs'. destruct Hs' as [Hs' Hp].
  pose proof (locked_slot_unavailable slot_id _ _ HF s' Hs') as Hun.
  rewrite Hid, Z.eqb_refl in Hun. cbn [andb] in Hun.
  rewrite Hun in Hp. cbn [Bool.eqb] in Hp.
  rewrite andb_false_r in Hp. discriminate Hp.
Qed.

Lemma locked_slot_is_not_offered_witness :
  exists slot db',
    Plan.lock_time_slot 20000 no_locks 501 Plan.sample = Ok (Some slot, db') /\
    ~ In 501 (map TimeSlot.id (Plan.availability 1 20000 db')).
Proof.
  destruct (Plan.lock_time_slot 20000 no_locks 501 Plan.sample)
    as [[[slot |] db'] | e] eqn:H.
  - exists slot, db'. split; [reflexivity |].
    exact (locked_slot_is_not_offered 20000 no_locks 501 Plan.sample db' slot
             1 20000 H).
  - vm_compute in H. discriminate H.
  - vm_compute in H. discriminate H.
Defined.

Section BookHandlerFacts.

Variable generateQueueNumber : Plan.database -> uuid -> date -> string.
Variable unlock_time_slot : uuid -> Plan.database -> Plan.database.

(** The handler's run, by the outcome of its two requests. *)
Lemma book_handler_cases (today : date) (new_id : uuid) (req : Plan.request)
  (db : Plan.database) :
  match Plan.lock_time_slot today no_locks (Plan.slotId req) db with
  | Ok (Some slot, dbl) =>
      match Plan.insert_appointment new_id req
              (generateQueueNumber dbl (Plan.doctorId req) (TimeSlot.slot_date slot))
              dbl with
      | Ok (a, dbi) =>
          book_handler generateQueueNumber unlock_time_slot today new_id req db
          = (Plan.h_responded 200 (Some a), dbi)
      | Err _ =>
          book_handler generateQueueNumber unlock_time_slot today new_id req db
          = (Plan.h_responded 500 None, unlock_time_slot (Plan.slotId req) dbl)
      end
  | _ =>
      book_handler generateQueueNumber unlock_time_slot today new_id req db
      = (Plan.h_responded 409 None, db)
  end.
Proof.
  unfold book_handler. cbn [handler_steps Plan.handler_step].
  destruct (Plan.lock_time_slot today no_locks (Plan.slotId req) db)
    as [[[slot |] dbl] | e]; try reflexivity.
  cbn [Plan.handler_step].
  destruct (Plan.insert_appointment new_id req _ dbl) as [[a dbi] | e];
    reflexivity.
Qed.

Lemma plan_insert_appointment_Ok (new_id : uuid) (req : Plan.request)
  (queueNumber : string) (db db' : Plan.database) (a : Plan.appointment) :
  Plan.insert_appointment new_id req queueNumber db = Ok (a, db') ->
  db' = Plan.mk (Plan.doctors db) (Plan.patients db) (Plan.time_slots db)
          (Plan.appointments db ++ [a]) /\
  Plan.status a = confirmed /\ Plan.time_slot_id a = Plan.slotId req /\
  Plan.patient_id a = Plan.patientId req /\ Plan.queue_number a = queueNumber /\
  exists n, Plan.parseInt (nth_error (Plan.js_split "-" queueNumber) 1) = Some n.
Proof.
  unfold Plan.insert_appointment. intros H.
  inv_bind H as n Hn. inv_bind H as n' Hn'.
  inv_bind H as u1 H1. inv_bind H as u2 H2. inv_bind H as u3 H3.
  inv_bind H as u4 H4. inv_bind H as u5 H5.
  injection H as <- <-. cbn [Plan.status Plan.time_slot_id Plan.patient_id
                             Plan.queue_number].
  repeat split. exists n. apply not_null_Ok in Hn. exact Hn.
Qed.

(** X22.  The booking handler answers 409, 500 or 200.  With 409 it
    has written nothing.  With 500 the lock had been granted and the
    database is what [unlock_time_slot] makes of the locked state.  With
    200 it has added one confirmed appointment on the slot and closed the
    slot, and [booked_count] is what it was in every row: unlike the
    trigger behind [book_appointment], the handler never counts the
    booking. *)
Theorem book_handler_outcomes (today : date) (new_id : uuid)
  (req : Plan.request) (db : Plan.database) :
  book_handler generateQueueNumber unlock_time_slot today new_id req db
  = (Plan.h_responded 409 None, db)
  \/ (exists slot dbl,
        Plan.lock_time_slot today no_locks (Plan.slotId req) db
        = Ok (Some slot, dbl) /\
        book_handler generateQueueNumber unlock_time_slot today new_id req db
        = (Plan.h_responded 500 None, unlock_time_slot (Plan.slotId req) dbl))
  \/ (exists slot dbl a,
        Plan.lock_time_slot today no_locks (Plan.slotId req) db
        = Ok (Some slot, dbl) /\
        book_handler generateQueueNumber unlock_time_slot today new_id req db
        = (Plan.h_responded 200 (Some a),
           Plan.mk (Plan.doctors db) (Plan.patients db) (Plan.time_slots dbl)
             (Plan.appointments db ++ [a])) /\
        Plan.status a = confirmed /\
        Plan.time_slot_id a = Plan.slotId req /\
        map TimeSlot.booked_count (Plan.time_slots dbl)
        = map TimeSlot.booked_count (Plan.time_slots db) /\
        forall s', In s' (Plan.time_slots dbl) ->
                   TimeSlot.id s' = Plan.slotId req ->
                   TimeSlot.is_available s' = false).
Proof.
  pose proof (book_handler_cases today new_id req db) as H.
  destruct (Plan.lock_time_slot today no_locks (Plan.slotId req) db)
    as [[[slot |] dbl] | e] eqn:Hlock; [| left; exact H | left; exact H].
  right.
  destruct (Plan.insert_appointment new_id req _ dbl) as [[a dbi] | e] eqn:Hins.
  - right. exists slot, dbl, a. split; [reflexivity |].
    apply plan_insert_appointment_Ok in Hins.
    destruct Hins as [-> [Hst [Hslot _]]].
    apply lock_time_slot_Some in Hlock.
    destruct Hlock as [_ [_ [_ [Hd [Hp [Ha HF]]]]]].
    rewrite Hd, Hp, Ha in H.
    split; [exact H |]. split; [exact Hst |]. split; [exact Hslot |].
    split.
    + clear - HF. induction HF as [| s s' l l' Hs _ IH]; [reflexivity |].
      cbn [map]. rewrite IH. f_equal.
      destruct (TimeSlot.id s =? Plan.slotId req); subst s'; reflexivity.
    + intros s' Hin Hid.
      pose proof (locked_slot_unavailable _ _ _ HF s' Hin) as Hun.
      rewrite Hid, Z.eqb_refl in Hun. exact Hun.
  - left. exists slot, dbl. split; [reflexivity | exact H].
Qed.

Lemma has_dash_false_split (label : string) :
  has_dash label = false -> Plan.js_split "-" label = [label].
Proof.
  unfold has_dash. induction label as [| c rest IH]; [reflexivity |].
  cbn [list_ascii_of_string existsb Plan.js_split]. intros H.
  apply orb_false_iff in H. destruct H as [Hc Hrest].
  rewrite Ascii.eqb_sym in Hc. rewrite Hc, (IH Hrest). reflexivity.
Qed.

(** X23.  The handler reads the sequence after a '-' in the queue
    number.  With a [generateQueueNumber] whose labels have no '-', as
    the labels of the database function have, the sequence is NaN, the
    insert fails on the NOT NULL column, and no request is ever answered
    with an appointment: each gets 409 or 500. *)
Theorem book_handler_needs_dash (today : date) (new_id : uuid)
  (req : Plan.request) (db : Plan.database) :
  (forall db0 d day, has_dash (generateQueueNumber db0 d day) = false) ->
  fst (book_handler generateQueueNumber unlock_time_slot today new_id req db)
  = Plan.h_responded 409 None
  \/ fst (book_handler generateQueueNumber unlock_time_slot today new_id req db)
     = Plan.h_responded 500 None.
Proof.
  intros Hdash.
  pose proof (book_handler_cases today new_id req db) as H.
  destruct (Plan.lock_time_slot today no_locks (Plan.slotId req) db)
    as [[[slot |] dbl] | e]; [| left; rewrite H; reflexivity
                              | left; rewrite H; reflexivity].
  destruct (Plan.insert_appointment new_id req _ dbl) as [[a dbi] | e] eqn:Hins.
  - exfalso. apply plan_insert_appointment_Ok in Hins.
    destruct Hins as [_ [_ [_ [_ [_ [n Hn]]]]]].
    rewrite (has_dash_false_split _ (Hdash dbl _ _)) in Hn. discriminate Hn.
  - right. rewrite H. reflexivity.
Qed.

End BookHandlerFacts.

Lemma has_dash_cons (c : ascii) (s : string) :
  has_dash (String c s) = Ascii.eqb "-" c || has_dash s.
Proof. reflexivity. Qed.

Lemma has_dash_append (s1 s2 : string) :
  has_dash (String.append s1 s2) = has_dash s1 || has_dash s2.
Proof.
  induction s1 as [| c s1 IH]; [reflexivity |].
  cbn [String.append]. rewrite !has_dash_cons, IH, orb_assoc. reflexivity.
Qed.

Lemma has_dash_substring (s : string) :
  has_dash s = false -> forall n m, has_dash (substring n m s) = false.
Proof.
  induction s as [| c s IH]; intros H n m.
  - destruct n, m; reflexivity.
  - rewrite has_dash_cons in H. apply orb_false_iff in H. destruct H as [Hc Hs].
    destruct n as [| n]; [destruct m as [| m] |]; cbn [substring].
    + reflexivity.
    + rewrite has_dash_cons, Hc. exact (IH Hs 0%nat m).
    + exact (IH Hs n m).
Qed.

Lemma has_dash_repeat_zero (n : nat) : has_dash (repeat_char n "0") = false.
Proof.
  induction n as [| n IH]; [reflexivity |].
  cbn [repeat_char]. rewrite has_dash_cons, IH. reflexivity.
Qed.

Lemma digit_char_no_dash (n : Z) : Ascii.eqb "-" (digit_char (n mod 10)) = false.
Proof.
  pose proof (Z.mod_pos_bound n 10 ltac:(lia)) as Hr.
  assert (H : n mod 10 = 0 \/ n mod 10 = 1 \/ n mod 10 = 2 \/ n mod 10 = 3 \/
              n mod 10 = 4 \/ n mod 10 = 5 \/ n mod 10 = 6 \/ n mod 10 = 7 \/
              n mod 10 = 8 \/ n mod 10 = 9) by lia.
  destruct H as [-> | [-> | [-> | [-> | [-> | [-> | [-> | [-> | [-> | ->]]]]]]]]];
    reflexivity.
Qed.

Lemma has_dash_digits_of (fuel : nat) :
  forall (n : Z) (acc : string),
    has_dash acc = false -> has_dash (digits_of fuel n acc) = false.
Proof.
  induction fuel as [| fuel IH]; intros n acc Hacc; [exact Hacc |].
  cbn [digits_of].
  assert (Hacc' : has_dash (String (digit_char (n mod 10)) acc) = false)
    by (rewrite has_dash_cons, digit_char_no_dash; exact Hacc).
  destruct (n / 10 =? 0); [exact Hacc' | exact (IH _ _ Hacc')].
Qed.

(** The labels of [generate_queue_number] have no '-' (the sequence is
    COALESCE(MAX, 0) + 1 of positive numbers). *)
Lemma label_has_no_dash (n : Z) :
  0 <= n ->
  has_dash (String.append "A" (LPAD (int4_to_text n) 3 "0"%char)) = false.
Proof.
  intros Hn. rewrite has_dash_append. cbn [orb].
  change (has_dash "A") with false. cbn [orb].
  assert (Ht : has_dash (int4_to_text n) = false).
  { unfold int4_to_text. destruct (Z.ltb_spec n 0); [lia |].
    apply has_dash_digits_of. reflexivity. }
  unfold LPAD. destruct (Nat.leb 3 (String.length (int4_to_text n))).
  - apply has_dash_substring. exact Ht.
  - rewrite has_dash_append, has_dash_repeat_zero. exact Ht.
Qed.

Lemma book_handler_needs_dash_witness :
  fst (book_handler
         (fun _ _ _ => String.append "A" (LPAD (int4_to_text 1) 3 "0"%char))
         (fun _ db => db) 20000 1001 (Plan.mk_request 11 1 501 None) Plan.sample)
  = Plan.h_responded 409 None
  \/ fst (book_handler
            (fun _ _ _ => String.append "A" (LPAD (int4_to_text 1) 3 "0"%char))
            (fun _ db => db) 20000 1001 (Plan.mk_request 11 1 501 None) Plan.sample)
     = Plan.h_responded 500 None.
Proof.
  apply (book_handler_needs_dash
           (fun _ _ _ => String.append "A" (LPAD (int4_to_text 1) 3 "0"%char))
           (fun _ db => db) 20000 1001 (Plan.mk_request 11 1 501 None) Plan.sample).
  intros db0 d day. apply label_has_no_dash. lia.
Defined.
